(** * Etmam quotation backend: revision writer, aggregate reader, export
    marker, deleter and account provisioning

    Shallow embedding of [src/unnamed/part_000] (the quotation router:
    GET / PUT / PUT export / DELETE on [/quotations/:id]) and of
    [src/api/driver/driver+api.js] (POST [/drivers], its temporary
    password and the paging of GET [/drivers]).

    Conventions.
    - A JavaScript string is a [list ascii] of code units (only code units
      below 256 are represented); literals are written [js "..."].
    - Regular expressions are a small AST run by Brzozowski derivatives.
    - The Number produced by [parseInt] on a digit string is a non-negative
      integer-valued binary64; it is modelled on [Z] with the rounding to 53
      significant bits written out.  Monetary totals are binary64 values
      ([PrimFloat]).
    - The database is an explicit value; handlers run in a state-and-
      exception monad over a [World] that carries the connection, a script of
      per-statement outcomes, a clock and a trace of what was issued.
    - Requests are typed: the [:id] of a route is an integer key (the
      router never passes an empty one, so the [!id] guard is not
      represented), an absent JSON field is [None], and [products] is a
      list of objects when present.  [pool.connect()] always succeeds.
    - The clock is not wall time: it advances by the timers of the gateway
      only (10 seconds for a race that is lost, the pause before a retry).
      How long a statement takes to answer, and how long the handlers wait
      where they await without a race (BEGIN, COMMIT, ROLLBACK), is not
      represented. *)

From Stdlib Require Import ZArith Floats String Ascii List Lia Bool QArith DecimalString
  DecimalN.
From stdpp Require Import base gmap list strings.

Set Default Proof Using "Type".
Local Open Scope Z_scope.

Abbreviation JsString := (list ascii).

Definition js (s : string) : JsString := list_ascii_of_string s.

(* ===================================================================== *)
(** ** Regular expressions *)
(* ===================================================================== *)

Module RegExp.

Inductive re : Type :=
| Void
| Eps
| Chr (p : ascii -> bool)
| Seq (a b : re)
| Alt (a b : re)
| Star (a : re).

Fixpoint nullable (r : re) : bool :=
  match r with
  | Void => false
  | Eps => true
  | Chr _ => false
  | Seq a b => nullable a && nullable b
  | Alt a b => nullable a || nullable b
  | Star _ => true
  end.

Fixpoint deriv (c : ascii) (r : re) : re :=
  match r with
  | Void => Void
  | Eps => Void
  | Chr p => if p c then Eps else Void
  | Seq a b =>
      if nullable a then Alt (Seq (deriv c a) b) (deriv c b)
      else Seq (deriv c a) b
  | Alt a b => Alt (deriv c a) (deriv c b)
  | Star a => Seq (deriv c a) (Star a)
  end.

(** [test r s]: the whole of [s] is matched by [r], i.e. [/^r$/.test(s)]. *)
Fixpoint test (r : re) (s : JsString) : bool :=
  match s with
  | [] => nullable r
  | c :: s' => test (deriv c r) s'
  end.

(** Derived forms: [a+], [a?], a literal, [a{n,}]. *)
Definition Plus (a : re) : re := Seq a (Star a).
Definition Opt (a : re) : re := Alt Eps a.

Fixpoint Lit (s : JsString) : re :=
  match s with
  | [] => Eps
  | c :: s' => Seq (Chr (Ascii.eqb c)) (Lit s')
  end.

Fixpoint AtLeast (n : nat) (a : re) : re :=
  match n with
  | O => Star a
  | S n' => Seq a (AtLeast n' a)
  end.

(** Denotation, used only to reason about [test]. *)
Inductive accepts : re -> JsString -> Prop :=
| acc_eps : accepts Eps []
| acc_chr p c : p c = true -> accepts (Chr p) [c]
| acc_seq a b s1 s2 : accepts a s1 -> accepts b s2 -> accepts (Seq a b) (s1 ++ s2)
| acc_alt_l a b s : accepts a s -> accepts (Alt a b) s
| acc_alt_r a b s : accepts b s -> accepts (Alt a b) s
| acc_star_nil a : accepts (Star a) []
| acc_star_cons a c s1 s2 :
    accepts a (c :: s1) -> accepts (Star a) s2 -> accepts (Star a) (c :: s1 ++ s2).

(** Leftmost search for a match of [r] that reaches the end of the input:
    what [s.match(/r$/)] finds.  Returns the text before the match and the
    matched text. *)
Fixpoint search_to_end (r : re) (before_rev : JsString) (s : JsString)
  : option (JsString * JsString) :=
  if test r s then Some (rev before_rev, s)
  else match s with
       | [] => None
       | c :: s' => search_to_end r (c :: before_rev) s'
       end.

(** Character classes of the patterns in the source. *)
Definition is_digit (c : ascii) : bool :=
  let n := nat_of_ascii c in (48 <=? n)%nat && (n <=? 57)%nat.

(** [\s] restricted to code units below 256: TAB, LF, VT, FF, CR, SP, NBSP. *)
Definition is_space (c : ascii) : bool :=
  let n := nat_of_ascii c in
  ((9 <=? n)%nat && (n <=? 13)%nat) || (n =? 32)%nat || (n =? 160)%nat.

End RegExp.

(* ===================================================================== *)
(** ** Numbers that hold a revision counter *)
(* ===================================================================== *)

Module JsNumber.

(** A non-negative integer-valued binary64, or +Infinity. *)
Inductive Number : Type :=
| Finite (z : Z)
| Infinity.

(** Round a non-negative integer to 53 significant bits, ties to even. *)
Definition round_binary64 (z : Z) : Z :=
  let e := Z.log2 z - 52 in
  if e <=? 0 then z
  else
    let q := z / 2 ^ e in
    let r := z mod 2 ^ e in
    let half := 2 ^ (e - 1) in
    let q' := if r <? half then q
              else if half <? r then q + 1
              else if Z.even q then q else q + 1 in
    q' * 2 ^ e.

Definition toNumber (z : Z) : Number :=
  let r := round_binary64 z in
  if r <? 2 ^ 1024 then Finite r else Infinity.

(** [x + 1] on such a Number. *)
Definition add1 (x : Number) : Number :=
  match x with
  | Finite z => toNumber (z + 1)
  | Infinity => Infinity
  end.

Definition digit_value (c : ascii) : Z := Z.of_nat (nat_of_ascii c) - 48.

(** The mathematical value of a string of decimal digits. *)
Definition digits_value (ds : JsString) : Z :=
  fold_left (fun acc c => acc * 10 + digit_value c) ds 0.

(** [parseInt(ds, 10)] for [ds] a string of decimal digits (the capture of
    [\d+]): the exact value, rounded to binary64. *)
Definition parseInt (ds : JsString) : Number := toNumber (digits_value ds).

(** Decimal expansion of a non-negative integer. *)
Definition decimal (z : Z) : JsString :=
  js (NilZero.string_of_uint (N.to_uint (Z.to_N z))).

(** Number::toString picks the shortest decimal that rounds back to [x];
    [shortest x m] tries multiples of [10^m], then of [10^(m-1)], ..., and
    at a given precision prefers the candidate nearer to [x]. *)
Fixpoint shortest (x : Z) (m : nat) : Z :=
  let p := 10 ^ Z.of_nat m in
  let lo := x / p * p in
  let hi := lo + p in
  let ok_lo := (0 <? lo) && (round_binary64 lo =? x) in
  let ok_hi := round_binary64 hi =? x in
  if ok_lo && ok_hi then (if x - lo <=? hi - x then lo else hi)
  else if ok_lo then lo
  else if ok_hi then hi
  else match m with
       | O => x
       | S m' => shortest x m'
       end.

Fixpoint strip_zeros_rev (ds_rev : JsString) : JsString :=
  match ds_rev with
  | c :: r => if Ascii.eqb c "0" then strip_zeros_rev r else ds_rev
  | [] => []
  end.

(** Digits of [c] without trailing zeros. *)
Definition significant (c : Z) : JsString := rev (strip_zeros_rev (rev (decimal c))).

(** Number::toString of an integer-valued Number: plain digits below 10^21,
    exponential notation from there on. *)
Definition toString (x : Number) : JsString :=
  match x with
  | Infinity => js "Infinity"
  | Finite z =>
      if z =? 0 then js "0"
      else
        let c := shortest z (length (decimal z)) in
        if c <? 10 ^ 21 then decimal c
        else
          let n := Z.of_nat (length (decimal c)) in
          match significant c with
          | [] => []
          | [d] => d :: js "e+" ++ decimal (n - 1)
          | d :: ds => d :: js "." ++ ds ++ js "e+" ++ decimal (n - 1)
          end
  end.

End JsNumber.

(* ===================================================================== *)
(** ** Revision derivation (PUT /quotations/:id, lines 152-162) *)
(* ===================================================================== *)

(** [/Rev(\d+)$/] without its end anchor; [search_to_end] supplies [$]. *)
Definition revisionPattern : RegExp.re :=
  RegExp.Seq (RegExp.Lit (js "Rev")) (RegExp.Plus (RegExp.Chr RegExp.is_digit)).

(** [currentCustomId.match(/Rev(\d+)$/)]: the text before the match and
    capture group 1. *)
Definition revisionMatch (currentCustomId : JsString) : option (JsString * JsString) :=
  match RegExp.search_to_end revisionPattern [] currentCustomId with
  | Some (before, matched) => Some (before, drop 3 matched)
  | None => None
  end.

Definition newCustomId (currentCustomId : JsString) : JsString :=
  match revisionMatch currentCustomId with
  | Some (before, group1) =>
      let currentRevision := JsNumber.parseInt group1 in
      before ++ js "Rev" ++ JsNumber.toString (JsNumber.add1 currentRevision)
  | None => currentCustomId ++ js " Rev1"
  end.

(* ===================================================================== *)
(** ** Monetary totals (PUT /quotations/:id, lines 167-186) *)
(* ===================================================================== *)

(** A JSON value as it reaches [parseFloat]. *)
Inductive JsValue : Type :=
| JUndefined
| JNull
| JBool (b : bool)
| JNum (f : float)
| JStr (s : JsString).

Module ParseFloat.

(** Decimal [m * 10^e10] rounded to the nearest binary64, ties to even. *)
Definition of_decimal (neg : bool) (m e10 : Z) : float :=
  if m =? 0 then (if neg then neg_zero else PrimFloat.zero)
  else if 0 <=? e10 then
    SF2Prim (binary_normalize prec emax (if neg then - (m * 10 ^ e10) else m * 10 ^ e10) 0 neg)
  else
    let d := 10 ^ (- e10) in
    let s := Z.log2_up d + 64 in
    let n := m * 2 ^ s in
    let q := n / d in
    let r := n mod d in
    let l := if r =? 0 then loc_Exact else loc_Inexact (Z.compare (2 * r) d) in
    SF2Prim (binary_round_aux prec emax neg q (- s) l).

Fixpoint span_digits (s : JsString) : JsString * JsString :=
  match s with
  | c :: s' =>
      if RegExp.is_digit c then let '(ds, rest) := span_digits s' in (c :: ds, rest)
      else ([], s)
  | [] => ([], [])
  end.

Fixpoint trim_start (s : JsString) : JsString :=
  match s with
  | c :: s' => if RegExp.is_space c then trim_start s' else s
  | [] => []
  end.

Fixpoint starts_with (p s : JsString) : bool :=
  match p, s with
  | [], _ => true
  | a :: p', b :: s' => Ascii.eqb a b && starts_with p' s'
  | _ :: _, [] => false
  end.

(** ExponentPart: [e] or [E], an optional sign, at least one digit;
    absent or malformed means exponent 0. *)
Definition exponent_part (s : JsString) : Z :=
  match s with
  | c :: s' =>
      if Ascii.eqb c "e" || Ascii.eqb c "E" then
        let '(neg, s'') :=
          match s' with
          | sg :: t => if Ascii.eqb sg "-" then (true, t)
                       else if Ascii.eqb sg "+" then (false, t) else (false, s')
          | [] => (false, s')
          end in
        let '(ds, _) := span_digits s'' in
        match ds with
        | [] => 0
        | _ => if neg then - JsNumber.digits_value ds else JsNumber.digits_value ds
        end
      else 0
  | [] => 0
  end.

(** The longest prefix that is a StrUnsignedDecimalLiteral, as a float. *)
Definition unsigned_literal (neg : bool) (s : JsString) : float :=
  if starts_with (js "Infinity") s then (if neg then neg_infinity else infinity)
  else
    let '(ip, rest) := span_digits s in
    let '(fp, rest') :=
      match rest with
      | c :: r => if Ascii.eqb c "." then span_digits r else ([], rest)
      | [] => ([], rest)
      end in
    match ip ++ fp with
    | [] => nan
    | ds => of_decimal neg (JsNumber.digits_value ds)
              (exponent_part rest' - Z.of_nat (length fp))
    end.

Definition of_string (s : JsString) : float :=
  match trim_start s with
  | c :: s' =>
      if Ascii.eqb c "-" then unsigned_literal true s'
      else if Ascii.eqb c "+" then unsigned_literal false s'
      else unsigned_literal false (c :: s')
  | [] => nan
  end.

(** [parseFloat(v)] is [of_string (ToString v)].  A Number prints as the
    shortest decimal that reads back as itself, so it is returned as it
    is, except that -0 prints as "0". *)
Definition parseFloat (v : JsValue) : float :=
  match v with
  | JUndefined | JNull | JBool _ => nan
  | JNum f => if is_zero f then PrimFloat.zero else f
  | JStr s => of_string s
  end.

End ParseFloat.

(** [x || 0] on a Number: NaN, +0 and -0 are falsy. *)
Definition or_zero (x : float) : float :=
  if is_nan x || is_zero x then PrimFloat.zero else x.

(** [parseFloat(v) || 0] *)
Definition numeric (v : JsValue) : float := or_zero (ParseFloat.parseFloat v).

(** The arithmetic the totals loop runs on. *)
Class Arith (T : Type) : Type := {
  a_zero : T;
  a_add : T -> T -> T;
  a_mul : T -> T -> T;
  a_rate : T        (* the constant 0.15 *)
}.

#[global] Instance Arith_binary64 : Arith float := {|
  a_zero := PrimFloat.zero;
  a_add := PrimFloat.add;
  a_mul := PrimFloat.mul;
  a_rate := 0x1.3333333333333p-3%float     (* the binary64 nearest to 0.15 *)
|}.

#[global] Instance Arith_exact : Arith Q := {|
  a_zero := 0%Q;
  a_add := Qplus;
  a_mul := Qmult;
  a_rate := (15 # 100)%Q
|}.

Section Totals.
Context {T : Type} `{Arith T}.

(** One line item: [(totalPriceForProduct, vat, subtotal)]. *)
Definition lineAmounts (numericPrice numericQuantity : T) : T * T * T :=
  let totalPriceForProduct := a_mul numericPrice numericQuantity in
  let vat := a_mul totalPriceForProduct a_rate in
  let subtotal := a_add totalPriceForProduct vat in
  (totalPriceForProduct, vat, subtotal).

Definition addLine (acc : T * T * T) (item : T * T) : T * T * T :=
  let '(totalPrice, totalVat, totalSubtotal) := acc in
  let '(totalPriceForProduct, vat, subtotal) := lineAmounts (fst item) (snd item) in
  (a_add totalPrice totalPriceForProduct, a_add totalVat vat, a_add totalSubtotal subtotal).

(** The loop over the incoming items: [(totalPrice, totalVat, totalSubtotal)]. *)
Definition computeTotals (items : list (T * T)) : T * T * T :=
  fold_left addLine items (a_zero, a_zero, a_zero).

End Totals.

(** An incoming line item of the payload. *)
Record Product : Type := {
  p_section : option JsString;
  p_type : option JsString;
  p_quantity : JsValue;
  p_description : option JsString;
  p_price : JsValue
}.

Definition numericItem (p : Product) : float * float :=
  (numeric (p_price p), numeric (p_quantity p)).

(** [products && products.length > 0] guards the loop; an absent or empty
    list leaves the three totals at 0. *)
Definition revisionTotals (products : option (list Product)) : float * float * float :=
  match products with
  | Some (p :: ps) => computeTotals (map numericItem (p :: ps))
  | _ => (PrimFloat.zero, PrimFloat.zero, PrimFloat.zero)
  end.

(* ===================================================================== *)
(** ** The database *)
(* ===================================================================== *)

(** Header row of [quotations] (the columns the handlers touch). *)
Record Quotation : Type := {
  custom_id : JsString;
  client_id : option Z;
  delivery_date : option JsString;
  delivery_type : option JsString;
  notes : option JsString;
  status : JsString;
  storekeeperaccept : JsString;
  supervisoraccept : JsString;
  manageraccept : JsString;
  updated_at : Z;
  actual_delivery_date : option Z;
  storekeeper_notes : option JsString;
  total_price : float;
  total_vat : float;
  total_subtotal : float;
  exported : bool;
  sales_rep_id : option Z;
  supervisor_id : option Z
}.

(** Row of [quotation_products]. *)
Record ProductRow : Type := {
  quotation_id : Z;
  description : option JsString;
  quantity : JsValue;
  price : JsValue;
  vat : float;
  subtotal : float
}.

Record Client : Type := {
  company_name : JsString;
  client_name : JsString;
  phone_number : JsString;
  tax_number : JsString;
  branch_number : JsString;
  latitude : JsString;
  longitude : JsString;
  street : JsString;
  city : JsString;
  region : JsString
}.

Record SalesRep : Type := {
  rep_name : JsString;
  rep_email : JsString;
  rep_phone : JsString
}.

Record Driver : Type := {
  driver_id : Z;
  driver_name : JsString;
  driver_email : JsString;
  driver_phone : JsString;
  clerk_id : JsString;
  driver_role : JsString;
  created_at : Z
}.

Record Db : Type := {
  quotations : gmap Z Quotation;
  quotation_products : list ProductRow;
  clients : gmap Z Client;
  supervisors : gmap Z JsString;          (* id -> name *)
  salesreps : gmap Z SalesRep;
  drivers : list Driver
}.

(** Parameters [$1 .. $11] of [updateQuotationQuery]. *)
Record UpdateParams : Type := {
  u_client_id : option Z;
  u_delivery_date : option JsString;
  u_delivery_type : option JsString;
  u_notes : option JsString;
  u_status : JsString;
  u_actualDeliveryDate : option Z;
  u_storekeeper_notes : option JsString;
  u_totalPrice : float;
  u_totalVat : float;
  u_totalSubtotal : float;
  u_newCustomId : JsString
}.

(** The SQL statements of the two routers. *)
Inductive Stmt : Type :=
| Begin
| Commit
| Rollback
| SelectQuotationJoined (id : Z)
| SelectProducts (id : Z)
| SelectSalesRep (id : option Z)
| SelectCustomId (id : Z)
| UpdateQuotation (p : UpdateParams) (id : Z)
| DeleteProducts (id : Z)
| InsertProduct (r : ProductRow)
| MarkExported (id : Z)
| DeleteQuotation (id : Z)
| SelectDriverByEmail (email : JsString)
| InsertDriver (name email phone userId role : JsString).

Inductive Row : Type :=
| RowCustomId (c : JsString)
| RowJoined (id : Z) (q : Quotation) (c : Client) (supervisor_name : option JsString)
| RowProduct (r : ProductRow)
| RowSalesRep (s : SalesRep)
| RowExported (id : Z) (e : bool)
| RowDriver (d : Driver).

Record QueryResult : Type := { rows : list Row; rowCount : nat }.

Definition result_of (rs : list Row) : QueryResult :=
  {| rows := rs; rowCount := length rs |}.

Definition affected (n : nat) : QueryResult := {| rows := []; rowCount := n |}.

Definition set_quotations (qs : gmap Z Quotation) (db : Db) : Db :=
  {| quotations := qs; quotation_products := quotation_products db;
     clients := clients db; supervisors := supervisors db;
     salesreps := salesreps db; drivers := drivers db |}.

Definition set_products (ps : list ProductRow) (db : Db) : Db :=
  {| quotations := quotations db; quotation_products := ps;
     clients := clients db; supervisors := supervisors db;
     salesreps := salesreps db; drivers := drivers db |}.

Definition set_drivers (ds : list Driver) (db : Db) : Db :=
  {| quotations := quotations db; quotation_products := quotation_products db;
     clients := clients db; supervisors := supervisors db;
     salesreps := salesreps db; drivers := ds |}.

Definition pending : JsString := js "pending".

(** [UPDATE quotations SET ... WHERE id = $12] applied to one row at time
    [now] ([CURRENT_TIMESTAMP]). *)
Definition updated_row (now : Z) (p : UpdateParams) (q : Quotation) : Quotation :=
  {| custom_id := u_newCustomId p;
     client_id := u_client_id p;
     delivery_date := u_delivery_date p;
     delivery_type := u_delivery_type p;
     notes := u_notes p;
     status := u_status p;
     storekeeperaccept := pending;
     supervisoraccept := pending;
     manageraccept := pending;
     updated_at := now;
     actual_delivery_date :=
       match u_actualDeliveryDate p with        (* COALESCE($6, actual_delivery_date) *)
       | Some t => Some t
       | None => actual_delivery_date q
       end;
     storekeeper_notes := u_storekeeper_notes p;
     total_price := u_totalPrice p;
     total_vat := u_totalVat p;
     total_subtotal := u_totalSubtotal p;
     exported := exported q;
     sales_rep_id := sales_rep_id q;
     supervisor_id := supervisor_id q |}.

(** [UPDATE quotations SET exported = 'TRUE', updated_at = CURRENT_TIMESTAMP] *)
Definition exported_row (now : Z) (q : Quotation) : Quotation :=
  {| custom_id := custom_id q;
     client_id := client_id q;
     delivery_date := delivery_date q;
     delivery_type := delivery_type q;
     notes := notes q;
     status := status q;
     storekeeperaccept := storekeeperaccept q;
     supervisoraccept := supervisoraccept q;
     manageraccept := manageraccept q;
     updated_at := now;
     actual_delivery_date := actual_delivery_date q;
     storekeeper_notes := storekeeper_notes q;
     total_price := total_price q;
     total_vat := total_vat q;
     total_subtotal := total_subtotal q;
     exported := true;
     sales_rep_id := sales_rep_id q;
     supervisor_id := supervisor_id q |}.

Definition of_quotation (id : Z) (r : ProductRow) : bool := quotation_id r =? id.

Definition jseqb (a b : JsString) : bool := bool_decide (a = b).

(** [quotations q JOIN clients c ON q.client_id = c.id LEFT JOIN
    supervisors s ON q.supervisor_id = s.id WHERE q.id = $1]: at most one
    row, none when the quotation or its client is absent. *)
Definition joined_header (db : Db) (id : Z) : option Row :=
  match quotations db !! id with
  | Some q =>
      match client_id q ≫= (fun cid => clients db !! cid) with
      | Some c =>
          Some (RowJoined id q c (supervisor_id q ≫= (fun sid => supervisors db !! sid)))
      | None => None
      end
  | None => None
  end.

(** [SELECT * FROM quotation_products WHERE quotation_id = $1], in stored order. *)
Definition products_of (db : Db) (id : Z) : list Row :=
  map RowProduct (List.filter (of_quotation id) (quotation_products db)).

(** [SELECT name, email, phone FROM salesreps WHERE id = $1]; a NULL
    parameter matches nothing. *)
Definition sales_rep (db : Db) (oid : option Z) : option Row :=
  RowSalesRep <$> (oid ≫= (fun rid => salesreps db !! rid)).

(** What a data statement returns and how it changes the tables.
    [Begin], [Commit] and [Rollback] act on the connection, not here.
    [now] stands for CURRENT_TIMESTAMP and is the time at which the
    statement is issued; inside a transaction PostgreSQL gives the time at
    which the transaction started, so the statements about a stored time
    only say between which two readings of the clock it lies. *)
Definition run_stmt (now : Z) (s : Stmt) (db : Db) : QueryResult * Db :=
  match s with
  | Begin | Commit | Rollback => (affected 0, db)
  | SelectQuotationJoined id => (result_of (option_list (joined_header db id)), db)
  | SelectProducts id => (result_of (products_of db id), db)
  | SelectSalesRep oid => (result_of (option_list (sales_rep db oid)), db)
  | SelectCustomId id =>
      match quotations db !! id with
      | Some q => (result_of [RowCustomId (custom_id q)], db)
      | None => (result_of [], db)
      end
  | UpdateQuotation p id =>
      match quotations db !! id with
      | Some q => (affected 1, set_quotations (<[id := updated_row now p q]> (quotations db)) db)
      | None => (affected 0, db)
      end
  | DeleteProducts id =>
      let gone := List.filter (of_quotation id) (quotation_products db) in
      (affected (length gone),
       set_products (List.filter (fun r => negb (of_quotation id r)) (quotation_products db)) db)
  | InsertProduct r =>
      (affected 1, set_products (quotation_products db ++ [r]) db)
  | MarkExported id =>
      match quotations db !! id with
      | Some q =>
          (result_of [RowExported id true],
           set_quotations (<[id := exported_row now q]> (quotations db)) db)
      | None => (result_of [], db)
      end
  | DeleteQuotation id =>
      match quotations db !! id with
      | Some _ => (affected 1, set_quotations (delete id (quotations db)) db)
      | None => (affected 0, db)
      end
  | SelectDriverByEmail email =>
      (result_of (map RowDriver
                    (List.filter (fun d => jseqb (driver_email d) email) (drivers db))), db)
  | InsertDriver name email phone userId role =>
      let d := {| driver_id := Z.of_nat (length (drivers db)) + 1;
                  driver_name := name; driver_email := email; driver_phone := phone;
                  clerk_id := userId; driver_role := role; created_at := now |} in
      (result_of [RowDriver d], set_drivers (drivers db ++ [d]) db)
  end.

(* ===================================================================== *)
(** ** The world a handler runs in, and the persistence gateway *)
(* ===================================================================== *)

(** State of the connection held by a handler ([pool.connect()]). *)
Inductive TxState : Type :=
| Idle
| InTxn (work : Db)
| Aborted.

(** How one statement goes: it completes in time, it completes after the
    caller has stopped waiting, or the database reports an error. *)
Inductive Outcome : Type := Fast | Slow | Fails.

(** How one call to the external identity provider goes. *)
Inductive IdpReply : Type :=
| Created (id : JsString)
| Refused
| Unreachable
| Stalled.

Inductive Event : Type :=
| EvQuery (s : Stmt)
| EvIdentityProvider (email name role : JsString).

Record World : Type := {
  committed : Db;            (* what other connections read *)
  tx : TxState;
  script : list Outcome;     (* outcomes of the statements still to come *)
  idp : list IdpReply;
  clock : Z;                 (* milliseconds spent in lost races and pauses *)
  trace : list Event
}.

Inductive Error : Type :=
| DatabaseError
| QueryTimedOut            (* 'Database query timed out' *)
| TypeError
| NetworkError
| ClerkApiError.

Inductive Result (A : Type) : Type :=
| Ret (a : A)
| Throw (e : Error).
Arguments Ret {A} a.
Arguments Throw {A} e.

(** An [async] computation. *)
Definition M (A : Type) : Type := World -> Result A * World.

Definition ret {A} (a : A) : M A := fun w => (Ret a, w).
Definition throw {A} (e : Error) : M A := fun w => (Throw e, w).

Definition bind {A B} (m : M A) (k : A -> M B) : M B :=
  fun w => match m w with
           | (Ret a, w') => k a w'
           | (Throw e, w') => (Throw e, w')
           end.

Definition try_catch {A} (m : M A) (h : Error -> M A) : M A :=
  fun w => match m w with
           | (Ret a, w') => (Ret a, w')
           | (Throw e, w') => h e w'
           end.

Notation "'let*' x ':=' m 'in' k" := (bind m (fun x => k))
  (at level 10, x pattern, m at level 100, k at level 200).

(** A promise once it has settled; [late] says it resolved too late for a
    10-second race. *)
Inductive Settled (A : Type) : Type :=
| Resolved (a : A) (late : bool)
| Rejected (e : Error).
Arguments Resolved {A} a late.
Arguments Rejected {A} e.

Definition Promise (A : Type) : Type := World -> Settled A * World.

Definition set_tx (t : TxState) (w : World) : World :=
  {| committed := committed w; tx := t; script := script w; idp := idp w;
     clock := clock w; trace := trace w |}.

Definition set_committed (db : Db) (w : World) : World :=
  {| committed := db; tx := tx w; script := script w; idp := idp w;
     clock := clock w; trace := trace w |}.

Definition advance (ms : Z) (w : World) : World :=
  {| committed := committed w; tx := tx w; script := script w; idp := idp w;
     clock := clock w + ms; trace := trace w |}.

(** Takes the next outcome off the script (an exhausted script means
    [Fast]) and records the statement. *)
Definition issue (s : Stmt) (w : World) : Outcome * World :=
  (hd Fast (script w),
   {| committed := committed w; tx := tx w; script := tl (script w); idp := idp w;
      clock := clock w; trace := trace w ++ [EvQuery s] |}).

Definition is_slow (o : Outcome) : bool :=
  match o with Slow => true | _ => false end.

(** [client.query(s)]: a statement on the handler's own connection.
    Outside a transaction a statement commits by itself; inside one it
    works on the transaction's copy; an error inside a transaction aborts
    it, and an aborted transaction refuses everything but COMMIT and
    ROLLBACK, both of which end it without effect.  A COMMIT that reports
    an error has committed nothing.  BEGIN, COMMIT and ROLLBACK are
    awaited without a race, so for them [Slow] is as good as [Fast]; how
    long they take is not counted by the clock. *)
Definition client_query (s : Stmt) : Promise QueryResult :=
  fun w0 =>
    let '(o, w) := issue s w0 in
    match s with
    | Begin =>
        match tx w, o with
        | Aborted, _ => (Rejected DatabaseError, w)
        | Idle, Fails => (Rejected DatabaseError, w)
        | InTxn _, Fails => (Rejected DatabaseError, set_tx Aborted w)
        | Idle, _ => (Resolved (affected 0) (is_slow o), set_tx (InTxn (committed w)) w)
        | InTxn _, _ => (Resolved (affected 0) (is_slow o), w)
        end
    | Commit =>
        match tx w, o with
        | _, Fails => (Rejected DatabaseError, set_tx Idle w)
        | InTxn work, _ => (Resolved (affected 0) (is_slow o), set_tx Idle (set_committed work w))
        | _, _ => (Resolved (affected 0) (is_slow o), set_tx Idle w)
        end
    | Rollback =>
        match o with
        | Fails => (Rejected DatabaseError, set_tx Idle w)
        | _ => (Resolved (affected 0) (is_slow o), set_tx Idle w)
        end
    | _ =>
        match tx w, o with
        | Aborted, _ => (Rejected DatabaseError, w)
        | Idle, Fails => (Rejected DatabaseError, w)
        | InTxn _, Fails => (Rejected DatabaseError, set_tx Aborted w)
        | Idle, _ =>
            let '(r, db) := run_stmt (clock w) s (committed w) in
            (Resolved r (is_slow o), set_committed db w)
        | InTxn work, _ =>
            let '(r, db) := run_stmt (clock w) s work in
            (Resolved r (is_slow o), set_tx (InTxn db) w)
        end
    end.

(** [pool.query(s)]: a statement on a connection of its own, committed by
    itself. *)
Definition pool_query (s : Stmt) : Promise QueryResult :=
  fun w0 =>
    let '(o, w) := issue s w0 in
    match o with
    | Fails => (Rejected DatabaseError, w)
    | _ =>
        let '(r, db) := run_stmt (clock w) s (committed w) in
        (Resolved r (is_slow o), set_committed db w)
    end.

(** [await p] *)
Definition await {A} (p : Promise A) : M A :=
  fun w => match p w with
           | (Resolved a _, w') => (Ret a, w')
           | (Rejected e, w') => (Throw e, w')
           end.

(** [await withTimeout(p, timeout)]: a promise that resolves late loses
    the race; what it did to the database stays done. *)
Definition withTimeout {A} (p : Promise A) (timeout : Z) : M A :=
  fun w => match p w with
           | (Resolved a false, w') => (Ret a, w')
           | (Resolved a true, w') => (Throw QueryTimedOut, advance timeout w')
           | (Rejected e, w') => (Throw e, w')
           end.

(** [executeWithRetry(fn, retries, delay)] *)
Fixpoint executeWithRetry {A} (fn : M A) (retries : nat) (delay : Z) : M A :=
  fun w => match fn w with
           | (Ret a, w') => (Ret a, w')
           | (Throw error, w') =>
               match retries with
               | S retries' => executeWithRetry fn retries' (delay * 2) (advance delay w')
               | O => (Throw error, w')
               end
           end.

(** A data statement as every handler issues it: 10-second race, three
    retries starting at one second. *)
Definition guarded (p : Promise QueryResult) : M QueryResult :=
  executeWithRetry (withTimeout p 10000) 3 1000.

(** [new Date()] *)
Definition new_Date : M Z := fun w => (Ret (clock w), w).

(* ===================================================================== *)
(** ** Responses *)
(* ===================================================================== *)

Inductive Payload : Type :=
| PError (error : string) (details : option Error)
| PMessage (message : string)
| PRevised (message : string) (custom_id : JsString)
| PAggregate (header : Row) (products : list Row) (salesRep : option Row)
| PExported (message : string) (quotation : option Row)
| PDriverError (message : string)
| PDriverFailure (error : Error)
| PDriver (message : string) (driver : option Row).

Record Response : Type := { code : Z; payload : Payload }.

Definition respond (c : Z) (p : Payload) : M Response :=
  ret {| code := c; payload := p |}.

Definition internal_error (e : Error) : M Response :=
  respond 500 (PError "Internal Server Error" (Some e)).

(* ===================================================================== *)
(** ** GET /quotations/:id  (lines 52-114) *)
(* ===================================================================== *)

Definition row_sales_rep_id (r : Row) : option Z :=
  match r with
  | RowJoined _ q _ _ => sales_rep_id q
  | _ => None
  end.

Definition getQuotation (id : Z) : M Response :=
  try_catch
    (let* quotationResult := guarded (pool_query (SelectQuotationJoined id)) in
     match rows quotationResult with
     | [] => respond 404 (PError "Quotation not found" None)
     | row0 :: _ =>
         let* productsResult := guarded (pool_query (SelectProducts id)) in
         let* salesRepResult := guarded (pool_query (SelectSalesRep (row_sales_rep_id row0))) in
         respond 200 (PAggregate row0 (rows productsResult) (head (rows salesRepResult)))
     end)
    internal_error.

(* ===================================================================== *)
(** ** PUT /quotations/:id  (lines 119-276) *)
(* ===================================================================== *)

Record RevisionBody : Type := {
  b_client_id : option Z;
  b_delivery_date : option JsString;
  b_delivery_type : option JsString;
  b_notes : option JsString;
  b_storekeeper_notes : option JsString;
  b_products : option (list Product);
  b_status : option JsString
}.

(** [x || null] on an optional string: the empty string is falsy. *)
Definition or_null (x : option JsString) : option JsString :=
  match x with
  | Some [] => None
  | _ => x
  end.

(** [status = 'not Delivered'] in the destructuring of the body. *)
Definition statusOf (body : RevisionBody) : JsString :=
  default (js "not Delivered") (b_status body).

Definition productRow (id : Z) (product : Product) : ProductRow :=
  let numericPrice := numeric (p_price product) in
  let numericQuantity := numeric (p_quantity product) in
  let '(_, vat, subtotal) := lineAmounts numericPrice numericQuantity in
  {| quotation_id := id;
     description := p_description product;
     quantity := p_quantity product;
     price := p_price product;
     vat := vat;
     subtotal := subtotal |}.

(** The [for (const product of products)] loop of inserts. *)
Fixpoint insertProducts (id : Z) (products : list Product) : M unit :=
  match products with
  | [] => ret tt
  | product :: rest =>
      let* _ := guarded (client_query (InsertProduct (productRow id product))) in
      insertProducts id rest
  end.

Definition updateParams (body : RevisionBody) (now : Z) (newId : JsString) : UpdateParams :=
  let status := statusOf body in
  let actualDeliveryDate := if jseqb status (js "delivered") then Some now else None in
  let '(totalPrice, totalVat, totalSubtotal) := revisionTotals (b_products body) in
  {| u_client_id := b_client_id body;
     u_delivery_date := b_delivery_date body;
     u_delivery_type := b_delivery_type body;
     u_notes := or_null (b_notes body);
     u_status := status;
     u_actualDeliveryDate := actualDeliveryDate;
     u_storekeeper_notes := or_null (b_storekeeper_notes body);
     u_totalPrice := totalPrice;
     u_totalVat := totalVat;
     u_totalSubtotal := totalSubtotal;
     u_newCustomId := newId |}.

(** The function handed to the outer [executeWithRetry] (lines 129-265). *)
Definition revisionWrite (id : Z) (body : RevisionBody) : M Response :=
  let* _ := await (client_query Begin) in
  let* quotationResult := guarded (client_query (SelectCustomId id)) in
  match rows quotationResult with
  | [] =>
      let* _ := await (client_query Rollback) in
      respond 404 (PError "Quotation not found" None)
  | RowCustomId currentCustomId :: _ =>
      let newId := newCustomId currentCustomId in
      let* now := new_Date in
      let* _ := guarded (client_query (UpdateQuotation (updateParams body now newId) id)) in
      let* _ :=
        match b_products body with
        | Some (p :: ps) =>
            let* _ := guarded (client_query (DeleteProducts id)) in
            insertProducts id (p :: ps)
        | _ => ret tt
        end in
      let* _ := await (client_query Commit) in
      respond 200 (PRevised "Quotation and products updated successfully" newId)
  | _ :: _ => throw TypeError
  end.

Definition putQuotation (id : Z) (body : RevisionBody) : M Response :=
  try_catch
    (executeWithRetry (revisionWrite id body) 3 1000)
    (fun error =>
       let* _ := await (client_query Rollback) in
       internal_error error).

(* ===================================================================== *)
(** ** PUT /quotations/:id/export  (lines 280-318) *)
(* ===================================================================== *)

Definition exportQuotation (id : Z) : M Response :=
  try_catch
    (let* result := guarded (client_query (MarkExported id)) in
     if (rowCount result =? 0)%nat then respond 404 (PError "Quotation not found" None)
     else respond 200 (PExported "Quotation marked as exported" (head (rows result))))
    internal_error.

(* ===================================================================== *)
(** ** DELETE /quotations/:id  (lines 326-356) *)
(* ===================================================================== *)

Definition deleteQuotation (id : Z) : M Response :=
  try_catch
    (let* _ := guarded (pool_query (DeleteProducts id)) in
     let* deleteOrderResult := guarded (pool_query (DeleteQuotation id)) in
     if (rowCount deleteOrderResult =? 0)%nat
     then respond 404 (PError "Quotations not found" None)
     else respond 200 (PMessage "Quotation and associated products deleted successfully"))
    internal_error.

(* ===================================================================== *)
(** ** POST /drivers  (driver+api.js, lines 151-235) *)
(* ===================================================================== *)

Record DriverRequest : Type := {
  r_name : option JsString;
  r_email : option JsString;
  r_phone : option JsString;
  r_clerkId : option JsString;
  r_role : option JsString
}.

(** [!x] on an optional string: absent and empty are falsy. *)
Definition missing (x : option JsString) : bool :=
  match x with
  | None | Some [] => true
  | Some (_ :: _) => false
  end.

Definition text (x : option JsString) : JsString := default [] x.

Definition validRoles : list JsString := [js "driver"; js "admin"; js "dispatcher"].

Definition includes (l : list JsString) (x : JsString) : bool := existsb (jseqb x) l.

Definition not_space_or_at (c : ascii) : bool :=
  negb (RegExp.is_space c || Ascii.eqb c "@").

(** [/^[^\s@]+@[^\s@]+\.[^\s@]+$/] *)
Definition emailRegex : RegExp.re :=
  RegExp.Seq (RegExp.Plus (RegExp.Chr not_space_or_at))
    (RegExp.Seq (RegExp.Chr (Ascii.eqb "@"))
       (RegExp.Seq (RegExp.Plus (RegExp.Chr not_space_or_at))
          (RegExp.Seq (RegExp.Chr (Ascii.eqb "."))
             (RegExp.Plus (RegExp.Chr not_space_or_at))))).

Definition phone_char (c : ascii) : bool :=
  RegExp.is_digit c || RegExp.is_space c || Ascii.eqb c "-".

(** [/^\+?[\d\s-]{8,}$/] *)
Definition phoneRegex : RegExp.re :=
  RegExp.Seq (RegExp.Opt (RegExp.Chr (Ascii.eqb "+")))
             (RegExp.AtLeast 8 (RegExp.Chr phone_char)).

(** [fetch('https://api.clerk.com/v1/users', ...)]: [Some id] is an ok
    response carrying the new user's id, [None] a response that is not ok. *)
Definition fetch_clerk (email name role : JsString) : Promise (option JsString) :=
  fun w =>
    let w' := {| committed := committed w; tx := tx w; script := script w;
                 idp := tl (idp w); clock := clock w;
                 trace := trace w ++ [EvIdentityProvider email name role] |} in
    match hd (Created (js "user_0")) (idp w) with
    | Created id => (Resolved (Some id) false, w')
    | Refused => (Resolved None false, w')
    | Unreachable => (Rejected NetworkError, w')
    | Stalled => (Resolved None true, w')
    end.

(** [createClerkUser]; the generated password only travels to the provider
    and is not represented. *)
Definition createClerkUser (email name role : JsString) : M JsString :=
  let* response := executeWithRetry (withTimeout (fetch_clerk email name role) 10000) 3 1000 in
  match response with
  | None => throw ClerkApiError
  | Some id => ret id
  end.

Definition invalidRequest (req : DriverRequest) : bool :=
  let role := default (js "driver") (r_role req) in
  missing (r_name req) || missing (r_email req) || missing (r_phone req)
  || negb (includes validRoles role)
  || negb (RegExp.test emailRegex (text (r_email req)))
  || negb (RegExp.test phoneRegex (text (r_phone req))).

Definition postDriver (req : DriverRequest) : M Response :=
  try_catch
    (let name := text (r_name req) in
     let email := text (r_email req) in
     let phone := text (r_phone req) in
     let role := default (js "driver") (r_role req) in
     if missing (r_name req) || missing (r_email req) || missing (r_phone req)
     then respond 400 (PDriverError "Missing required fields")
     else if negb (includes validRoles role)
     then respond 400 (PDriverError "Invalid role specified")
     else if negb (RegExp.test emailRegex email) || negb (RegExp.test phoneRegex phone)
     then respond 400 (PDriverError "Invalid email or phone number format")
     else
       let* checkResult := guarded (client_query (SelectDriverByEmail email)) in
       if (0 <? length (rows checkResult))%nat
       then respond 400 (PDriverError "Driver with this email already exists")
       else
         let* userId :=
           if missing (r_clerkId req) then createClerkUser email name role
           else ret (text (r_clerkId req)) in
         let* result := guarded (client_query (InsertDriver name email phone userId role)) in
         respond 200 (PDriver "Driver registered successfully" (head (rows result))))
    (fun error => respond 500 (PDriverFailure error)).

(* ===================================================================== *)
(** ** Vocabulary of the statements below *)
(* ===================================================================== *)

(** A non-empty string of decimal digits. *)
Definition digit_string (d : JsString) : Prop :=
  d <> [] /\ Forall (fun c => RegExp.is_digit c = true) d.

(** The string ends in [Rev<N>]. *)
Definition ends_in_Rev (s : JsString) : Prop :=
  exists p d, s = p ++ js "Rev" ++ d /\ digit_string d.



(** A line item whose price and quantity arrive as text. *)
Definition lineItem (price quantity : string) : Product :=
  {| p_section := None; p_type := None; p_quantity := JStr (js quantity);
     p_description := None; p_price := JStr (js price) |}.

(** [{P} m {Q | E}]: from a world in [P], [m] returns a value and a world
    in [Q], or throws in a world in [E]. *)
Definition triple {A} (P : World -> Prop) (m : M A)
    (Q : A -> World -> Prop) (E : World -> Prop) : Prop :=
  forall w, P w ->
    match m w with
    | (Ret a, w') => Q a w'
    | (Throw _, w') => E w'
    end.

Definition is_data (s : Stmt) : bool :=
  match s with
  | Begin | Commit | Rollback => false
  | _ => true
  end.

(** The header fields a revision leaves behind, relative to the row [q0]
    that was stored before, to the time [c0] at which the handler started
    and to the present time [c1].  The custom_id is stated apart. *)
Definition revised (body : RevisionBody) (c0 c1 : Z) (q0 q : Quotation) : Prop :=
  client_id q = b_client_id body
  /\ delivery_date q = b_delivery_date body
  /\ delivery_type q = b_delivery_type body
  /\ notes q = or_null (b_notes body)
  /\ status q = statusOf body
  /\ storekeeperaccept q = pending
  /\ supervisoraccept q = pending
  /\ manageraccept q = pending
  /\ c0 <= updated_at q <= c1
  /\ (if jseqb (statusOf body) (js "delivered")
      then exists t, c0 <= t <= c1 /\ actual_delivery_date q = Some t
      else actual_delivery_date q = actual_delivery_date q0)
  /\ storekeeper_notes q = or_null (b_storekeeper_notes body)
  /\ (total_price q, total_vat q, total_subtotal q) = revisionTotals (b_products body)
  /\ exported q = exported q0
  /\ sales_rep_id q = sales_rep_id q0
  /\ supervisor_id q = supervisor_id q0.

Definition other_quotation (id : Z) (r : ProductRow) : bool := negb (of_quotation id r).

(** The line items after a revision: replaced by the incoming ones when a
    non-empty list was sent, untouched otherwise.  A retried insert may
    store an item more than once, so the comparison is by membership. *)
Definition products_replaced (id : Z) (body : RevisionBody)
    (old new : list ProductRow) : Prop :=
  match b_products body with
  | Some (p :: ps) =>
      List.filter (other_quotation id) new = List.filter (other_quotation id) old
      /\ (forall r, In r (List.filter (of_quotation id) new)
                    <-> In r (map (productRow id) (p :: ps)))
  | _ => new = old
  end.

(** The committed database after a successful revision of [id] that
    started at time [c0] and ended at time [c1]. *)
Definition revision_committed (id : Z) (body : RevisionBody) (c0 c1 : Z)
    (db0 db' : Db) : Prop :=
  exists q0 q,
    quotations db0 !! id = Some q0
    /\ quotations db' = <[id := q]> (quotations db0)
    /\ revised body c0 c1 q0 q
    /\ (exists n, (1 <= n)%nat /\ custom_id q = Nat.iter n newCustomId (custom_id q0))
    /\ clients db' = clients db0
    /\ supervisors db' = supervisors db0
    /\ salesreps db' = salesreps db0
    /\ drivers db' = drivers db0
    /\ products_replaced id body (quotation_products db0) (quotation_products db').

(** *** Invariants of a revision write

    [db0] is the committed database when the handler starts, [c0] the
    clock at that time and [c1] the clock now.  While the transaction is
    open, its working copy differs from [db0] at most in the header row of
    [id] and in the line items of [id]. *)

Definition derived_from (c0 : JsString) (c : JsString) : Prop :=
  exists n : nat, c = Nat.iter n newCustomId c0.

(** The header row before this pass has rewritten it. *)
Definition hdr_base (body : RevisionBody) (c0 c1 : Z) (q0 q : Quotation) : Prop :=
  (q = q0 \/ revised body c0 c1 q0 q) /\ derived_from (custom_id q0) (custom_id q).

(** ... while the UPDATE deriving from [cur] is being attempted. *)
Definition hdr_updating (body : RevisionBody) (c0 c1 : Z) (cur : JsString)
    (q0 q : Quotation) : Prop :=
  (q = q0 \/ revised body c0 c1 q0 q)
  /\ derived_from (custom_id q0) cur
  /\ (custom_id q = cur \/ custom_id q = newCustomId cur).

(** ... once that UPDATE has been acknowledged. *)
Definition hdr_updated (body : RevisionBody) (c0 c1 : Z) (cur : JsString)
    (q0 q : Quotation) : Prop :=
  revised body c0 c1 q0 q
  /\ derived_from (custom_id q0) cur
  /\ custom_id q = newCustomId cur.

Definition items_any (rows : list ProductRow) : Prop := True.

(** Line items of [id] while the inserts run: only incoming items are
    stored, and those of [done] are all there. *)
Definition items_loop (id : Z) (all done : list Product) (rows : list ProductRow) : Prop :=
  incl rows (map (productRow id) all) /\ incl (map (productRow id) done) rows.

Definition items_clause (id : Z) (body : RevisionBody) (db0 : Db)
    (G : list ProductRow -> Prop) (work : Db) : Prop :=
  match b_products body with
  | Some (_ :: _) =>
      List.filter (other_quotation id) (quotation_products work)
      = List.filter (other_quotation id) (quotation_products db0)
      /\ G (List.filter (of_quotation id) (quotation_products work))
  | _ => quotation_products work = quotation_products db0
  end.

Definition same_side_tables (db0 work : Db) : Prop :=
  clients work = clients db0
  /\ supervisors work = supervisors db0
  /\ salesreps work = salesreps db0
  /\ drivers work = drivers db0.

(** Working copy between passes. *)
Definition work_base (id : Z) (body : RevisionBody) (db0 : Db) (c0 c1 : Z)
    (work : Db) : Prop :=
  same_side_tables db0 work
  /\ match quotations db0 !! id with
     | Some q0 => exists q, quotations work = <[id := q]> (quotations db0)
                            /\ hdr_base body c0 c1 q0 q
     | None => quotations work = quotations db0
     end
  /\ items_clause id body db0 items_any work.

(** Working copy once the header row is known to exist. *)
Definition work_found (id : Z) (body : RevisionBody) (db0 : Db)
    (H : Quotation -> Quotation -> Prop) (G : list ProductRow -> Prop) (work : Db) : Prop :=
  same_side_tables db0 work
  /\ (exists q0 q, quotations db0 !! id = Some q0
                   /\ quotations work = <[id := q]> (quotations db0)
                   /\ H q0 q)
  /\ items_clause id body db0 G work.

(** A property of the working copy that may mention the present time
    stays true while time passes. *)
Definition lasting (J : Z -> Db -> Prop) : Prop :=
  forall c c' work, c <= c' -> J c work -> J c' work.

(** Between passes: nothing is committed, and an open transaction holds a
    working copy in [J]. *)
Definition pass_inv (J : Z -> Db -> Prop) (db0 : Db) (c0 : Z) (w : World) : Prop :=
  committed w = db0 /\ c0 <= clock w
  /\ match tx w with
     | InTxn work => J (clock w) work
     | _ => True
     end.

(** Inside a pass, after BEGIN: the transaction is open or aborted. *)
Definition in_tx_inv (J : Z -> Db -> Prop) (db0 : Db) (c0 : Z) (w : World) : Prop :=
  committed w = db0 /\ c0 <= clock w
  /\ match tx w with
     | Idle => False
     | Aborted => True
     | InTxn work => J (clock w) work
     end.

(** Right after an acknowledged statement: the transaction is open. *)
Definition in_tx_now (J : Z -> Db -> Prop) (db0 : Db) (c0 : Z) (w : World) : Prop :=
  committed w = db0 /\ c0 <= clock w
  /\ exists work, tx w = InTxn work /\ J (clock w) work.

(** After the acknowledged statement [s]: the working copy is the result
    of [s], run just now, on a copy in [J], and [r] is what [s] returned
    there. *)
Definition acknowledged (s : Stmt) (J : Z -> Db -> Prop) (db0 : Db) (c0 : Z)
    (r : QueryResult) (w : World) : Prop :=
  committed w = db0 /\ c0 <= clock w
  /\ exists work, J (clock w) work
       /\ tx w = InTxn (run_stmt (clock w) s work).2
       /\ r = (run_stmt (clock w) s work).1.

(* ===================================================================== *)
(** ** Sample data for the worked examples *)
(* ===================================================================== *)

Definition sample_quotation : Quotation :=
  {| custom_id := js "Q-7 Rev1";
     client_id := Some 1;
     delivery_date := Some (js "2025-01-31");
     delivery_type := Some (js "pickup");
     notes := None;
     status := js "not Delivered";
     storekeeperaccept := js "accepted";
     supervisoraccept := js "accepted";
     manageraccept := js "rejected";
     updated_at := 400;
     actual_delivery_date := Some 300;
     storekeeper_notes := None;
     total_price := 100;
     total_vat := 15;
     total_subtotal := 115;
     exported := false;
     sales_rep_id := Some 3;
     supervisor_id := None |}.

Definition sample_item : ProductRow :=
  {| quotation_id := 7; description := Some (js "pump"); quantity := JNum 1;
     price := JNum 100; vat := 15; subtotal := 115 |}.

Definition sample_client : Client :=
  {| company_name := js "Acme"; client_name := js "Sam"; phone_number := js "0500000000";
     tax_number := js "3000"; branch_number := js "1"; latitude := js "24.7";
     longitude := js "46.6"; street := js "King Rd"; city := js "Riyadh";
     region := js "Riyadh" |}.

Definition sample_rep : SalesRep :=
  {| rep_name := js "Rana"; rep_email := js "rana@example.com"; rep_phone := js "0511111111" |}.

Definition sample_driver : Driver :=
  {| driver_id := 1; driver_name := js "Omar"; driver_email := js "omar@example.com";
     driver_phone := js "0522222222"; clerk_id := js "user_9"; driver_role := js "driver";
     created_at := 100 |}.

Definition sample_db : Db :=
  {| quotations := {[ 7 := sample_quotation ]};
     quotation_products := [sample_item];
     clients := {[ 1 := sample_client ]};
     supervisors := ∅;
     salesreps := {[ 3 := sample_rep ]};
     drivers := [sample_driver] |}.

(** An idle connection on [sample_db]; [outcomes] scripts the statements. *)
Definition sample_world (outcomes : list Outcome) : World :=
  {| committed := sample_db; tx := Idle; script := outcomes; idp := [];
     clock := 1000; trace := [] |}.

Definition sample_body (products : option (list Product)) (st : option JsString)
  : RevisionBody :=
  {| b_client_id := Some 1; b_delivery_date := Some (js "2025-02-15");
     b_delivery_type := Some (js "delivery"); b_notes := Some (js "revised");
     b_storekeeper_notes := None; b_products := products; b_status := st |}.

(** The statement behind a trace entry, by name. *)
Definition event_name (e : Event) : string :=
  match e with
  | EvQuery Begin => "BEGIN"
  | EvQuery Commit => "COMMIT"
  | EvQuery Rollback => "ROLLBACK"
  | EvQuery (SelectQuotationJoined _) => "SELECT header"
  | EvQuery (SelectProducts _) => "SELECT products"
  | EvQuery (SelectSalesRep _) => "SELECT salesrep"
  | EvQuery (SelectCustomId _) => "SELECT custom_id"
  | EvQuery (UpdateQuotation _ _) => "UPDATE header"
  | EvQuery (DeleteProducts _) => "DELETE products"
  | EvQuery (InsertProduct _) => "INSERT product"
  | EvQuery (MarkExported _) => "UPDATE exported"
  | EvQuery (DeleteQuotation _) => "DELETE header"
  | EvQuery (SelectDriverByEmail _) => "SELECT driver"
  | EvQuery (InsertDriver _ _ _ _ _) => "INSERT driver"
  | EvIdentityProvider _ _ _ => "POST identity provider"
  end.

(** *** Statements that commit by themselves *)

Definition answered_in_time (o : Outcome) : bool :=
  match o with Fast => true | _ => false end.

(** None of the next [n] statements is answered in time. *)
Fixpoint all_unanswered (n : nat) (outcomes : list Outcome) : bool :=
  match n with
  | O => true
  | S n' => negb (answered_in_time (hd Fast outcomes)) && all_unanswered n' (tl outcomes)
  end.

(** The gateway gives up on a statement: the first attempt and the three
    retries all fail or time out. *)
Definition gives_up (outcomes : list Outcome) : bool := all_unanswered 4 outcomes.

(** Invariant of a handler that works without a transaction: [J] holds of
    the committed database and [T] of the trace. *)
Definition auto_inv (J : Db -> Prop) (T : list Event -> Prop) (c0 : Z) (w : World) : Prop :=
  c0 <= clock w /\ J (committed w) /\ T (trace w).

(** After the answered statement [s]. *)
Definition answered (s : Stmt) (J : Db -> Prop) (T : list Event -> Prop) (c0 : Z)
    (r : QueryResult) (w : World) : Prop :=
  c0 <= clock w /\ T (trace w)
  /\ exists db t, c0 <= t /\ J db
       /\ committed w = (run_stmt t s db).2 /\ r = (run_stmt t s db).1.

(** The trace is [tr0] followed by attempts of the statement [s] only. *)
Definition only_attempts (tr0 : list Event) (s : Stmt) (tr : list Event) : Prop :=
  exists k : nat, tr = tr0 ++ repeat (EvQuery s) k.

(** The committed database after [id] was marked exported at some time
    not before [c0]: the row [q] with the flag set and updated_at renewed,
    everything else as in [db0]. *)
Definition marked_exported (id : Z) (q : Quotation) (c0 : Z) (db0 db : Db) : Prop :=
  exists t, c0 <= t
    /\ db = set_quotations (<[id := exported_row t q]> (quotations db0)) db0.

(** The committed database after quotation [id] was deleted from [db0]:
    header row gone, line items of [id] gone, nothing else touched. *)
Definition deleted_from (id : Z) (db0 db : Db) : Prop :=
  quotations db = delete id (quotations db0)
  /\ quotation_products db = List.filter (other_quotation id) (quotation_products db0)
  /\ same_side_tables db0 db.

(** What the deleter issues: at least one attempt of the line-item delete,
    then the attempts (if any) of the header delete, and nothing else. *)
Definition delete_trace (tr0 : list Event) (id : Z) (tr : list Event) : Prop :=
  exists k m : nat,
    tr = tr0 ++ repeat (EvQuery (DeleteProducts id)) (S k)
             ++ repeat (EvQuery (DeleteQuotation id)) m.

(** *** How a script of outcomes decides what the gateway answers *)

(** The script that is left once the gateway has an answer for a
    statement: the first of at most [n] attempts that is answered in time
    ends the retrying; [None] when none of them is. *)
Fixpoint answered_within (n : nat) (outcomes : list Outcome) : option (list Outcome) :=
  match n with
  | O => None
  | S n' =>
      if answered_in_time (hd Fast outcomes) then Some (tl outcomes)
      else answered_within n' (tl outcomes)
  end.

(** [k] statements in a row, each of them under the gateway, are all
    answered. *)
Fixpoint statements_answered (k : nat) (outcomes : list Outcome) : bool :=
  match k with
  | O => true
  | S k' =>
      match answered_within 4 outcomes with
      | Some rest => statements_answered k' rest
      | None => false
      end
  end.

(** Before the attempt that is answered in time, an attempt completed too
    late: it took effect in the database, but its result was dropped. *)
Fixpoint late_before_answer (n : nat) (outcomes : list Outcome) : bool :=
  match n with
  | O => false
  | S n' =>
      match hd Fast outcomes with
      | Fast => false
      | Slow => true
      | Fails => late_before_answer n' (tl outcomes)
      end
  end.

(** *** Reading the trace of a revision write *)

(** After the events [tr]: is a rewritten header waiting to be committed?
    An UPDATE of the header sets the mark, a COMMIT clears it. *)
Fixpoint unsettled_after (mark : bool) (tr : list Event) : bool :=
  match tr with
  | [] => mark
  | EvQuery (UpdateQuotation _ _) :: tr' => unsettled_after true tr'
  | EvQuery Commit :: tr' => unsettled_after false tr'
  | _ :: tr' => unsettled_after mark tr'
  end.

(** Somewhere in [tr] the custom_id is read while a rewritten header is
    waiting to be committed. *)
Fixpoint rereads (mark : bool) (tr : list Event) : bool :=
  match tr with
  | [] => false
  | EvQuery (UpdateQuotation _ _) :: tr' => rereads true tr'
  | EvQuery Commit :: tr' => rereads false tr'
  | EvQuery (SelectCustomId _) :: tr' => mark || rereads mark tr'
  | _ :: tr' => rereads mark tr'
  end.

(** The statements of a pass other than BEGIN, COMMIT and ROLLBACK. *)
Definition pass_statement (id : Z) (s : Stmt) : Prop :=
  match s with
  | SelectCustomId i | DeleteProducts i => i = id
  | UpdateQuotation _ i => i = id
  | InsertProduct _ => True
  | _ => False
  end.

(** Between the passes of a revision write of [id] that started with the
    header row [q0] and the trace [tr0]: the committed header row is still
    [q0], and so is the one of an open transaction, unless a rewritten
    header is waiting to be committed or the custom_id has been read at
    such a time. *)
Definition clean_from (id : Z) (q0 : Quotation) (tr0 : list Event) (w : World) : Prop :=
  quotations (committed w) !! id = Some q0
  /\ exists added,
       trace w = tr0 ++ added
       /\ (rereads false added = false -> unsettled_after false added = false ->
           forall work, tx w = InTxn work -> quotations work !! id = Some q0).

(** Inside a pass. *)
Definition inside_from (id : Z) (q0 : Quotation) (tr0 : list Event) (w : World) : Prop :=
  tx w <> Idle /\ clean_from id q0 tr0 w.

(** The custom_id [cur] that this pass has read is the stored one, unless
    the custom_id has been read while a rewritten header was waiting. *)
Definition read_first_from (q0 : Quotation) (tr0 : list Event) (cur : JsString)
    (w : World) : Prop :=
  exists added,
    trace w = tr0 ++ added /\ (rereads false added = false -> cur = custom_id q0).

(** What a handler added to the trace. *)
Definition issued (w w' : World) : list Event := drop (length (trace w)) (trace w').

(** *** Requests that the driver registration turns away *)

Definition absent (x : option JsString) : Prop := x = None \/ x = Some [].

(** a@b.c with a, b and c non-empty and free of white space and "@". *)
Definition address_shaped (s : JsString) : Prop :=
  exists a b c,
    s = a ++ js "@" ++ b ++ js "." ++ c
    /\ a <> [] /\ b <> [] /\ c <> []
    /\ Forall (fun ch => RegExp.is_space ch = false /\ ch <> "@"%char) (a ++ b ++ c).

(** An optional "+", then eight or more characters, each a digit, white
    space or a hyphen. *)
Definition phone_shaped (s : JsString) : Prop :=
  exists digits,
    (s = digits \/ s = js "+" ++ digits)
    /\ (8 <= length digits)%nat
    /\ Forall (fun ch => RegExp.is_digit ch = true \/ RegExp.is_space ch = true
                         \/ ch = "-"%char) digits.

Definition violates_validation (req : DriverRequest) : Prop :=
  absent (r_name req) \/ absent (r_email req) \/ absent (r_phone req)
  \/ ~ In (default (js "driver") (r_role req)) [js "driver"; js "admin"; js "dispatcher"]
  \/ ~ address_shaped (text (r_email req))
  \/ ~ phone_shaped (text (r_phone req)).

(** *** Comparing Numbers *)

(** Equal as Numbers: the same value, +0 and -0 counting as the same and
    NaN as equal to itself. *)
Definition same_number (x y : float) : Prop :=
  x = y \/ (is_zero x = true /\ is_zero y = true).

Definition same_totals (a b : float * float * float) : Prop :=
  same_number a.1.1 b.1.1 /\ same_number a.1.2 b.1.2 /\ same_number a.2 b.2.

(** The integer a binary64 holds (0 when it holds none). *)
Definition integer_of_float (f : float) : Z :=
  match Prim2SF f with
  | S754_finite false m e => if 0 <=? e then Z.pos m * 2 ^ e else Z.pos m / 2 ^ (- e)
  | _ => 0
  end.

(* ===================================================================== *)
(** ** Vocabulary of the further properties *)
(* ===================================================================== *)

(** The two answers of the revision writer that are not the internal
    error (lines 149 and 261-264). *)
Definition not_found : Response :=
  {| code := 404; payload := PError "Quotation not found" None |}.

Definition revised_as (c : JsString) : Response :=
  {| code := 200;
     payload := PRevised "Quotation and products updated successfully" c |}.

(** What the revision writer issues as long as it has not found the
    header row: BEGIN, the read of the custom_id, ROLLBACK. *)
Definition probe_only (id : Z) (tr : list Event) : Prop :=
  Forall (fun e => e = EvQuery Begin \/ e = EvQuery (SelectCustomId id)
                   \/ e = EvQuery Rollback) tr.

(** [m] never sets the clock back and adds at most [t] milliseconds to
    it.  The clock counts the waits of the gateway only: 10 seconds for
    an attempt that loses its race, and the pauses between attempts. *)
Definition lasts {A} (m : M A) (t : Z) : Prop :=
  forall w, clock w <= clock (m w).2 <= clock w + t.

(** The record that the driver registration stores for a request, given
    the identity [uid] (lines 209-217). *)
Definition registered_as (req : DriverRequest) (uid : JsString) (d : Driver) : Prop :=
  driver_name d = text (r_name req)
  /\ driver_email d = text (r_email req)
  /\ driver_phone d = text (r_phone req)
  /\ clerk_id d = uid
  /\ driver_role d = default (js "driver") (r_role req).

(** The reply of the identity provider to its call number [k], counted
    from 0; a list of replies that has run out means a created user. *)
Definition provider_reply (replies : list IdpReply) (k : nat) : IdpReply :=
  nth k replies (Created (js "user_0")).

(** A reply after which [fetch] is tried again: the network failed, or
    the reply lost the 10-second race. *)
Definition transient (r : IdpReply) : Prop := r = Unreachable \/ r = Stalled.

Definition is_statement (e : Event) : Prop := exists s, e = EvQuery s.

(* ===================================================================== *)
(** ** Temporary passwords (driver+api.js, lines 41-63) *)
(* ===================================================================== *)

Definition lowercase : JsString := js "abcdefghijklmnopqrstuvwxyz".
Definition uppercase : JsString := js "ABCDEFGHIJKLMNOPQRSTUVWXYZ".
Definition numbers : JsString := js "0123456789".
Definition special : JsString := js "!@#$%^&*".

(** [alphabet[i]]: [undefined] beyond the end of the string. *)
Definition pick (alphabet : JsString) (i : nat) : option ascii := nth_error alphabet i.

(** [chars.join('')]: an [undefined] element contributes nothing. *)
Fixpoint join (chars : list (option ascii)) : JsString :=
  match chars with
  | [] => []
  | Some c :: rest => c :: join rest
  | None :: rest => join rest
  end.

(** [generateStrongPassword()].  The two sources of chance are arguments:
    [index k] is the value of the k-th [Math.floor(Math.random() * n)] in
    evaluation order, and [shuffle] is what [sort(() => Math.random() -
    0.5)] does to the array. *)
Definition generateStrongPassword (index : nat -> nat)
    (shuffle : list (option ascii) -> list (option ascii)) : JsString :=
  let requiredChars :=
    [pick lowercase (index 0%nat); pick uppercase (index 1%nat);
     pick numbers (index 2%nat); pick special (index 3%nat)] in
  let remainingLength := (8 - length requiredChars)%nat in
  let allChars := lowercase ++ uppercase ++ numbers ++ special in
  let remainingChars :=
    map (fun k => pick allChars (index (4 + k)%nat)) (seq 0 remainingLength) in
  join (shuffle (requiredChars ++ remainingChars)).

(** The bound [n] of the k-th draw [Math.floor(Math.random() * n)]. *)
Definition draw_bound (k : nat) : nat :=
  match k with
  | 0 => length lowercase
  | 1 => length uppercase
  | 2 => length numbers
  | 3 => length special
  | _ => length (lowercase ++ uppercase ++ numbers ++ special)
  end%nat.

(* ===================================================================== *)
(** ** GET /drivers: the paging arithmetic (driver+api.js, lines 241-245
       and 267-275) *)
(* ===================================================================== *)

(** [x || d] on an optional query parameter: absent and empty are falsy. *)
Definition or_default (x : option JsString) (d : JsString) : JsString :=
  match x with
  | Some (c :: s) => c :: s
  | _ => d
  end.

(** [parseInt(s, 10)] on any text: leading white space is skipped, a sign
    is read, then the longest run of decimal digits; no digit means NaN. *)
Definition parseInt10 (s : JsString) : float :=
  let t := ParseFloat.trim_start s in
  let '(neg, u) :=
    match t with
    | c :: r => if Ascii.eqb c "-" then (true, r)
                else if Ascii.eqb c "+" then (false, r) else (false, t)
    | [] => (false, [])
    end in
  match (ParseFloat.span_digits u).1 with
  | [] => nan
  | ds => ParseFloat.of_decimal neg (JsNumber.digits_value ds) 0
  end.

Definition is_neg_zero (x : float) : bool := is_zero x && get_sign x.
Definition is_pos_zero (x : float) : bool := is_zero x && negb (get_sign x).

(** [Math.min(...values)]: NaN if any value is NaN, -0 below +0. *)
Fixpoint min_from (lowest : float) (values : list float) : float :=
  match values with
  | [] => lowest
  | number :: rest =>
      if is_nan number then nan
      else if is_neg_zero number && is_pos_zero lowest then min_from number rest
      else if (number <? lowest)%float then min_from number rest
      else min_from lowest rest
  end.

Definition Math_min (values : list float) : float := min_from infinity values.

(** [Math.max(...values)] *)
Fixpoint max_from (highest : float) (values : list float) : float :=
  match values with
  | [] => highest
  | number :: rest =>
      if is_nan number then nan
      else if is_pos_zero number && is_neg_zero highest then max_from number rest
      else if (highest <? number)%float then max_from number rest
      else max_from highest rest
  end.

Definition Math_max (values : list float) : float := max_from neg_infinity values.

(** The Number of an integer (an array length). *)
Definition float_of_Z (z : Z) : float := SF2Prim (binary_normalize prec emax z 0 false).

(** [Math.ceil(x)]: NaN, the infinities, the zeros and the integers map
    to themselves; a value strictly between -1 and 0 maps to -0. *)
Definition Math_ceil (x : float) : float :=
  match Prim2SF x with
  | S754_finite s m e =>
      if 0 <=? e then x
      else
        let d := 2 ^ (- e) in
        let q := Z.pos m / d in
        if Z.pos m mod d =? 0 then x
        else if s then (if q =? 0 then neg_zero else float_of_Z (- q))
        else float_of_Z (q + 1)
  | _ => x
  end.

(** [limit], [page] and [offset] as the handler derives them from the
    query parameters [limit] and [page]. *)
Definition driversLimit (limit : option JsString) : float :=
  Math_min [parseInt10 (or_default limit (js "10")); 50%float].

Definition driversPage (page : option JsString) : float :=
  Math_max [parseInt10 (or_default page (js "1")); 1%float].

Definition driversOffset (limit page : option JsString) : float :=
  ((driversPage page - 1) * driversLimit limit)%float.

(** The paging fields of the 200 answer, for the rows the query returned. *)
Record Paging : Type := { totalCount : float; currentPage : float; totalPages : float }.

Definition driversPaging (limit page : option JsString) (rows : list Driver) : Paging :=
  let totalCount := float_of_Z (Z.of_nat (length rows)) in
  {| totalCount := totalCount;
     currentPage := driversPage page;
     totalPages := Math_ceil (totalCount / driversLimit limit)%float |}.

(* ===================================================================== *)
(** * Proofs *)
(* ===================================================================== *)

(* ===================================================================== *)
(** * Proofs *)
(* ===================================================================== *)

(** ** Regular expressions: [test] decides [accepts] *)

Module RegExpFacts.
Import RegExp.

Lemma accepts_void s : accepts Void s <-> False.
Proof. split; [inversion 1|done]. Qed.

Lemma accepts_eps s : accepts Eps s <-> s = [].
Proof. split; [by inversion 1|intros ->; constructor]. Qed.

Lemma accepts_chr p s : accepts (Chr p) s <-> exists c, s = [c] /\ p c = true.
Proof.
  split.
  - inversion 1; subst; eauto.
  - intros (c & -> & Hc). by constructor.
Qed.

Lemma accepts_seq a b s :
  accepts (Seq a b) s <-> exists s1 s2, s = s1 ++ s2 /\ accepts a s1 /\ accepts b s2.
Proof.
  split.
  - inversion 1; subst; eauto.
  - intros (s1 & s2 & -> & H1 & H2). by constructor.
Qed.

Lemma accepts_alt a b s : accepts (Alt a b) s <-> accepts a s \/ accepts b s.
Proof.
  split.
  - inversion 1; subst; eauto.
  - intros [Ha|Hb]; [by apply acc_alt_l|by apply acc_alt_r].
Qed.

Lemma accepts_star_cons a c s :
  accepts (Star a) (c :: s) <->
  exists s1 s2, s = s1 ++ s2 /\ accepts a (c :: s1) /\ accepts (Star a) s2.
Proof.
  split.
  - inversion 1; subst; eauto.
  - intros (s1 & s2 & -> & H1 & H2). by constructor.
Qed.

Lemma nullable_accepts r : nullable r = true <-> accepts r [].
Proof.
  induction r as [| |p|a IHa b IHb|a IHa b IHb|a IHa]; simpl.
  - rewrite accepts_void. split; [done|tauto].
  - rewrite accepts_eps. done.
  - rewrite accepts_chr. split; [done|]. intros (c & Hc & _). discriminate.
  - rewrite andb_true_iff, IHa, IHb, accepts_seq. split.
    + intros [Ha Hb]. exists [], []. done.
    + intros (s1 & s2 & Heq & H1 & H2). symmetry in Heq.
      apply app_eq_nil in Heq as [-> ->]. done.
  - rewrite orb_true_iff, IHa, IHb, accepts_alt. done.
  - split; [constructor|done].
Qed.

Lemma deriv_accepts c r : forall s, accepts (deriv c r) s <-> accepts r (c :: s).
Proof.
  induction r as [| |p|a IHa b IHb|a IHa b IHb|a IHa]; intros s; simpl.
  - rewrite !accepts_void. done.
  - rewrite accepts_void, accepts_eps. done.
  - rewrite accepts_chr. destruct (p c) eqn:Hp.
    + rewrite accepts_eps. split.
      * intros ->. eauto.
      * intros (c' & [= -> ->] & _). done.
    + rewrite accepts_void. split; [done|].
      intros (c' & [= -> ->] & Hc). congruence.
  - assert (Hseq : accepts (Seq (deriv c a) b) s <->
                   exists s1 s2, s = s1 ++ s2 /\ accepts a (c :: s1) /\ accepts b s2).
    { rewrite accepts_seq. split; intros (s1 & s2 & -> & H1 & H2);
        exists s1, s2; (split; [done|]); (split; [by apply IHa|done]). }
    rewrite (accepts_seq a b (c :: s)).
    destruct (nullable a) eqn:Hn.
    + rewrite accepts_alt, Hseq, IHb. split.
      * intros [(s1 & s2 & -> & H1 & H2)|Hb].
        -- exists (c :: s1), s2. done.
        -- apply nullable_accepts in Hn. exists [], (c :: s). done.
      * intros (s1 & s2 & Heq & H1 & H2). destruct s1 as [|c1 s1]; simpl in Heq.
        -- subst s2. by right.
        -- injection Heq as <- ->. left. eauto.
    + rewrite Hseq. split.
      * intros (s1 & s2 & -> & H1 & H2). exists (c :: s1), s2. done.
      * intros (s1 & s2 & Heq & H1 & H2). destruct s1 as [|c1 s1]; simpl in Heq.
        -- apply nullable_accepts in H1. congruence.
        -- injection Heq as <- ->. eauto.
  - rewrite !accepts_alt, IHa, IHb. done.
  - rewrite accepts_seq, accepts_star_cons. split;
      intros (s1 & s2 & -> & H1 & H2); exists s1, s2;
      (split; [done|]); (split; [by apply IHa|done]).
Qed.

Lemma test_accepts r s : test r s = true <-> accepts r s.
Proof.
  revert r. induction s as [|c s IH]; intros r; simpl.
  - apply nullable_accepts.
  - rewrite IH. apply deriv_accepts.
Qed.

Lemma accepts_star_chr p s :
  accepts (Star (Chr p)) s <-> Forall (fun c => p c = true) s.
Proof.
  induction s as [|c s IH].
  - split; constructor.
  - rewrite accepts_star_cons. split.
    + intros (s1 & s2 & -> & H1 & H2). apply accepts_chr in H1 as (c' & Heq & Hc).
      injection Heq as ? ?; subst. constructor; [done|]. by apply IH.
    + intros Hall. inversion Hall; subst. exists [], s.
      split; [done|]. split; [|by apply IH]. apply accepts_chr. eauto.
Qed.

Lemma accepts_plus_chr p s :
  accepts (Plus (Chr p)) s <-> s <> [] /\ Forall (fun c => p c = true) s.
Proof.
  unfold Plus. rewrite accepts_seq. split.
  - intros (s1 & s2 & -> & H1 & H2). apply accepts_chr in H1 as (c & -> & Hc).
    apply accepts_star_chr in H2. split; [done|]. by constructor.
  - intros [Hne Hall]. destruct s as [|c s]; [done|].
    inversion Hall; subst. exists [c], s. split; [done|].
    split; [apply accepts_chr; eauto|by apply accepts_star_chr].
Qed.

Lemma accepts_lit l s : accepts (Lit l) s <-> s = l.
Proof.
  revert s. induction l as [|c l IH]; intros s; simpl.
  - apply accepts_eps.
  - rewrite accepts_seq. split.
    + intros (s1 & s2 & -> & H1 & H2). apply accepts_chr in H1 as (c' & -> & Hc).
      apply Ascii.eqb_eq in Hc as <-. apply IH in H2 as ->. done.
    + intros ->. exists [c], l. split; [done|].
      split; [|by apply IH]. apply accepts_chr. exists c. by rewrite Ascii.eqb_refl.
Qed.

(** What [search_to_end] returns is a split of the input whose second part
    matches, and no earlier split does. *)
Lemma search_to_end_unfold r acc s :
  search_to_end r acc s =
  if test r s then Some (rev acc, s)
  else match s with
       | [] => None
       | c :: s' => search_to_end r (c :: acc) s'
       end.
Proof. by destruct s. Qed.

Lemma search_to_end_Some r acc s b m :
  search_to_end r acc s = Some (b, m) ->
  exists pre, s = pre ++ m /\ b = rev acc ++ pre /\ test r m = true.
Proof.
  revert acc. induction s as [|c s IH]; intros acc; rewrite search_to_end_unfold.
  - destruct (test r []) eqn:Ht; [|done].
    intros [= <- <-]. exists []. split_and!; [done|by rewrite app_nil_r|done].
  - destruct (test r (c :: s)) eqn:Ht.
    + intros [= <- <-]. exists []. split_and!; [done|by rewrite app_nil_r|done].
    + intros Hs. apply IH in Hs as (pre & -> & -> & Hm).
      exists (c :: pre). split_and!; [done| |done]. simpl. by rewrite <- app_assoc.
Qed.

Lemma search_to_end_leftmost r acc pre m :
  test r m = true ->
  (forall p1 p2, pre = p1 ++ p2 -> p2 <> [] -> test r (p2 ++ m) = false) ->
  search_to_end r acc (pre ++ m) = Some (rev acc ++ pre, m).
Proof.
  revert acc. induction pre as [|c pre IH]; intros acc Hm Hleft.
  - rewrite search_to_end_unfold. simpl. by rewrite Hm, app_nil_r.
  - rewrite search_to_end_unfold. rewrite (Hleft [] (c :: pre)); [|done|done].
    simpl. rewrite IH; [|done|].
    + simpl. by rewrite <- app_assoc.
    + intros p1 p2 -> Hne. by apply (Hleft (c :: p1) p2).
Qed.

Lemma search_to_end_None r acc s :
  (forall p1 p2, s = p1 ++ p2 -> test r p2 = false) ->
  search_to_end r acc s = None.
Proof.
  revert acc. induction s as [|c s IH]; intros acc Hno; rewrite search_to_end_unfold.
  - by rewrite (Hno [] []).
  - rewrite (Hno [] (c :: s)); [|done]. apply IH.
    intros p1 p2 ->. by apply (Hno (c :: p1) p2).
Qed.

End RegExpFacts.

(** ** Integer-valued Numbers below 2^53 are exact *)

Module JsNumberFacts.
Import JsNumber.

Lemma round_binary64_exact z : 0 <= z <= 2 ^ 53 -> round_binary64 z = z.
Proof.
  intros Hz. destruct (Z.eq_dec z (2 ^ 53)) as [->|Hne]; [by vm_compute|].
  unfold round_binary64.
  assert (Z.log2 z < 53) as Hlog.
  { destruct (Z.eq_dec z 0) as [->|Hz0]; [by vm_compute|].
    apply Z.log2_lt_pow2; lia. }
  destruct (Z.leb_spec (Z.log2 z - 52) 0); [done|lia].
Qed.

Lemma round_binary64_above z :
  2 ^ 53 < z ->
  2 ^ 53 <= round_binary64 z /\ (round_binary64 z = 2 ^ 53 -> z = 2 ^ 53 + 1).
Proof.
  intros Hz.
  assert (0 < z) as Hpos by (change (2 ^ 53) with 9007199254740992 in Hz; lia).
  assert (53 <= Z.log2 z) as Hlog by (apply Z.log2_le_pow2; lia).
  pose proof (Z.log2_spec z Hpos) as [Hlo Hhi].
  unfold round_binary64. set (e := Z.log2 z - 52).
  assert (1 <= e) as He by (unfold e; lia).
  destruct (Z.leb_spec e 0) as [?|_]; [lia|].
  set (P := 2 ^ e).
  assert (2 <= P) as HP.
  { unfold P. change 2 with (2 ^ 1) at 1. apply Z.pow_le_mono_r; lia. }
  assert (2 ^ Z.log2 z = 2 ^ 52 * P) as HL.
  { unfold P. rewrite <- Z.pow_add_r by lia. f_equal. unfold e. lia. }
  assert (2 ^ Z.succ (Z.log2 z) = 2 ^ 53 * P) as HL'.
  { unfold P. rewrite <- Z.pow_add_r by lia. f_equal. unfold e. lia. }
  rewrite HL in Hlo. rewrite HL' in Hhi.
  pose proof (Z.div_mod z P ltac:(lia)) as Hdm.
  pose proof (Z.mod_pos_bound z P ltac:(lia)) as Hr.
  set (q := z / P) in *. set (r := z mod P) in *.
  change (2 ^ 52) with 4503599627370496 in *.
  change (2 ^ 53) with 9007199254740992 in *.
  assert (4503599627370496 <= q < 9007199254740992) as Hq by nia.
  set (q' := if r <? 2 ^ (e - 1) then q
             else if 2 ^ (e - 1) <? r then q + 1
                  else if Z.even q then q else q + 1).
  assert (q <= q' <= q + 1) as Hq'.
  { unfold q'. repeat case_match; lia. }
  split; [nia|].
  intros Heq.
  assert (P = 2) as HP2 by nia.
  assert (q' = 4503599627370496) by nia.
  nia.
Qed.

Lemma toNumber_exact z : 0 <= z <= 2 ^ 53 -> toNumber z = Finite z.
Proof.
  intros Hz. unfold toNumber. rewrite round_binary64_exact by done.
  destruct (Z.ltb_spec z (2 ^ 1024)) as [|Hge]; [done|].
  exfalso. assert (2 ^ 53 < 2 ^ 1024) by (apply Z.pow_lt_mono_r; lia). lia.
Qed.

Lemma shortest_unfold x m :
  shortest x m =
  let p := 10 ^ Z.of_nat m in
  let lo := x / p * p in
  let hi := lo + p in
  let ok_lo := (0 <? lo) && (round_binary64 lo =? x) in
  let ok_hi := round_binary64 hi =? x in
  if ok_lo && ok_hi then (if x - lo <=? hi - x then lo else hi)
  else if ok_lo then lo
  else if ok_hi then hi
  else match m with
       | O => x
       | S m' => shortest x m'
       end.
Proof. by destruct m. Qed.

Lemma shortest_exact x m : 0 < x <= 2 ^ 53 -> shortest x m = x.
Proof.
  intros Hx. induction m as [|m IH]; rewrite shortest_unfold; cbv zeta.
  all: set (p := 10 ^ Z.of_nat _); set (lo := x / p * p); set (hi := lo + p).
  all: assert (0 < p) as Hp by (unfold p; apply Z.pow_pos_nonneg; lia).
  all: assert (lo <= x < hi) as Hlo
      by (unfold hi, lo; pose proof (Z.div_mod x p ltac:(lia));
          pose proof (Z.mod_pos_bound x p ltac:(lia)); lia).
  all: assert ((0 <? lo) && (round_binary64 lo =? x) = true -> lo = x) as HA
      by (intros [H1 H2%Z.eqb_eq]%andb_true_iff; apply Z.ltb_lt in H1;
          rewrite round_binary64_exact in H2 by lia; done).
  all: assert ((round_binary64 hi =? x) = true -> hi = 2 ^ 53 + 1) as HB.
  1,3: intros H2%Z.eqb_eq; destruct (Z_le_gt_dec hi (2 ^ 53)) as [Hle|Hgt];
       [rewrite round_binary64_exact in H2 by lia; lia|];
       destruct (round_binary64_above hi ltac:(lia)) as [H3 H4]; apply H4; lia.
  - (* m = 0: p = 1, so lo = x *)
    assert (lo = x) as Hlox by (unfold lo, p; simpl; rewrite Z.div_1_r; lia).
    assert ((0 <? lo) && (round_binary64 lo =? x) = true) as Hoklo.
    { rewrite Hlox, round_binary64_exact by lia.
      apply andb_true_iff. split; [apply Z.ltb_lt; lia|apply Z.eqb_refl]. }
    rewrite Hoklo. simpl.
    destruct (round_binary64 hi =? x); [|done].
    destruct (Z.leb_spec (x - lo) (hi - x)); [done|lia].
  - (* m > 0: hi is a multiple of 10, so it is not 2^53 + 1 *)
    assert ((round_binary64 hi =? x) = false) as Hokhi.
    { destruct (round_binary64 hi =? x) eqn:E; [|done]. exfalso.
      specialize (HB eq_refl).
      assert (hi mod 10 = 0) as Hmod.
      { unfold hi, lo, p. rewrite Nat2Z.inj_succ, Z.pow_succ_r by lia.
        replace (x / (10 * 10 ^ Z.of_nat m) * (10 * 10 ^ Z.of_nat m) + 10 * 10 ^ Z.of_nat m)
          with ((x / (10 * 10 ^ Z.of_nat m) * 10 ^ Z.of_nat m + 10 ^ Z.of_nat m) * 10) by lia.
        apply Z.mod_mul. lia. }
      rewrite HB in Hmod. vm_compute in Hmod. discriminate. }
    rewrite Hokhi, andb_false_r.
    destruct ((0 <? lo) && (round_binary64 lo =? x)) eqn:E; [by apply HA|done].
Qed.

Lemma toString_exact x : 0 <= x <= 2 ^ 53 -> toString (Finite x) = decimal x.
Proof.
  intros Hx. unfold toString. destruct (Z.eqb_spec x 0) as [->|Hne]; [done|].
  rewrite shortest_exact by lia.
  destruct (Z.ltb_spec x (10 ^ 21)) as [|Hge]; [done|].
  exfalso. change (2 ^ 53) with 9007199254740992 in Hx.
  change (10 ^ 21) with 1000000000000000000000 in Hge. lia.
Qed.

Lemma string_of_uint_digits u :
  Forall (fun c => RegExp.is_digit c = true) (js (NilEmpty.string_of_uint u)).
Proof. induction u; simpl; constructor; done. Qed.

Lemma decimal_digit_string z : digit_string (decimal z).
Proof.
  unfold decimal, digit_string, NilZero.string_of_uint.
  destruct (N.to_uint (Z.to_N z)) eqn:E.
  1: { split; [done|]. repeat constructor. }
  all: rewrite <- E; split; [rewrite E; done|apply string_of_uint_digits].
Qed.

Lemma digit_value_bounds c : RegExp.is_digit c = true -> 0 <= digit_value c <= 9.
Proof.
  unfold RegExp.is_digit, digit_value.
  intros [H1%Nat.leb_le H2%Nat.leb_le]%andb_true_iff. lia.
Qed.

Lemma fold_digits_nonneg ds acc :
  Forall (fun c => RegExp.is_digit c = true) ds -> 0 <= acc ->
  0 <= fold_left (fun acc c => acc * 10 + digit_value c) ds acc.
Proof.
  intros Hall. revert acc. induction Hall as [|c ds Hc Hall IH]; intros acc Hacc; simpl.
  - done.
  - apply IH. pose proof (digit_value_bounds c Hc). lia.
Qed.

Lemma digits_value_nonneg ds :
  Forall (fun c => RegExp.is_digit c = true) ds -> 0 <= digits_value ds.
Proof. intros Hall. by apply fold_digits_nonneg. Qed.

(** [parseInt], [+ 1] and the template literal on a counter below 2^53. *)
Lemma next_revision_exact d :
  digit_string d -> digits_value d < 2 ^ 53 ->
  toString (add1 (parseInt d)) = decimal (digits_value d + 1).
Proof.
  intros [_ Hd] Hlt. pose proof (digits_value_nonneg d Hd).
  unfold parseInt. rewrite toNumber_exact by lia. simpl.
  rewrite toNumber_exact by lia. apply toString_exact. lia.
Qed.

End JsNumberFacts.

(** ** Revision derivation *)

Lemma revisionPattern_test t :
  RegExp.test revisionPattern t = true <-> exists d, t = js "Rev" ++ d /\ digit_string d.
Proof.
  rewrite RegExpFacts.test_accepts. unfold revisionPattern.
  rewrite RegExpFacts.accepts_seq. split.
  - intros (s1 & s2 & -> & H1%RegExpFacts.accepts_lit & H2%RegExpFacts.accepts_plus_chr).
    subst s1. by exists s2.
  - intros (d & -> & Hd). exists (js "Rev"), d. split; [done|].
    split; [by apply RegExpFacts.accepts_lit|by apply RegExpFacts.accepts_plus_chr].
Qed.

(** The letter R cannot occur after the R of a match. *)
Lemma revisionPattern_leftmost p2 d :
  p2 <> [] -> RegExp.test revisionPattern (p2 ++ js "Rev" ++ d) = false.
Proof.
  intros Hne. destruct (RegExp.test _ _) eqn:E; [exfalso|done].
  apply revisionPattern_test in E as (d' & Heq & _ & Hd').
  destruct p2 as [|c p2]; [done|]. simpl in Heq. injection Heq as -> Heq.
  assert (In "R"%char ("e" :: "v" :: d')%char) as Hin.
  { rewrite <- Heq. apply in_or_app. right. by left. }
  destruct Hin as [?|[?|Hin]]; [done|done|].
  rewrite Forall_forall in Hd'. apply list_elem_of_In, Hd' in Hin. done.
Qed.

Lemma revisionMatch_Some p d :
  digit_string d -> revisionMatch (p ++ js "Rev" ++ d) = Some (p, d).
Proof.
  intros Hd. unfold revisionMatch.
  rewrite (RegExpFacts.search_to_end_leftmost revisionPattern [] p (js "Rev" ++ d)).
  - done.
  - apply revisionPattern_test. by exists d.
  - intros p1 p2 _ Hne. by apply revisionPattern_leftmost.
Qed.

Lemma revisionMatch_None s : ~ ends_in_Rev s -> revisionMatch s = None.
Proof.
  intros Hno. unfold revisionMatch. rewrite RegExpFacts.search_to_end_None; [done|].
  intros p1 p2 ->. destruct (RegExp.test _ _) eqn:E; [exfalso|done].
  apply revisionPattern_test in E as (d & -> & Hd). apply Hno. by exists p1, d.
Qed.

Lemma newCustomId_Rev p d :
  digit_string d -> JsNumber.digits_value d < 2 ^ 53 ->
  newCustomId (p ++ js "Rev" ++ d)
  = p ++ js "Rev" ++ JsNumber.decimal (JsNumber.digits_value d + 1).
Proof.
  intros Hd Hlt. unfold newCustomId. rewrite revisionMatch_Some by done.
  by rewrite JsNumberFacts.next_revision_exact.
Qed.

Lemma newCustomId_plain s : ~ ends_in_Rev s -> newCustomId s = s ++ js " Rev1".
Proof. intros Hno. unfold newCustomId. by rewrite revisionMatch_None. Qed.

(** ** Monetary totals *)



(** *** Numbers: NaN, zeros, infinities *)

Lemma is_nan_Prim2SF x : is_nan x = false -> Prim2SF x <> S754_nan.
Proof.
  unfold is_nan. rewrite FloatAxioms.eqb_spec. intros H E. by rewrite E in H.
Qed.

Lemma SFcompare_refl x : x <> S754_nan -> SFcompare x x = Some Eq.
Proof.
  destruct x as [s|s| |s m e]; simpl; try done; intros _.
  - by destruct s.
  - rewrite Z.compare_refl. change (PosDef.Pos.compare_cont Eq) with Pos.compare.
    rewrite Pos.compare_refl. by destruct s.
Qed.

Lemma Prim2SF_is_nan x : Prim2SF x <> S754_nan -> is_nan x = false.
Proof.
  intros H. unfold is_nan. rewrite FloatAxioms.eqb_spec. unfold SFeqb.
  by rewrite SFcompare_refl.
Qed.

Lemma digit_not_space c : RegExp.is_digit c = true -> RegExp.is_space c = false.
Proof.
  unfold RegExp.is_digit, RegExp.is_space. intros H.
  apply andb_prop in H as [H1%Nat.leb_le H2%Nat.leb_le].
  apply orb_false_intro; [apply orb_false_intro|].
  - apply andb_false_intro2. apply Nat.leb_gt. lia.
  - apply Nat.eqb_neq. lia.
  - apply Nat.eqb_neq. lia.
Qed.

Lemma digit_not_sign c :
  RegExp.is_digit c = true -> Ascii.eqb c "-" = false /\ Ascii.eqb c "+" = false.
Proof.
  intros H. split; destruct (Ascii.eqb_spec c "-"), (Ascii.eqb_spec c "+");
    subst; try done.
Qed.

Lemma span_digits_all ds :
  forallb RegExp.is_digit ds = true -> ParseFloat.span_digits ds = (ds, []).
Proof.
  induction ds as [|c ds IH]; [done|]. cbn [forallb ParseFloat.span_digits].
  intros [Hc Hds]%andb_prop. by rewrite Hc, (IH Hds).
Qed.





(** *** Equality of Numbers, and sums and products with a zero *)

Lemma same_number_refl x : same_number x x.
Proof. by left. Qed.



Lemma same_number_zero x y : is_zero x = true -> is_zero y = true -> same_number x y.
Proof. by right. Qed.














(** *** The loop in binary64 *)


Lemma same_totals_refl a : same_totals a a.
Proof. split_and!; apply same_number_refl. Qed.





(** *** What [parseFloat] makes of a text *)









(** ** Rules for [triple] *)

Lemma triple_ret {A} (P : World -> Prop) (a : A) (Q : A -> World -> Prop) E :
  (forall w, P w -> Q a w) -> triple P (ret a) Q E.
Proof. intros H w Hw. by apply H. Qed.

Lemma triple_throw {A} (P : World -> Prop) e (Q : A -> World -> Prop) (E : World -> Prop) :
  (forall w, P w -> E w) -> triple P (throw e) Q E.
Proof. intros H w Hw. by apply H. Qed.

Lemma triple_bind {A B} P (m : M A) (k : A -> M B) Q1 Q E :
  triple P m Q1 E -> (forall a, triple (Q1 a) (k a) Q E) -> triple P (bind m k) Q E.
Proof.
  intros Hm Hk w Hw. unfold bind. specialize (Hm w Hw).
  destruct (m w) as [[a|e] w']; [by apply Hk|done].
Qed.

Lemma triple_weaken {A} (P P' : World -> Prop) (m : M A)
    (Q Q' : A -> World -> Prop) (E E' : World -> Prop) :
  triple P m Q E ->
  (forall w, P' w -> P w) -> (forall a w, Q a w -> Q' a w) -> (forall w, E w -> E' w) ->
  triple P' m Q' E'.
Proof.
  intros Hm HP HQ HE w Hw. specialize (Hm w (HP w Hw)).
  destruct (m w) as [[a|e] w']; auto.
Qed.

Lemma triple_try_catch {A} P (m : M A) (h : Error -> M A) Q E1 E :
  triple P m Q E1 -> (forall e, triple E1 (h e) Q E) -> triple P (try_catch m h) Q E.
Proof.
  intros Hm Hh w Hw. unfold try_catch. specialize (Hm w Hw).
  destruct (m w) as [[a|e] w']; [done|by apply Hh].
Qed.

(** An invariant that waiting does not disturb survives every retry. *)
Lemma triple_retry {A} (I : World -> Prop) (fn : M A) Q n d :
  (forall ms w, 0 <= ms -> I w -> I (advance ms w)) -> 0 <= d ->
  triple I fn Q I -> triple I (executeWithRetry fn n d) Q I.
Proof.
  intros Hadv Hd Hfn. revert d Hd. induction n as [|n IH]; intros d Hd w Hw; simpl.
  - specialize (Hfn w Hw). by destruct (fn w) as [[a|e] w'].
  - specialize (Hfn w Hw). destruct (fn w) as [[a|e] w']; [done|].
    apply IH; [lia|]. by apply Hadv.
Qed.

Lemma triple_withTimeout {A} (I : World -> Prop) (p : Promise A) t Q :
  (forall ms w, 0 <= ms -> I w -> I (advance ms w)) -> 0 <= t ->
  (forall w, I w ->
     match p w with
     | (Resolved a false, w') => Q a w'
     | (Resolved a true, w') => I w'
     | (Rejected _, w') => I w'
     end) ->
  triple I (withTimeout p t) Q I.
Proof.
  intros Hadv Ht Hp w Hw. unfold withTimeout. specialize (Hp w Hw).
  destruct (p w) as [[a [|]|e] w']; auto.
Qed.

Lemma triple_guarded (I : World -> Prop) (p : Promise QueryResult) Q :
  (forall ms w, 0 <= ms -> I w -> I (advance ms w)) ->
  (forall w, I w ->
     match p w with
     | (Resolved a false, w') => Q a w'
     | (Resolved a true, w') => I w'
     | (Rejected _, w') => I w'
     end) ->
  triple I (guarded p) Q I.
Proof.
  intros Hadv Hp. apply triple_retry; [done|lia|]. apply triple_withTimeout; [done|lia|done].
Qed.

Lemma triple_await {A} (P : World -> Prop) (p : Promise A) Q E :
  (forall w, P w ->
     match p w with
     | (Resolved a _, w') => Q a w'
     | (Rejected _, w') => E w'
     end) ->
  triple P (await p) Q E.
Proof.
  intros Hp w Hw. unfold await. specialize (Hp w Hw).
  by destruct (p w) as [[a l|e] w'].
Qed.

Lemma triple_assume {A} (phi : Prop) (P : World -> Prop) (m : M A) Q E :
  (forall w, P w -> phi) -> (phi -> triple P m Q E) -> triple P m Q E.
Proof. intros Hphi Hm w Hw. apply Hm; [by eapply Hphi|done]. Qed.

Lemma triple_new_Date (P : World -> Prop) E :
  triple P new_Date (fun now w => P w /\ now = clock w) E.
Proof. intros w Hw. done. Qed.

(** ** One statement on the handler's connection *)

Lemma client_query_data s w :
  is_data s = true ->
  client_query s w =
  let o := hd Fast (script w) in
  let w1 := (issue s w).2 in
  match tx w, o with
  | Aborted, _ => (Rejected DatabaseError, w1)
  | Idle, Fails => (Rejected DatabaseError, w1)
  | InTxn _, Fails => (Rejected DatabaseError, set_tx Aborted w1)
  | Idle, _ =>
      let '(r, db) := run_stmt (clock w) s (committed w) in
      (Resolved r (is_slow o), set_committed db w1)
  | InTxn work, _ =>
      let '(r, db) := run_stmt (clock w) s work in
      (Resolved r (is_slow o), set_tx (InTxn db) w1)
  end.
Proof. destruct s; try done. Qed.

Lemma pool_query_unfold s w :
  pool_query s w =
  let o := hd Fast (script w) in
  let w1 := (issue s w).2 in
  match o with
  | Fails => (Rejected DatabaseError, w1)
  | _ =>
      let '(r, db) := run_stmt (clock w) s (committed w) in
      (Resolved r (is_slow o), set_committed db w1)
  end.
Proof. done. Qed.

(** ** Revision write: the transaction's working copy *)

Section Revision.
Variables (id : Z) (body : RevisionBody) (db0 : Db) (c0 : Z).

Lemma pass_inv_advance J ms w :
  lasting J -> 0 <= ms -> pass_inv J db0 c0 w -> pass_inv J db0 c0 (advance ms w).
Proof.
  intros HJ Hms (H1 & H2 & H3). split_and!; simpl; [done|lia|].
  destruct (tx w); [done| |done]. eapply HJ; [|exact H3]. lia.
Qed.

Lemma in_tx_inv_advance J ms w :
  lasting J -> 0 <= ms -> in_tx_inv J db0 c0 w -> in_tx_inv J db0 c0 (advance ms w).
Proof.
  intros HJ Hms (H1 & H2 & H3). split_and!; simpl; [done|lia|].
  destruct (tx w); [done| |done]. eapply HJ; [|exact H3]. lia.
Qed.

Lemma in_tx_now_inv J w : in_tx_now J db0 c0 w -> in_tx_inv J db0 c0 w.
Proof. intros (H1 & H2 & work & H3 & H4). split_and!; [done|done|]. by rewrite H3. Qed.

Lemma in_tx_inv_pass (J J' : Z -> Db -> Prop) w :
  (forall c work, J c work -> J' c work) -> in_tx_inv J db0 c0 w -> pass_inv J' db0 c0 w.
Proof.
  intros HJ (H1 & H2 & H3). split_and!; [done|done|].
  destruct (tx w); [done|by apply HJ|done].
Qed.

Lemma acknowledged_now s J (J' : Z -> Db -> Prop) r w :
  (forall t work, c0 <= t -> J t work -> J' t (run_stmt t s work).2) ->
  acknowledged s J db0 c0 r w -> in_tx_now J' db0 c0 w.
Proof.
  intros HJ (H1 & H2 & work & HJw & Htx & _).
  split_and!; [done|done|]. eexists. split; [exact Htx|by apply HJ].
Qed.

(** A data statement under the gateway, inside the transaction: every
    attempt that reaches the database keeps the working copy in [J]. *)
Lemma guarded_in_tx s (J : Z -> Db -> Prop) :
  is_data s = true -> lasting J ->
  (forall t work, c0 <= t -> J t work -> J t (run_stmt t s work).2) ->
  triple (in_tx_inv J db0 c0) (guarded (client_query s))
         (acknowledged s J db0 c0) (in_tx_inv J db0 c0).
Proof.
  intros Hs Hlast HJ. apply triple_guarded; [intros ms w; by apply in_tx_inv_advance|].
  intros w (Hc & Hclk & Htx). rewrite client_query_data by done. cbv zeta.
  destruct (tx w) as [|work|] eqn:Etx; [done| |].
  - destruct (hd Fast (script w)) eqn:Eo;
      destruct (run_stmt (clock w) s work) as [r db] eqn:Er; simpl.
    + split_and!; [done|done|]. exists work. simpl. rewrite Er. done.
    + split_and!; [done|done|]. specialize (HJ (clock w) work Hclk Htx).
      by rewrite Er in HJ.
    + done.
  - destruct (hd Fast (script w)); simpl; split_and!; simpl; try done; by rewrite Etx.
Qed.

Lemma derived_from_refl c : derived_from c c.
Proof. by exists O. Qed.

Lemma derived_from_step c cur : derived_from c cur -> derived_from c (newCustomId cur).
Proof. intros [n ->]. by exists (S n). Qed.

(** *** What was true of the header stays true later *)

Lemma revised_lasting c c' q0 q :
  c <= c' -> revised body c0 c q0 q -> revised body c0 c' q0 q.
Proof.
  intros Hc (H1 & H2 & H3 & H4 & H5 & H6 & H7 & H8 & H9 & H10 & H11 & H12 & H13 & H14 & H15).
  unfold revised. split_and!; try done; try lia.
  destruct (jseqb (statusOf body) (js "delivered")); [|done].
  destruct H10 as (t & Ht & H10). exists t. split; [lia|done].
Qed.

Lemma seen_lasting c c' q0 q :
  c <= c' -> q = q0 \/ revised body c0 c q0 q -> q = q0 \/ revised body c0 c' q0 q.
Proof. intros Hc [H|H]; [by left|right; by eapply revised_lasting]. Qed.

Lemma hdr_base_lasting c c' q0 q :
  c <= c' -> hdr_base body c0 c q0 q -> hdr_base body c0 c' q0 q.
Proof. intros Hc [H1 H2]. split; [by eapply seen_lasting|done]. Qed.

Lemma hdr_updating_lasting cur c c' q0 q :
  c <= c' -> hdr_updating body c0 c cur q0 q -> hdr_updating body c0 c' cur q0 q.
Proof. intros Hc (H1 & H2 & H3). split_and!; [by eapply seen_lasting|done|done]. Qed.

Lemma hdr_updated_lasting cur c c' q0 q :
  c <= c' -> hdr_updated body c0 c cur q0 q -> hdr_updated body c0 c' cur q0 q.
Proof. intros Hc (H1 & H2 & H3). split_and!; [by eapply revised_lasting|done|done]. Qed.

Lemma work_found_mono (H H' : Quotation -> Quotation -> Prop) G work :
  (forall q0 q, H q0 q -> H' q0 q) ->
  work_found id body db0 H G work -> work_found id body db0 H' G work.
Proof.
  intros HH (Hs & (q0 & q & Hq0 & Hq & Hh) & Hi). split_and!; [done| |done].
  exists q0, q. split_and!; [done|done|by apply HH].
Qed.

Lemma work_base_lasting : lasting (work_base id body db0 c0).
Proof.
  intros c c' work Hc (Hs & Hh & Hi). split_and!; [done| |done].
  destruct (quotations db0 !! id) as [q0|]; [|done].
  destruct Hh as (q & Hq & Hh). exists q. split; [done|by eapply hdr_base_lasting].
Qed.

Lemma work_updating_lasting now cur G :
  lasting (fun c work => now <= c
                         /\ work_found id body db0 (hdr_updating body c0 c cur) G work).
Proof.
  intros c c' work Hc [Hn Hw]. split; [lia|].
  eapply work_found_mono; [|exact Hw]. intros q0 q. by apply hdr_updating_lasting.
Qed.

Lemma work_updated_lasting cur G :
  lasting (fun c => work_found id body db0 (hdr_updated body c0 c cur) G).
Proof.
  intros c c' work Hc Hw.
  eapply work_found_mono; [|exact Hw]. intros q0 q. by apply hdr_updated_lasting.
Qed.

(** *** The steps of one pass *)

Lemma work_base_init c : work_base id body db0 c0 c db0.
Proof.
  split_and!.
  - done.
  - destruct (quotations db0 !! id) as [q0|] eqn:E; [|done].
    exists q0. split; [by rewrite insert_id|].
    split; [by left|apply derived_from_refl].
  - unfold items_clause. by destruct (b_products body) as [[|? ?]|].
Qed.

Lemma work_found_base c H G work :
  (forall q0 q, H q0 q -> hdr_base body c0 c q0 q) ->
  work_found id body db0 H G work -> work_base id body db0 c0 c work.
Proof.
  intros HH (Hs & (q0 & q & Hq0 & Hq & Hh) & Hi). split_and!; [done| |].
  - rewrite Hq0. exists q. split; [done|by apply HH].
  - unfold items_clause in *. destruct (b_products body) as [[|? ?]|]; try done.
    by destruct Hi.
Qed.

Lemma hdr_updating_base c cur q0 q :
  hdr_updating body c0 c cur q0 q -> hdr_base body c0 c q0 q.
Proof.
  intros (H1 & H2 & [H3|H3]); (split; [done|]); rewrite H3;
    [done|by apply derived_from_step].
Qed.

Lemma hdr_updated_base c cur q0 q :
  hdr_updated body c0 c cur q0 q -> hdr_base body c0 c q0 q.
Proof.
  intros (H1 & H2 & H3). split; [by right|]. rewrite H3. by apply derived_from_step.
Qed.

(** BEGIN opens a transaction on the committed state, or continues the
    one a failed pass left open. *)
Lemma begin_spec :
  triple (pass_inv (work_base id body db0 c0) db0 c0)
         (await (client_query Begin))
         (fun _ => in_tx_now (work_base id body db0 c0) db0 c0)
         (pass_inv (work_base id body db0 c0) db0 c0).
Proof.
  apply triple_await. intros w (Hc & Hclk & Htx). unfold client_query, issue. simpl.
  destruct (tx w) as [|work|] eqn:Etx; destruct (hd Fast (script w)); simpl;
    unfold pass_inv, in_tx_now; simpl; rewrite ?Etx; split_and?; try done.
  all: eexists; (split; [done|]); first [exact Htx|rewrite Hc; apply work_base_init].
Qed.

(** ROLLBACK ends the transaction and commits nothing. *)
Lemma rollback_spec (P : World -> Prop) :
  (forall w, P w -> committed w = db0 /\ c0 <= clock w) ->
  triple P (await (client_query Rollback))
         (fun _ w => committed w = db0 /\ c0 <= clock w /\ tx w = Idle)
         (fun w => committed w = db0 /\ c0 <= clock w /\ tx w = Idle).
Proof.
  intros HP. apply triple_await. intros w [Hc Hclk]%HP. unfold client_query, issue. simpl.
  destruct (hd Fast (script w)); simpl; done.
Qed.

Lemma run_select_custom_id t work :
  run_stmt t (SelectCustomId id) work =
  (result_of (match quotations work !! id with
              | Some q => [RowCustomId (custom_id q)]
              | None => []
              end), work).
Proof. simpl. by destruct (quotations work !! id). Qed.

(** The row the UPDATE writes at time [t] with a date read at [now]. *)
Lemma updated_row_revised t now newId q0 q :
  c0 <= now -> now <= t ->
  (q = q0 \/ revised body c0 t q0 q) ->
  revised body c0 t q0 (updated_row t (updateParams body now newId) q).
Proof.
  intros Hnow Ht Hq. unfold revised, updateParams.
  destruct (revisionTotals (b_products body)) as [[a b] c] eqn:Etot.
  assert (actual_delivery_date q = actual_delivery_date q0
          \/ jseqb (statusOf body) (js "delivered") = true) as Hadt.
  { destruct Hq as [->|Hq]; [by left|].
    destruct Hq as (_ & _ & _ & _ & _ & _ & _ & _ & _ & Hadt & _).
    destruct (jseqb (statusOf body) (js "delivered")); [by right|by left]. }
  destruct (jseqb (statusOf body) (js "delivered")) eqn:Ed; simpl.
  all: split_and!; try done; try lia.
  - exists now. split; [lia|done].
  - destruct Hq as [->|Hq]; [done|]. apply Hq.
  - destruct Hq as [->|Hq]; [done|]. apply Hq.
  - destruct Hq as [->|Hq]; [done|]. apply Hq.
  - by destruct Hadt.
  - destruct Hq as [->|Hq]; [done|]. apply Hq.
  - destruct Hq as [->|Hq]; [done|]. apply Hq.
  - destruct Hq as [->|Hq]; [done|]. apply Hq.
Qed.

Lemma updateParams_newCustomId now newId : u_newCustomId (updateParams body now newId) = newId.
Proof. unfold updateParams. by destruct (revisionTotals (b_products body)) as [[a b] c]. Qed.

Lemma items_clause_same_products G work work' :
  quotation_products work' = quotation_products work ->
  items_clause id body db0 G work -> items_clause id body db0 G work'.
Proof. unfold items_clause. by intros ->. Qed.

(** The UPDATE, attempted once or several times, leaves the header revised
    and its custom_id derived from [cur]. *)
Lemma update_step t now cur G work :
  c0 <= now -> now <= t ->
  work_found id body db0 (hdr_updating body c0 t cur) G work ->
  work_found id body db0 (hdr_updated body c0 t cur) G
    (run_stmt t (UpdateQuotation (updateParams body now (newCustomId cur)) id) work).2.
Proof.
  intros Hnow Ht (Hs & (q0 & q & Hq0 & Hq & Hrev & Hder & Hcid) & Hi). simpl.
  rewrite Hq, lookup_insert_eq. simpl. split_and!; [done| |done].
  eexists q0, _. split; [done|]. split; [by rewrite insert_insert_eq|].
  split_and!; [by apply updated_row_revised|done|]. simpl.
  apply updateParams_newCustomId.
Qed.

Lemma hdr_updated_updating c cur q0 q :
  hdr_updated body c0 c cur q0 q -> hdr_updating body c0 c cur q0 q.
Proof. intros (H1 & H2 & H3). split_and!; [by right|done|by right]. Qed.

Lemma filter_filter_same {A} (f : A -> bool) l :
  List.filter f (List.filter f l) = List.filter f l.
Proof.
  induction l as [|x l IH]; simpl; [done|].
  destruct (f x) eqn:E; simpl; [by rewrite E, IH|done].
Qed.

Lemma filter_of_other l : List.filter (of_quotation id) (List.filter (other_quotation id) l) = [].
Proof.
  induction l as [|x l IH]; simpl; [done|]. unfold other_quotation at 1.
  destruct (of_quotation id x) eqn:E; simpl; [done|by rewrite E].
Qed.

Lemma of_quotation_productRow x : of_quotation id (productRow id x) = true.
Proof.
  unfold of_quotation, productRow. destruct (lineAmounts _ _) as [[a b] c]. simpl.
  apply Z.eqb_refl.
Qed.

(** Deleting the line items of [id] leaves none of them, and no other. *)
Lemma delete_step H G p ps t work :
  b_products body = Some (p :: ps) ->
  work_found id body db0 H G work ->
  work_found id body db0 H (items_loop id (p :: ps) [])
             (run_stmt t (DeleteProducts id) work).2.
Proof.
  intros Hb (Hs & Hh & Hi). split_and!; [done|done|].
  unfold items_clause in *. rewrite Hb in *. destruct Hi as [Hi _]. simpl.
  change (fun r => negb (of_quotation id r)) with (other_quotation id).
  rewrite filter_filter_same, filter_of_other. split; [done|].
  split; intros r Hr; inversion Hr.
Qed.

(** Inserting one incoming item. *)
Lemma insert_step H all done x t work :
  b_products body = Some all -> In x all ->
  work_found id body db0 H (items_loop id all done) work ->
  work_found id body db0 H (items_loop id all (done ++ [x]))
             (run_stmt t (InsertProduct (productRow id x)) work).2.
Proof.
  intros Hb Hx (Hs & Hh & Hi). split_and!; [done|done|].
  unfold items_clause in *. rewrite Hb in *. destruct all as [|p ps]; [done|].
  destruct Hi as (Ho & Hin & Hdone). simpl.
  rewrite !List.filter_app. simpl. unfold other_quotation at 2.
  rewrite of_quotation_productRow. simpl. rewrite app_nil_r.
  split; [done|]. split.
  - intros r [Hr|Hr]%in_app_or; [by apply Hin|].
    destruct Hr as [<-|[]]. by apply in_map.
  - rewrite map_app. intros r [Hr|Hr]%in_app_or; apply in_or_app; [left; by apply Hdone|by right].
Qed.

Lemma items_loop_weaken all done done' rows :
  incl done' done -> items_loop id all done rows -> items_loop id all done' rows.
Proof.
  intros Hsub [H1 H2]. split; [done|].
  intros r (x & <- & Hx)%in_map_iff. apply H2, in_map, Hsub, Hx.
Qed.

Lemma work_found_items H (G G' : list ProductRow -> Prop) work :
  (forall rows, G rows -> G' rows) ->
  work_found id body db0 H G work -> work_found id body db0 H G' work.
Proof.
  intros HG (Hs & Hh & Hi). split_and!; [done|done|].
  unfold items_clause in *. destruct (b_products body) as [[|? ?]|]; try done.
  destruct Hi. split; [done|by apply HG].
Qed.

Local Abbreviation Wb := (work_base id body db0 c0).
Local Abbreviation Updated cur G :=
  (fun c => work_found id body db0 (hdr_updated body c0 c cur) G).

Lemma updated_base cur G c work : Updated cur G c work -> Wb c work.
Proof. apply work_found_base. intros q0 q. apply hdr_updated_base. Qed.

(** The loop of inserts: every incoming item ends up stored. *)
Lemma insertProducts_spec cur all :
  b_products body = Some all ->
  forall rest done, all = done ++ rest ->
  triple (in_tx_now (Updated cur (items_loop id all done)) db0 c0)
         (insertProducts id rest)
         (fun _ => in_tx_now (Updated cur (items_loop id all all)) db0 c0)
         (pass_inv Wb db0 c0).
Proof.
  intros Hb rest. induction rest as [|x rest IH]; intros done Hall; simpl.
  - apply triple_ret. intros w Hw. rewrite app_nil_r in Hall. by subst.
  - eapply triple_bind.
    + eapply triple_weaken.
      * apply (guarded_in_tx (InsertProduct (productRow id x))
                 (Updated cur (items_loop id all done))); [done|apply work_updated_lasting|].
        intros t work Ht Hw. eapply work_found_items;
          [|apply (insert_step _ all done x t work); [done| |exact Hw]].
        -- intros rows. apply items_loop_weaken. intros y Hy. apply in_or_app. by left.
        -- subst all. apply in_or_app. right. by left.
      * apply in_tx_now_inv.
      * intros a w Hw. exact Hw.
      * intros w Hw. eapply in_tx_inv_pass; [|exact Hw].
        intros c work. apply updated_base.
    + intros r. eapply triple_weaken; [apply (IH (done ++ [x]))| |done|done].
      * by rewrite <- app_assoc.
      * intros w Hw. eapply acknowledged_now; [|exact Hw].
        intros t work Ht Hwork. apply insert_step; [done| |done].
        subst all. apply in_or_app. right. by left.
Qed.

(** COMMIT publishes the working copy, or fails and publishes nothing. *)
Lemma commit_spec (J : Z -> Db -> Prop) :
  triple (in_tx_now J db0 c0) (await (client_query Commit))
         (fun _ w => J (clock w) (committed w) /\ c0 <= clock w)
         (pass_inv Wb db0 c0).
Proof.
  apply triple_await. intros w (Hc & Hclk & work & Htx & HJ).
  unfold client_query, issue. simpl. rewrite Htx.
  destruct (hd Fast (script w)); simpl; [done|done|].
  split_and!; done.
Qed.

(** The SELECT of the current custom_id found the header row. *)
Lemma select_found r w cur rest :
  acknowledged (SelectCustomId id) Wb db0 c0 r w ->
  rows r = RowCustomId cur :: rest ->
  in_tx_now (fun c => work_found id body db0 (hdr_updating body c0 c cur) items_any) db0 c0 w.
Proof.
  intros (Hc & Hclk & work & HW & Htx & Hr) Hrows.
  rewrite run_select_custom_id in Htx, Hr. simpl in Htx. subst r. simpl in Hrows.
  split_and!; [done|done|]. exists work. split; [done|].
  destruct HW as (Hs & Hh & Hi). split_and!; [done| |done].
  destruct (quotations db0 !! id) as [q0|] eqn:Eq0.
  - destruct Hh as (q & Hq & Hrev & Hder). rewrite Hq, lookup_insert_eq in Hrows.
    injection Hrows as Hcur _. subst cur. exists q0, q. split_and!; try done.
    split_and!; [done|done|by left].
  - rewrite Hh, Eq0 in Hrows. done.
Qed.

Lemma work_found_unsupplied H (G G' : list ProductRow -> Prop) work :
  match b_products body with Some (_ :: _) => False | _ => True end ->
  work_found id body db0 H G work -> work_found id body db0 H G' work.
Proof.
  intros Hb (Hs & Hh & Hi). split_and!; [done|done|].
  unfold items_clause in *. by destruct (b_products body) as [[|? ?]|].
Qed.

Lemma revision_committed_intro cur c db' :
  Updated cur (items_loop id (default [] (b_products body)) (default [] (b_products body)))
          c db' ->
  revision_committed id body c0 c db0 db'.
Proof.
  intros ((H1 & H2 & H3 & H4) & (q0 & q & Hq0 & Hq & Hrev & [n Hn] & Hcid) & Hi).
  exists q0, q. split_and!; try done.
  - exists (S n). split; [lia|]. simpl. by rewrite Hcid, Hn.
  - unfold products_replaced, items_clause in *.
    destruct (b_products body) as [[|p ps]|]; [done| |done].
    simpl in Hi. destruct Hi as (Ho & Hin & Hall). split; [done|].
    intros r. split; [apply Hin|apply Hall].
Qed.

(** The replacement of the line items, when a non-empty list was sent. *)
Lemma replaceProducts_spec cur :
  triple (in_tx_now (Updated cur items_any) db0 c0)
         (match b_products body with
          | Some (p :: ps) =>
              let* _ := guarded (client_query (DeleteProducts id)) in
              insertProducts id (p :: ps)
          | _ => ret tt
          end)
         (fun _ => in_tx_now
                     (Updated cur (items_loop id (default [] (b_products body))
                                                 (default [] (b_products body)))) db0 c0)
         (pass_inv Wb db0 c0).
Proof.
  destruct (b_products body) as [[|p ps]|] eqn:Hb.
  - apply triple_ret. intros w (Hc & Hclk & work & Htx & HJ).
    split_and!; [done|done|]. exists work. split; [done|].
    eapply work_found_unsupplied; [by rewrite Hb|exact HJ].
  - eapply triple_bind.
    + eapply triple_weaken.
      * apply (guarded_in_tx (DeleteProducts id) (Updated cur items_any));
          [done|apply work_updated_lasting|].
        intros t work Ht Hw. eapply work_found_items;
          [|exact (delete_step _ items_any p ps t work Hb Hw)].
        done.
      * apply in_tx_now_inv.
      * intros a w Hw. exact Hw.
      * intros w Hw. eapply in_tx_inv_pass; [|exact Hw].
        intros c work. apply updated_base.
    + intros r. eapply triple_weaken.
      * apply (insertProducts_spec cur (p :: ps) Hb (p :: ps) []). done.
      * intros w Hw. eapply acknowledged_now; [|exact Hw].
        intros t work Ht Hwork. exact (delete_step _ items_any p ps t work Hb Hwork).
      * done.
      * done.
  - apply triple_ret. intros w (Hc & Hclk & work & Htx & HJ).
    split_and!; [done|done|]. exists work. split; [done|].
    eapply work_found_unsupplied; [by rewrite Hb|exact HJ].
Qed.

(** A row of another shape than the SELECT returns: the pass throws with
    the transaction as it was. *)
Lemma select_other_shape r w :
  acknowledged (SelectCustomId id) Wb db0 c0 r w -> pass_inv Wb db0 c0 w.
Proof.
  intros Hw. eapply in_tx_inv_pass; [|eapply in_tx_now_inv, acknowledged_now; [|exact Hw]].
  - intros c work HW. exact HW.
  - intros t work Ht HW. by rewrite run_select_custom_id.
Qed.

(** One pass of the transaction body, with the answer it gives: not-found
    only when the header row does not exist, success with the custom_id
    that the committed header row now carries. *)
Lemma revisionWrite_answer :
  triple (pass_inv Wb db0 c0) (revisionWrite id body)
         (fun resp w =>
            (resp = {| code := 404; payload := PError "Quotation not found" None |}
             /\ committed w = db0 /\ quotations db0 !! id = None)
            \/ (exists cur,
                  resp = {| code := 200;
                            payload := PRevised "Quotation and products updated successfully"
                                                (newCustomId cur) |}
                  /\ Updated cur (items_loop id (default [] (b_products body))
                                                (default [] (b_products body)))
                             (clock w) (committed w)))
         (pass_inv Wb db0 c0).
Proof.
  unfold revisionWrite.
  eapply triple_bind; [apply begin_spec|]. intros ?.
  eapply triple_bind.
  { eapply triple_weaken.
    - apply (guarded_in_tx (SelectCustomId id) Wb); [done|apply work_base_lasting|].
      intros t work Ht Hw. by rewrite run_select_custom_id.
    - apply in_tx_now_inv.
    - intros ? w Hw. exact Hw.
    - intros w Hw. by eapply in_tx_inv_pass. }
  intros r. destruct (rows r) as [|[cur| | | | |] rest] eqn:Erows.
  - (* no row: ROLLBACK and 404 *)
    eapply (triple_assume (quotations db0 !! id = None)).
    { intros w (_ & _ & work & (_ & Hh & _) & _ & Hr).
      rewrite run_select_custom_id in Hr. subst r. simpl in Erows.
      destruct (quotations db0 !! id) as [q0|]; [|done].
      destruct Hh as (q & Hq & _). by rewrite Hq, lookup_insert_eq in Erows. }
    intros Hnone.
    eapply triple_bind.
    + eapply triple_weaken.
      * apply (rollback_spec (acknowledged (SelectCustomId id) Wb db0 c0 r)).
        by intros w (Hc & Hclk & _).
      * done.
      * intros ? w Hw. exact Hw.
      * intros w (Hc & Hclk & Htx). split_and!; [done|done|by rewrite Htx].
    + intros ?. apply triple_ret. intros w (Hc & _). by left.
  - (* the header row exists *)
    eapply triple_bind; [apply triple_new_Date|]. intros now. cbv beta.
    eapply (triple_assume (c0 <= now)).
    { intros w [(_ & Hclk & _) ->]. exact Hclk. }
    intros Hnow.
    eapply triple_bind.
    { eapply triple_weaken.
      - apply (guarded_in_tx (UpdateQuotation (updateParams body now (newCustomId cur)) id)
                 (fun c work =>
                    now <= c
                    /\ work_found id body db0 (hdr_updating body c0 c cur) items_any work));
          [done|apply work_updating_lasting|].
        intros t work Ht [Hn Hw]. split; [done|].
        eapply work_found_mono; [intros q0 q; apply hdr_updated_updating|].
        by apply update_step.
      - intros w [Hw ->]. apply in_tx_now_inv.
        destruct (select_found r w cur rest Hw Erows) as (Hc & Hclk & work & Htx & HW).
        split_and!; [done|done|]. exists work. split; [done|]. split; [lia|done].
      - intros ? w Hw. exact Hw.
      - intros w Hw. eapply in_tx_inv_pass; [|exact Hw].
        intros c work [_ Hwork]. eapply work_found_base; [|exact Hwork].
        intros q0 q. apply hdr_updating_base. }
    intros ?.
    eapply triple_bind.
    { eapply triple_weaken; [apply (replaceProducts_spec cur)| |done|done].
      intros w Hw. eapply acknowledged_now; [|exact Hw].
      intros t work Ht [Hn Hwork]. by apply update_step. }
    intros ?.
    eapply triple_bind; [apply commit_spec|].
    intros ?. apply triple_ret. intros w [Hw _]. right. by exists cur.
  - apply triple_throw, select_other_shape.
  - apply triple_throw, select_other_shape.
  - apply triple_throw, select_other_shape.
  - apply triple_throw, select_other_shape.
  - apply triple_throw, select_other_shape.
Qed.

(** One pass of the transaction body. *)
Lemma revisionWrite_spec :
  triple (pass_inv Wb db0 c0) (revisionWrite id body)
         (fun resp w =>
            (code resp = 404 /\ committed w = db0)
            \/ (code resp = 200 /\ revision_committed id body c0 (clock w) db0 (committed w)))
         (pass_inv Wb db0 c0).
Proof.
  eapply triple_weaken; [apply revisionWrite_answer|done| |done].
  intros resp w [(-> & Hc & _)|(cur & -> & Hw)]; [by left|right].
  split; [done|]. by eapply revision_committed_intro.
Qed.

End Revision.

(** The whole handler: what is committed when it answers. *)
Lemma putQuotation_spec id body w :
  tx w = Idle ->
  match putQuotation id body w with
  | (Ret resp, w') =>
      (code resp = 200
       /\ revision_committed id body (clock w) (clock w') (committed w) (committed w'))
      \/ ((code resp = 404 \/ code resp = 500) /\ committed w' = committed w)
  | (Throw _, w') => committed w' = committed w
  end.
Proof.
  intros Htx.
  assert (triple (fun w' => w' = w) (putQuotation id body)
            (fun resp w' =>
               (code resp = 200
                /\ revision_committed id body (clock w) (clock w')
                                      (committed w) (committed w'))
               \/ ((code resp = 404 \/ code resp = 500) /\ committed w' = committed w))
            (fun w' => committed w' = committed w)) as Hspec.
  { unfold putQuotation.
    eapply triple_try_catch
      with (E1 := pass_inv (work_base id body (committed w) (clock w)) (committed w) (clock w)).
    - eapply triple_weaken.
      + apply (triple_retry
                 (pass_inv (work_base id body (committed w) (clock w))
                           (committed w) (clock w)));
          [intros ms w' Hms; apply pass_inv_advance; [apply work_base_lasting|done]|lia
          |apply (revisionWrite_spec id body (committed w) (clock w))].
      + intros w' ->. split_and!; [done|lia|by rewrite Htx].
      + intros resp w' [[H1 H2]|[H1 H2]]; [right|left]; split; auto.
      + done.
    - intros e. eapply triple_bind.
      + eapply triple_weaken.
        * apply (rollback_spec (committed w) (clock w)
                   (pass_inv (work_base id body (committed w) (clock w))
                             (committed w) (clock w))).
          by intros w' (Hc & Hclk & _).
        * done.
        * intros ? w' Hw'. exact Hw'.
        * by intros w' (Hc & _).
      + intros ?. apply triple_ret. intros w' (Hc & _). right. split; [by right|done]. }
  by apply (Hspec w).
Qed.

(** ** Revision write: the run in which every statement is answered at once *)

Lemma guarded_in_tx_fast s w work :
  is_data s = true -> tx w = InTxn work -> script w = [] ->
  guarded (client_query s) w
  = (Ret (run_stmt (clock w) s work).1,
     set_tx (InTxn (run_stmt (clock w) s work).2) (issue s w).2).
Proof.
  intros Hs Htx Hsc. unfold guarded. simpl. unfold withTimeout.
  rewrite client_query_data by done. cbv zeta. rewrite Hsc, Htx. simpl.
  destruct (run_stmt (clock w) s work). simpl. by rewrite Hsc, Htx.
Qed.

Lemma insertProducts_fast id ps : forall w work,
  tx w = InTxn work -> script w = [] ->
  exists w' work',
    insertProducts id ps w = (Ret tt, w')
    /\ tx w' = InTxn work' /\ script w' = [] /\ committed w' = committed w
    /\ quotations work' = quotations work.
Proof.
  induction ps as [|p ps IH]; intros w work Htx Hsc; simpl.
  - exists w, work. done.
  - unfold bind. rewrite (guarded_in_tx_fast _ w work) by done.
    destruct (IH (set_tx (InTxn (run_stmt (clock w) (InsertProduct (productRow id p)) work).2)
                         (issue (InsertProduct (productRow id p)) w).2)
                 (run_stmt (clock w) (InsertProduct (productRow id p)) work).2)
      as (w' & work' & Hrun & Htx' & Hsc' & Hc' & Hq'); [done|by simpl; rewrite Hsc|].
    exists w', work'. rewrite Hrun. split_and!; try done.
Qed.

Lemma bind_Ret {A B} (m : M A) (k : A -> M B) w a w1 :
  m w = (Ret a, w1) -> bind m k w = k a w1.
Proof. unfold bind. by intros ->. Qed.

Lemma retry_Ret {A} (fn : M A) n d w a w' :
  fn w = (Ret a, w') -> executeWithRetry fn n d w = (Ret a, w').
Proof. destruct n; simpl; by intros ->. Qed.

Lemma begin_fast w :
  tx w = Idle -> script w = [] ->
  await (client_query Begin) w
  = (Ret (affected 0), set_tx (InTxn (committed w)) (issue Begin w).2).
Proof.
  intros Htx Hsc. unfold await, client_query, issue. rewrite Hsc, Htx. simpl.
  rewrite ?Hsc, ?Htx. reflexivity.
Qed.

Lemma commit_fast w work :
  tx w = InTxn work -> script w = [] ->
  await (client_query Commit) w
  = (Ret (affected 0), set_tx Idle (set_committed work (issue Commit w).2)).
Proof.
  intros Htx Hsc. unfold await, client_query, issue. rewrite Hsc, Htx. simpl.
  rewrite ?Hsc, ?Htx. reflexivity.
Qed.

Lemma replaceProducts_fast id body w work :
  tx w = InTxn work -> script w = [] ->
  exists w' work',
    (match b_products body with
     | Some (p :: ps) =>
         let* _ := guarded (client_query (DeleteProducts id)) in
         insertProducts id (p :: ps)
     | _ => ret tt
     end) w = (Ret tt, w')
    /\ tx w' = InTxn work' /\ script w' = [] /\ committed w' = committed w
    /\ quotations work' = quotations work.
Proof.
  intros Htx Hsc. destruct (b_products body) as [[|p ps]|].
  - exists w, work. done.
  - rewrite (bind_Ret _ _ _ _ _ (guarded_in_tx_fast (DeleteProducts id) w work
                                   eq_refl Htx Hsc)).
    destruct (insertProducts_fast id (p :: ps)
                (set_tx (InTxn (run_stmt (clock w) (DeleteProducts id) work).2)
                        (issue (DeleteProducts id) w).2)
                (run_stmt (clock w) (DeleteProducts id) work).2)
      as (w' & work' & Hrun & Htx' & Hsc' & Hc' & Hq'); [done|by simpl; rewrite Hsc|].
    exists w', work'. split_and!; done.
  - exists w, work. done.
Qed.

(** With every statement answered at once, the write answers 200 with the
    custom_id derived once from the stored one, and commits it. *)
Lemma putQuotation_fast id body w q0 :
  tx w = Idle -> script w = [] ->
  quotations (committed w) !! id = Some q0 ->
  (putQuotation id body w).1
  = Ret {| code := 200;
           payload := PRevised "Quotation and products updated successfully"
                               (newCustomId (custom_id q0)) |}
  /\ custom_id <$> quotations (committed (putQuotation id body w).2) !! id
     = Some (newCustomId (custom_id q0)).
Proof.
  intros Htx Hsc Hq0.
  assert (exists wF,
            revisionWrite id body w
            = (Ret {| code := 200;
                      payload := PRevised "Quotation and products updated successfully"
                                          (newCustomId (custom_id q0)) |}, wF)
            /\ custom_id <$> quotations (committed wF) !! id
               = Some (newCustomId (custom_id q0))) as (wF & Hrun & HF).
  { unfold revisionWrite.
    rewrite (bind_Ret _ _ _ _ _ (begin_fast w Htx Hsc)).
    set (w1 := set_tx (InTxn (committed w)) (issue Begin w).2).
    assert (script w1 = []) as Hsc1 by (by simpl; rewrite Hsc).
    rewrite (bind_Ret _ _ _ _ _ (guarded_in_tx_fast (SelectCustomId id) w1 (committed w)
                                   eq_refl eq_refl Hsc1)).
    rewrite run_select_custom_id, Hq0.
    change (rows (result_of [RowCustomId (custom_id q0)], committed w).1)
      with [RowCustomId (custom_id q0)].
    cbv iota beta.
    set (w2 := set_tx _ _).
    assert (script w2 = []) as Hsc2 by (by simpl; rewrite Hsc).
    rewrite (bind_Ret new_Date _ w2 (clock w2) w2 eq_refl).
    set (upd := UpdateQuotation _ id).
    rewrite (bind_Ret _ _ _ _ _ (guarded_in_tx_fast upd w2 (committed w)
                                   eq_refl eq_refl Hsc2)).
    set (work3 := (run_stmt (clock w2) upd (committed w)).2).
    set (w3 := set_tx (InTxn work3) _).
    assert (script w3 = []) as Hsc3 by (by simpl; rewrite Hsc).
    assert (custom_id <$> quotations work3 !! id = Some (newCustomId (custom_id q0)))
      as Hcid.
    { unfold work3, upd. simpl. rewrite Hq0. simpl. rewrite lookup_insert_eq. simpl.
      by rewrite updateParams_newCustomId. }
    destruct (replaceProducts_fast id body w3 work3 eq_refl Hsc3)
      as (w4 & work4 & Hrun & Htx4 & Hsc4 & Hc4 & Hq4).
    rewrite (bind_Ret _ _ _ _ _ Hrun).
    rewrite (bind_Ret _ _ _ _ _ (commit_fast w4 work4 Htx4 Hsc4)).
    eexists. split; [reflexivity|]. simpl. by rewrite Hq4. }
  unfold putQuotation, try_catch. rewrite (retry_Ret _ _ _ _ _ _ Hrun). done.
Qed.

(** ** Revision write: how often the custom_id is derived *)

Lemma client_query_trace s w : trace (client_query s w).2 = trace w ++ [EvQuery s].
Proof.
  destruct (is_data s) eqn:Hs.
  - rewrite client_query_data by done. cbv zeta. unfold issue.
    destruct (tx w) as [|work|]; destruct (hd Fast (script w)); try reflexivity.
    all: match goal with |- context [run_stmt ?t ?s ?d] => destruct (run_stmt t s d) end;
      reflexivity.
  - unfold client_query, issue.
    destruct s; try discriminate; simpl;
      destruct (tx w); destruct (hd Fast (script w)); reflexivity.
Qed.

(** The whole handler, with its answer. *)
Lemma putQuotation_answer id body w :
  tx w = Idle ->
  match putQuotation id body w with
  | (Ret resp, w') =>
      (resp = not_found /\ committed w' = committed w
       /\ quotations (committed w) !! id = None)
      \/ (exists cur,
            resp = revised_as (newCustomId cur)
            /\ work_found id body (committed w)
                 (hdr_updated body (clock w) (clock w') cur)
                 (items_loop id (default [] (b_products body)) (default [] (b_products body)))
                 (committed w'))
      \/ (code resp = 500 /\ committed w' = committed w)
  | (Throw _, w') => committed w' = committed w
  end.
Proof.
  intros Htx.
  assert (triple (fun w' => w' = w) (putQuotation id body)
            (fun resp w' =>
               (resp = not_found /\ committed w' = committed w
                /\ quotations (committed w) !! id = None)
               \/ (exists cur,
                     resp = revised_as (newCustomId cur)
                     /\ work_found id body (committed w)
                          (hdr_updated body (clock w) (clock w') cur)
                          (items_loop id (default [] (b_products body))
                                         (default [] (b_products body)))
                          (committed w'))
               \/ (code resp = 500 /\ committed w' = committed w))
            (fun w' => committed w' = committed w)) as Hspec.
  { unfold putQuotation.
    eapply triple_try_catch
      with (E1 := pass_inv (work_base id body (committed w) (clock w)) (committed w) (clock w)).
    - eapply triple_weaken.
      + apply (triple_retry
                 (pass_inv (work_base id body (committed w) (clock w))
                           (committed w) (clock w)));
          [intros ms w' Hms; apply pass_inv_advance; [apply work_base_lasting|done]|lia
          |apply (revisionWrite_answer id body (committed w) (clock w))].
      + intros w' ->. split_and!; [done|lia|by rewrite Htx].
      + intros resp w' [H|H]; [by left|right; by left].
      + done.
    - intros e. eapply triple_bind.
      + eapply triple_weaken.
        * apply (rollback_spec (committed w) (clock w)
                   (pass_inv (work_base id body (committed w) (clock w))
                             (committed w) (clock w))).
          by intros w' (Hc & Hclk & _).
        * done.
        * intros ? w' Hw'. exact Hw'.
        * by intros w' (Hc & _).
      + intros ?. apply triple_ret. intros w' (Hc & _). right. right. done. }
  by apply (Hspec w).
Qed.

(** *** Reading a trace in two parts *)

Lemma unsettled_after_app a : forall mark b,
  unsettled_after mark (a ++ b) = unsettled_after (unsettled_after mark a) b.
Proof.
  induction a as [|[s|email name role] a IH]; intros mark b; [done| |apply IH].
  destruct s; simpl; apply IH.
Qed.

Lemma rereads_app a : forall mark b,
  rereads mark (a ++ b) = rereads mark a || rereads (unsettled_after mark a) b.
Proof.
  induction a as [|[s|email name role] a IH]; intros mark b; [done| |apply IH].
  destruct s; simpl; rewrite ?IH; try done. by rewrite orb_assoc.
Qed.

Lemma pass_statement_data id s : pass_statement id s -> is_data s = true.
Proof. by destruct s. Qed.

Lemma pass_statement_header id s t work :
  pass_statement id s -> (forall p, s <> UpdateQuotation p id) ->
  quotations (run_stmt t s work).2 = quotations work.
Proof.
  destruct s; try done; simpl.
  - intros ->. by destruct (quotations work !! id).
  - intros -> H. by destruct (H p eq_refl).
Qed.

Lemma snoc_unsettled id s added :
  pass_statement id s ->
  unsettled_after false (added ++ [EvQuery s])
  = match s with
    | UpdateQuotation _ _ => true
    | _ => unsettled_after false added
    end.
Proof. intros Hs. rewrite unsettled_after_app. by destruct s. Qed.

Lemma snoc_rereads id s added :
  pass_statement id s ->
  rereads false (added ++ [EvQuery s])
  = rereads false added
    || match s with
       | SelectCustomId _ => unsettled_after false added
       | _ => false
       end.
Proof.
  intros Hs. rewrite rereads_app. f_equal. destruct s; try done. simpl. apply orb_false_r.
Qed.

Section Once.
Variables (id : Z) (q0 : Quotation) (tr0 : list Event).

Local Abbreviation clean := (clean_from id q0 tr0).
Local Abbreviation inside := (inside_from id q0 tr0).
Local Abbreviation read_first := (read_first_from q0 tr0).

Lemma clean_advance ms w : clean w -> clean (advance ms w).
Proof. done. Qed.

Lemma read_first_advance cur ms w : read_first cur w -> read_first cur (advance ms w).
Proof. done. Qed.

Lemma read_first_later cur w w' evs :
  trace w' = trace w ++ evs -> read_first cur w -> read_first cur w'.
Proof.
  intros Htr (added & Ha & Hcur). exists (added ++ evs). split.
  - by rewrite Htr, Ha, <- app_assoc.
  - rewrite rereads_app. intros [H _]%orb_false_elim. by apply Hcur.
Qed.

(** One attempt of a statement of the pass. *)
Lemma inside_attempt s w :
  pass_statement id s -> inside w -> inside (client_query s w).2.
Proof.
  intros Hs [Htx (Hc & added & Htr & Hwork)].
  pose proof (client_query_trace s w) as Htr'.
  rewrite client_query_data in * by (by eapply pass_statement_data). cbv zeta in *.
  destruct (tx w) as [|work|] eqn:Etx; [done| |].
  - destruct (hd Fast (script w)) eqn:Eo;
      destruct (run_stmt (clock w) s work) as [r db] eqn:Er; simpl in *.
    + split; [done|]. split; [done|]. exists (added ++ [EvQuery s]).
      split; [by rewrite Htr, <- app_assoc|].
      rewrite (snoc_rereads id), (snoc_unsettled id) by done.
      intros [Hre Hsel]%orb_false_elim Hun work' [= <-].
      assert (forall p, s <> UpdateQuotation p id) as Hnu.
      { intros p ->. done. }
      assert (unsettled_after false added = false) as Hun' by (by destruct s).
      pose proof (pass_statement_header id s (clock w) work Hs Hnu) as Hq.
      rewrite Er in Hq. simpl in Hq. rewrite Hq. by apply Hwork.
    + split; [done|]. split; [done|]. exists (added ++ [EvQuery s]).
      split; [by rewrite Htr, <- app_assoc|].
      rewrite (snoc_rereads id), (snoc_unsettled id) by done.
      intros [Hre Hsel]%orb_false_elim Hun work' [= <-].
      assert (forall p, s <> UpdateQuotation p id) as Hnu.
      { intros p ->. done. }
      assert (unsettled_after false added = false) as Hun' by (by destruct s).
      pose proof (pass_statement_header id s (clock w) work Hs Hnu) as Hq.
      rewrite Er in Hq. simpl in Hq. rewrite Hq. by apply Hwork.
    + split; [done|]. split; [done|]. exists (added ++ [EvQuery s]).
      split; [by rewrite Htr, <- app_assoc|]. done.
  - destruct (hd Fast (script w)); simpl in *;
      (split; [by rewrite Etx|]; split; [done|]; exists (added ++ [EvQuery s]);
       split; [by rewrite Htr, <- app_assoc|]; by rewrite Etx).
Qed.

(** The attempt of the read that is answered reads the stored custom_id,
    unless a rewritten header was waiting. *)
Lemma select_attempt w :
  inside w ->
  match client_query (SelectCustomId id) w with
  | (Resolved r _, w') =>
      forall cur rest, rows r = RowCustomId cur :: rest -> read_first cur w'
  | (Rejected _, _) => True
  end.
Proof.
  intros [Htx (Hc & added & Htr & Hwork)].
  rewrite client_query_data by done. cbv zeta.
  destruct (tx w) as [|work|] eqn:Etx; [done| |by destruct (hd Fast (script w))].
  assert (forall cur rest,
            rows (run_stmt (clock w) (SelectCustomId id) work).1 = RowCustomId cur :: rest ->
            rereads false (added ++ [EvQuery (SelectCustomId id)]) = false ->
            cur = custom_id q0) as Hread.
  { intros cur rest Hrows. rewrite (snoc_rereads id) by done.
    intros [Hre Hun]%orb_false_elim. specialize (Hwork Hre Hun work eq_refl).
    simpl in Hrows. rewrite Hwork in Hrows. simpl in Hrows. by injection Hrows as <-. }
  destruct (hd Fast (script w)) eqn:Eo;
    destruct (run_stmt (clock w) (SelectCustomId id) work) as [r db] eqn:Er; simpl in *;
    [| |done].
  - intros cur rest Hrows. exists (added ++ [EvQuery (SelectCustomId id)]).
    split; [by rewrite Htr, <- app_assoc|]. by eapply Hread.
  - intros cur rest Hrows. exists (added ++ [EvQuery (SelectCustomId id)]).
    split; [by rewrite Htr, <- app_assoc|]. by eapply Hread.
Qed.

Lemma begin_attempt w :
  clean w ->
  match client_query Begin w with
  | (Resolved _ _, w') => inside w'
  | (Rejected _, w') => clean w'
  end.
Proof.
  intros (Hc & added & Htr & Hwork).
  assert (rereads false (added ++ [EvQuery Begin]) = rereads false added) as Hre.
  { rewrite rereads_app. apply orb_false_r. }
  assert (unsettled_after false (added ++ [EvQuery Begin]) = unsettled_after false added)
    as Hun by (by rewrite unsettled_after_app).
  unfold client_query, issue. cbn [fst snd tx committed trace script].
  destruct (tx w) as [|work|] eqn:Etx; destruct (hd Fast (script w)); simpl;
    repeat split; try done;
    try (exists (added ++ [EvQuery Begin]); split; [by rewrite Htr, <- app_assoc|];
         rewrite Hre, Hun; intros H1 H2 work' [= <-]; by eauto);
    try (exists (added ++ [EvQuery Begin]); split; [by rewrite Htr, <- app_assoc|]; done).
Qed.

Lemma commit_attempt cur w :
  clean w -> read_first cur w ->
  match client_query Commit w with
  | (Resolved _ _, w') => read_first cur w'
  | (Rejected _, w') => clean w'
  end.
Proof.
  intros (Hc & added & Htr & Hwork) Hcur.
  pose proof (client_query_trace Commit w) as Htr'.
  pose proof (read_first_later cur w (client_query Commit w).2 _ Htr' Hcur) as Hlater.
  unfold client_query, issue in *. cbn [fst snd tx committed trace script] in *.
  destruct (tx w) as [|work|] eqn:Etx; destruct (hd Fast (script w)); simpl in *;
    try done;
    (split; [done|]; exists (added ++ [EvQuery Commit]);
     split; [by rewrite Htr, <- app_assoc|]; done).
Qed.

Lemma rollback_attempt w : clean w -> clean (client_query Rollback w).2.
Proof.
  intros (Hc & added & Htr & Hwork). unfold client_query, issue.
  cbn [fst snd tx committed trace script].
  destruct (hd Fast (script w)); simpl;
    (split; [done|]; exists (added ++ [EvQuery Rollback]);
     split; [by rewrite Htr, <- app_assoc|]; done).
Qed.

(** *** The same for the statements under the gateway, and for a pass *)

Lemma guarded_inside s cur :
  pass_statement id s ->
  triple (fun w => inside w /\ read_first cur w) (guarded (client_query s))
         (fun _ w => inside w /\ read_first cur w)
         (fun w => inside w /\ read_first cur w).
Proof.
  intros Hs. apply triple_guarded; [done|]. intros w [Hi Hr].
  pose proof (inside_attempt s w Hs Hi) as Hi'.
  pose proof (read_first_later cur w _ _ (client_query_trace s w) Hr) as Hr'.
  by destruct (client_query s w) as [[a [|]|e] w'].
Qed.

Lemma guarded_select :
  triple inside (guarded (client_query (SelectCustomId id)))
         (fun r w => inside w
                     /\ forall cur rest, rows r = RowCustomId cur :: rest -> read_first cur w)
         inside.
Proof.
  apply triple_guarded; [done|]. intros w Hi.
  pose proof (inside_attempt (SelectCustomId id) w eq_refl Hi) as Hi'.
  pose proof (select_attempt w Hi) as Hsel.
  by destruct (client_query (SelectCustomId id) w) as [[a [|]|e] w'].
Qed.

Lemma insertProducts_inside cur ps :
  triple (fun w => inside w /\ read_first cur w) (insertProducts id ps)
         (fun _ w => inside w /\ read_first cur w)
         (fun w => inside w /\ read_first cur w).
Proof.
  induction ps as [|p ps IH]; simpl; [by apply triple_ret|].
  eapply triple_bind; [by apply guarded_inside|]. intros ?. exact IH.
Qed.

(** One pass: if it answers with a custom_id, that is derived from the one
    it read; if it throws, the next pass starts from [clean] again. *)
Lemma revisionWrite_once body :
  triple clean (revisionWrite id body)
         (fun resp w =>
            forall msg c, payload resp = PRevised msg c ->
              exists cur, c = newCustomId cur /\ read_first cur w)
         clean.
Proof.
  unfold revisionWrite.
  eapply triple_bind with (Q1 := fun _ w => inside w).
  { apply triple_await. intros w Hw. apply (begin_attempt w Hw). }
  intros ?.
  eapply triple_bind.
  { eapply triple_weaken; [apply guarded_select|done|intros r w Hw; exact Hw|by intros w [_ Hw]]. }
  intros r. destruct (rows r) as [|[cur| | | | |] rest] eqn:Erows.
  - eapply triple_bind with (Q1 := fun _ _ => True).
    + apply triple_await. intros w [[_ Hw] _].
      pose proof (rollback_attempt w Hw). by destruct (client_query Rollback w) as [[r0 l|e0] w1].
    + intros ?. by apply triple_ret.
  - eapply triple_bind; [apply triple_new_Date|]. intros now. cbv beta.
    eapply triple_bind with (Q1 := fun _ w => inside w /\ read_first cur w).
    { eapply triple_weaken; [by apply (guarded_inside _ cur)| |done|by intros w [[_ Hw] _]].
      intros w [[Hi Hr] _]. split; [done|]. by eapply Hr. }
    intros ?.
    eapply triple_bind with (Q1 := fun _ w => inside w /\ read_first cur w).
    { eapply triple_weaken with (P := fun w => inside w /\ read_first cur w)
                                (Q := fun _ w => inside w /\ read_first cur w)
                                (E := fun w => inside w /\ read_first cur w);
        [|done|intros ? w Hw; exact Hw|by intros w [[_ Hw] _]].
      destruct (b_products body) as [[|p ps]|]; [by apply triple_ret| |by apply triple_ret].
      eapply triple_bind; [by apply guarded_inside|]. intros ?. apply insertProducts_inside. }
    intros ?.
    eapply triple_bind with (Q1 := fun _ w => read_first cur w).
    + apply triple_await. intros w [[_ Hw] Hr]. apply (commit_attempt cur w Hw Hr).
    + intros ?. apply triple_ret. intros w Hr msg c [= _ <-]. by exists cur.
  - apply triple_throw. by intros w [[_ Hw] _].
  - apply triple_throw. by intros w [[_ Hw] _].
  - apply triple_throw. by intros w [[_ Hw] _].
  - apply triple_throw. by intros w [[_ Hw] _].
  - apply triple_throw. by intros w [[_ Hw] _].
Qed.

Lemma putQuotation_once_from body :
  triple clean (putQuotation id body)
         (fun resp w =>
            forall msg c, payload resp = PRevised msg c ->
              exists cur, c = newCustomId cur /\ read_first cur w)
         (fun _ => True).
Proof.
  unfold putQuotation. eapply triple_try_catch with (E1 := clean).
  - apply triple_retry; [done|lia|apply revisionWrite_once].
  - intros e. eapply triple_bind with (Q1 := fun _ _ => True).
    + apply triple_await. intros w Hw. by destruct (client_query Rollback w) as [[r0 l|e0] w1].
    + intros ?. by apply triple_ret.
Qed.

End Once.

Lemma issued_app w w' added : trace w' = trace w ++ added -> issued w w' = added.
Proof. intros H. unfold issued. by rewrite H, drop_app_length. Qed.

(** The whole handler: a custom_id that is answered is derived once from
    the stored one, provided the custom_id was never read while a rewritten
    header was waiting to be committed. *)
Lemma putQuotation_once id body w q0 :
  tx w = Idle -> quotations (committed w) !! id = Some q0 ->
  match putQuotation id body w with
  | (Ret resp, w') =>
      forall msg c, payload resp = PRevised msg c ->
        rereads false (issued w w') = false -> c = newCustomId (custom_id q0)
  | (Throw _, _) => True
  end.
Proof.
  intros Htx Hq0.
  assert (clean_from id q0 (trace w) w) as Hclean.
  { split; [done|]. exists []. split; [by rewrite app_nil_r|]. intros _ _ work Hw.
    by rewrite Htx in Hw. }
  pose proof (putQuotation_once_from id q0 (trace w) body w Hclean) as H.
  destruct (putQuotation id body w) as [[resp|e] w']; [|done].
  intros msg c Hpay Hre. destruct (H msg c Hpay) as (cur & -> & added & Htr & Hcur).
  rewrite (issued_app _ _ _ Htr) in Hre. by rewrite (Hcur Hre).
Qed.

(** ** Revision derivation: what the specification promises *)

(** C1 (as amended).  The derivation is the pure function [newCustomId] of
    the stored string.  If the stored custom_id ends in Rev<N> with N below
    2^53, the suffix becomes Rev<N+1>; if it does not end in Rev<N>, the
    string " Rev1" is appended; "X Rev3" gives "X Rev4" for every X; a
    derived custom_id again ends in Rev<N> whenever the counter it was
    derived from (if any) is below 2^53.  A revision write whose statements
    are all answered at once returns and stores exactly [newCustomId] of
    the stored custom_id; and so does every revision write that answers
    success, however its statements went, provided the custom_id was not
    read again while a rewritten header was waiting to be committed - that
    is, provided the transaction body was not run again after an UPDATE of
    its own had been issued. *)
Theorem C1_revision_derivation (cur : JsString) :
  (forall p d, cur = p ++ js "Rev" ++ d -> digit_string d ->
               JsNumber.digits_value d < 2 ^ 53 ->
     newCustomId cur = p ++ js "Rev" ++ JsNumber.decimal (JsNumber.digits_value d + 1))
  /\ (~ ends_in_Rev cur -> newCustomId cur = cur ++ js " Rev1")
  /\ newCustomId (cur ++ js " Rev3") = cur ++ js " Rev4"
  /\ ((forall p d, cur = p ++ js "Rev" ++ d -> digit_string d ->
                   JsNumber.digits_value d < 2 ^ 53) ->
      ends_in_Rev (newCustomId cur))
  /\ (forall id body w q0,
        tx w = Idle -> script w = [] ->
        quotations (committed w) !! id = Some q0 -> custom_id q0 = cur ->
        (putQuotation id body w).1
        = Ret {| code := 200;
                 payload := PRevised "Quotation and products updated successfully"
                                     (newCustomId cur) |}
        /\ custom_id <$> quotations (committed (putQuotation id body w).2) !! id
           = Some (newCustomId cur))
  /\ (forall id body w q0 resp,
        tx w = Idle ->
        quotations (committed w) !! id = Some q0 -> custom_id q0 = cur ->
        (putQuotation id body w).1 = Ret resp -> code resp = 200 ->
        rereads false (issued w (putQuotation id body w).2) = false ->
        resp = {| code := 200;
                  payload := PRevised "Quotation and products updated successfully"
                                      (newCustomId cur) |}
        /\ custom_id <$> quotations (committed (putQuotation id body w).2) !! id
           = Some (newCustomId cur)).
Proof.
  split_and!.
  - intros p d -> Hd Hlt. by apply newCustomId_Rev.
  - apply newCustomId_plain.
  - assert (digit_string (js "3")) as H3 by (split; [done|by repeat constructor]).
    pose proof (newCustomId_Rev (cur ++ js " ") (js "3") H3 ltac:(by vm_compute)) as H.
    rewrite <- !app_assoc in H. exact H.
  - intros Hsafe.
    destruct (revisionMatch cur) as [[p g]|] eqn:E.
    + unfold revisionMatch in E.
      destruct (RegExp.search_to_end revisionPattern [] cur) as [[b m]|] eqn:Es; [|done].
      injection E as <- <-.
      apply RegExpFacts.search_to_end_Some in Es as (pre & -> & -> & Hm).
      apply revisionPattern_test in Hm as (d & -> & Hd).
      rewrite newCustomId_Rev; [|done|by eapply Hsafe].
      exists pre, (JsNumber.decimal (JsNumber.digits_value d + 1)).
      split; [done|apply JsNumberFacts.decimal_digit_string].
    + unfold newCustomId. rewrite E. exists (cur ++ js " "), (js "1").
      split; [by rewrite <- app_assoc|]. split; [done|by repeat constructor].
  - intros id body w q0 Htx Hsc Hq0 <-. by apply putQuotation_fast.
  - intros id body w q0 resp Htx Hq0 <- Hr Hcode Hre.
    pose proof (putQuotation_answer id body w Htx) as Hans.
    pose proof (putQuotation_once id body w q0 Htx Hq0) as Honce.
    destruct (putQuotation id body w) as [[resp'|e] w']; simpl in *; [|done].
    injection Hr as ->.
    destruct Hans as [(-> & _)|[(cur' & -> & Hfound)|[Hc _]]]; [done| |lia].
    rewrite (Honce _ _ eq_refl Hre). split; [done|].
    destruct Hfound as (_ & (q0' & q & _ & Hq & _ & _ & Hcid) & _).
    rewrite Hq, lookup_insert_eq. simpl. rewrite Hcid.
    f_equal. apply (Honce _ _ eq_refl Hre).
Qed.

(** The first attempts of the read and of the UPDATE are late and both
    statements are retried; or the read is late four times and the
    transaction body is run again: the stored "Q-7 Rev1" becomes
    "Q-7 Rev2" all the same. *)
Lemma C1_witness :
  (map event_name (trace (putQuotation 7 (sample_body None None)
                            (sample_world [Fast; Slow; Fast; Slow; Fast])).2)
   = ["BEGIN"; "SELECT custom_id"; "SELECT custom_id"; "UPDATE header"; "UPDATE header";
      "COMMIT"]%string
   /\ custom_id <$> quotations (committed (putQuotation 7 (sample_body None None)
                                   (sample_world [Fast; Slow; Fast; Slow; Fast])).2) !! 7
      = Some (js "Q-7 Rev2"))
  /\ (map event_name (trace (putQuotation 7 (sample_body None None)
                               (sample_world [Fast; Slow; Slow; Slow; Slow])).2)
      = ["BEGIN"; "SELECT custom_id"; "SELECT custom_id"; "SELECT custom_id";
         "SELECT custom_id"; "BEGIN"; "SELECT custom_id"; "UPDATE header"; "COMMIT"]%string
      /\ custom_id <$> quotations (committed (putQuotation 7 (sample_body None None)
                                      (sample_world [Fast; Slow; Slow; Slow; Slow])).2) !! 7
         = Some (js "Q-7 Rev2")).
Proof.
  split; (split; [vm_compute; reflexivity|]).
  - destruct (C1_revision_derivation (js "Q-7 Rev1")) as (_ & _ & _ & _ & _ & Honce).
    destruct (Honce 7 (sample_body None None) (sample_world [Fast; Slow; Fast; Slow; Fast])
                sample_quotation
                {| code := 200;
                   payload := PRevised "Quotation and products updated successfully"
                                       (js "Q-7 Rev2") |}
                eq_refl ltac:(vm_compute; reflexivity) eq_refl
                ltac:(vm_compute; reflexivity) eq_refl ltac:(vm_compute; reflexivity))
      as [_ H].
    rewrite H. vm_compute. reflexivity.
  - destruct (C1_revision_derivation (js "Q-7 Rev1")) as (_ & _ & _ & _ & _ & Honce).
    destruct (Honce 7 (sample_body None None) (sample_world [Fast; Slow; Slow; Slow; Slow])
                sample_quotation
                {| code := 200;
                   payload := PRevised "Quotation and products updated successfully"
                                       (js "Q-7 Rev2") |}
                eq_refl ltac:(vm_compute; reflexivity) eq_refl
                ltac:(vm_compute; reflexivity) eq_refl ltac:(vm_compute; reflexivity))
      as [_ H].
    rewrite H. vm_compute. reflexivity.
Defined.

(** C1, where the specification as written fails.  The counter 2^53 is
    "incremented" to itself, and a counter of 22 digits leaves a custom_id
    that does not end in Rev<N>.  Apart from the range of Numbers: when the
    insert of a line item times out on all its attempts, the transaction
    body is run again inside the transaction that is still open, reads the
    custom_id it has just written and derives once more, so the stored
    "Q-7 Rev1" becomes "Q-7 Rev3". *)
Lemma C1_counterexample :
  newCustomId (js "X Rev9007199254740992") = js "X Rev9007199254740992"
  /\ newCustomId (js "X Rev1000000000000000000000") = js "X Rev1e+21"
  /\ custom_id sample_quotation = js "Q-7 Rev1"
  /\ (putQuotation 7 (sample_body (Some [lineItem "10" "2"]) None)
                   (sample_world [Fast; Fast; Fast; Fast; Slow; Slow; Slow; Slow])).1
     = Ret {| code := 200;
              payload := PRevised "Quotation and products updated successfully"
                                  (js "Q-7 Rev3") |}
  /\ rereads false
       (issued (sample_world [Fast; Fast; Fast; Fast; Slow; Slow; Slow; Slow])
               (putQuotation 7 (sample_body (Some [lineItem "10" "2"]) None)
                  (sample_world [Fast; Fast; Fast; Fast; Slow; Slow; Slow; Slow])).2)
     = true.
Proof. split_and!; by vm_compute. Qed.

(** ** Revision write: what the specification promises *)

(** C3.  After every successful revision write (answer 200) the three
    approval flags of the quotation all read "pending", whatever they were
    before and however the statements of the write went. *)
Theorem C3_approvals_reset (id : Z) (body : RevisionBody) (w : World) (resp : Response) :
  tx w = Idle ->
  (putQuotation id body w).1 = Ret resp ->
  code resp = 200 ->
  exists q, quotations (committed (putQuotation id body w).2) !! id = Some q
            /\ storekeeperaccept q = js "pending"
            /\ supervisoraccept q = js "pending"
            /\ manageraccept q = js "pending".
Proof.
  intros Htx Hr Hcode. pose proof (putQuotation_spec id body w Htx) as Hspec.
  destruct (putQuotation id body w) as [r w']. simpl in *. subst r.
  destruct Hspec as [[_ Hrev]|[[H|H] _]]; [|lia|lia].
  destruct Hrev as (q0 & q & _ & Hq & Hrevised & _).
  exists q. split; [by rewrite Hq, lookup_insert_eq|].
  destruct Hrevised as (_ & _ & _ & _ & _ & H1 & H2 & H3 & _). done.
Qed.

Lemma C3_witness :
  exists q,
    quotations (committed (putQuotation 7 (sample_body (Some [lineItem "10" "2"]) None)
                             (sample_world [])).2) !! 7 = Some q
    /\ storekeeperaccept q = js "pending"
    /\ supervisoraccept q = js "pending"
    /\ manageraccept q = js "pending".
Proof.
  apply (C3_approvals_reset 7 (sample_body (Some [lineItem "10" "2"]) None) (sample_world [])
           {| code := 200;
              payload := PRevised "Quotation and products updated successfully"
                                  (js "Q-7 Rev2") |}).
  - reflexivity.
  - vm_compute. reflexivity.
  - reflexivity.
Defined.

(** C4 (as amended).  When the revision write does not end in success -
    it answers not-found or the internal error, or the final ROLLBACK
    itself throws - the committed database is exactly what it was; when it
    answers 200 the committed database holds the whole revision: header
    rewritten, and line items replaced if a non-empty list was sent.
    Nothing in between is ever committed. *)
Theorem C4_all_or_nothing (id : Z) (body : RevisionBody) (w : World) :
  tx w = Idle ->
  match (putQuotation id body w).1 with
  | Ret resp =>
      if code resp =? 200
      then revision_committed id body (clock w) (clock (putQuotation id body w).2)
                              (committed w) (committed (putQuotation id body w).2)
      else committed (putQuotation id body w).2 = committed w
  | Throw _ => committed (putQuotation id body w).2 = committed w
  end.
Proof.
  intros Htx. pose proof (putQuotation_spec id body w Htx) as Hspec.
  destruct (putQuotation id body w) as [[resp|e] w']; simpl in *; [|done].
  destruct Hspec as [[Hc Hrev]|[Hc Heq]].
  - by rewrite Hc.
  - destruct (Z.eqb_spec (code resp) 200); [lia|done].
Qed.

(** A write whose line-item insert fails on a database error: the answer
    is 500 and the stored header and items are untouched. *)
Lemma C4_witness :
  (putQuotation 7 (sample_body (Some [lineItem "10" "2"]) None)
                (sample_world [Fast; Fast; Fast; Fast; Fails])).1
  = Ret {| code := 500; payload := PError "Internal Server Error" (Some DatabaseError) |}
  /\ committed (putQuotation 7 (sample_body (Some [lineItem "10" "2"]) None)
                             (sample_world [Fast; Fast; Fast; Fast; Fails])).2
     = sample_db.
Proof.
  split; [by vm_compute|].
  exact (C4_all_or_nothing 7 (sample_body (Some [lineItem "10" "2"]) None)
           (sample_world [Fast; Fast; Fast; Fast; Fails]) eq_refl).
Defined.

(** C4, where the specification as written fails.  The insert of the
    line item times out on all four attempts, so that step of the write
    fails; the retry wrapper around the transaction body then runs the body
    again inside the transaction that is still open, and this second pass
    commits.  The header read back afterwards is not the prior one: its
    custom_id has moved from "Q-7 Rev1" to "Q-7 Rev3". *)
Lemma C4_counterexample :
  let body := sample_body (Some [lineItem "10" "2"]) None in
  let w := sample_world [Fast; Fast; Fast; Fast; Slow; Slow; Slow; Slow] in
  custom_id <$> quotations (committed w) !! 7 = Some (js "Q-7 Rev1")
  /\ map event_name (trace (putQuotation 7 body w).2)
     = ["BEGIN"; "SELECT custom_id"; "UPDATE header"; "DELETE products";
        "INSERT product"; "INSERT product"; "INSERT product"; "INSERT product";
        "BEGIN"; "SELECT custom_id"; "UPDATE header"; "DELETE products";
        "INSERT product"; "COMMIT"]%string
  /\ (putQuotation 7 body w).1
     = Ret {| code := 200;
              payload := PRevised "Quotation and products updated successfully"
                                  (js "Q-7 Rev3") |}
  /\ custom_id <$> quotations (committed (putQuotation 7 body w).2) !! 7
     = Some (js "Q-7 Rev3").
Proof. by vm_compute. Qed.

Lemma statusOf_delivered body :
  jseqb (statusOf body) (js "delivered") = true <-> b_status body = Some (js "delivered").
Proof.
  unfold jseqb, statusOf. rewrite bool_decide_eq_true.
  destruct (b_status body) as [s|]; simpl; [|done]. split; congruence.
Qed.

(** C5.  On a successful revision write the stored actual_delivery_date
    becomes a reading of the clock taken during the write - not before it
    started, not after it ended - if the status sent is exactly
    "delivered", and otherwise (another status, another spelling, or no
    status at all) stays what it was; so a date that was set is still set
    afterwards. *)
Theorem C5_actual_delivery_date (id : Z) (body : RevisionBody) (w : World) (resp : Response) :
  tx w = Idle ->
  (putQuotation id body w).1 = Ret resp ->
  code resp = 200 ->
  exists q0 q,
    quotations (committed w) !! id = Some q0
    /\ quotations (committed (putQuotation id body w).2) !! id = Some q
    /\ (b_status body = Some (js "delivered") ->
        exists t, clock w <= t <= clock (putQuotation id body w).2
                  /\ actual_delivery_date q = Some t)
    /\ (b_status body <> Some (js "delivered") ->
        actual_delivery_date q = actual_delivery_date q0)
    /\ (is_Some (actual_delivery_date q0) -> is_Some (actual_delivery_date q)).
Proof.
  intros Htx Hr Hcode. pose proof (putQuotation_spec id body w Htx) as Hspec.
  destruct (putQuotation id body w) as [r w']. simpl in *. subst r.
  destruct Hspec as [[_ Hrev]|[[H|H] _]]; [|lia|lia].
  destruct Hrev as (q0 & q & Hq0 & Hq & Hrevised & _).
  exists q0, q. split; [done|]. split; [by rewrite Hq, lookup_insert_eq|].
  destruct Hrevised as (_ & _ & _ & _ & _ & _ & _ & _ & _ & Hadt & _).
  destruct (jseqb (statusOf body) (js "delivered")) eqn:Ed.
  - apply statusOf_delivered in Ed. destruct Hadt as (t & Ht & Hadt).
    split_and!; [by eauto|done|]. intros _. by rewrite Hadt.
  - assert (b_status body <> Some (js "delivered")) as Hne.
    { intros Heq%statusOf_delivered. congruence. }
    split_and!; [done|done|]. by rewrite Hadt.
Qed.

(** With the status "delivered" the date becomes the time of the write,
    1000; with "Delivered" (capital D) the stored date 300 stays. *)
Lemma C5_witness :
  (exists q,
     quotations (committed (putQuotation 7 (sample_body None (Some (js "delivered")))
                              (sample_world [])).2) !! 7 = Some q
     /\ actual_delivery_date q = Some 1000)
  /\ (exists q,
        quotations (committed (putQuotation 7 (sample_body None (Some (js "Delivered")))
                                 (sample_world [])).2) !! 7 = Some q
        /\ actual_delivery_date sample_quotation = Some 300
        /\ actual_delivery_date q = Some 300).
Proof.
  split.
  - destruct (C5_actual_delivery_date 7 (sample_body None (Some (js "delivered")))
                (sample_world [])
                {| code := 200;
                   payload := PRevised "Quotation and products updated successfully"
                                       (js "Q-7 Rev2") |}
                eq_refl ltac:(vm_compute; reflexivity) eq_refl)
      as (q0 & q & _ & Hq & Hset & _ & _).
    exists q. split; [exact Hq|].
    destruct (Hset eq_refl) as (t & Ht & Hadt). rewrite Hadt. f_equal.
    assert (clock (putQuotation 7 (sample_body None (Some (js "delivered")))
                     (sample_world [])).2 = 1000) as Hc by (vm_compute; reflexivity).
    rewrite Hc in Ht. simpl in Ht. lia.
  - destruct (C5_actual_delivery_date 7 (sample_body None (Some (js "Delivered")))
                (sample_world [])
                {| code := 200;
                   payload := PRevised "Quotation and products updated successfully"
                                       (js "Q-7 Rev2") |}
                eq_refl ltac:(vm_compute; reflexivity) eq_refl)
      as (q0 & q & Hq0 & Hq & _ & Hkeep & _).
    exists q. split; [exact Hq|].
    assert (actual_delivery_date q0 = Some 300) as H0.
    { vm_compute in Hq0. injection Hq0 as <-. reflexivity. }
    split; [reflexivity|]. rewrite Hkeep; [exact H0|]. vm_compute. discriminate.
Defined.

(** C10.  A successful revision write whose payload carries an empty
    products list stores 0 in total_price, total_vat and total_subtotal
    and leaves the stored line items exactly as they were, so the stored
    totals need not be those of the stored items. *)
Theorem C10_empty_products (id : Z) (body : RevisionBody) (w : World) (resp : Response) :
  tx w = Idle ->
  b_products body = Some [] ->
  (putQuotation id body w).1 = Ret resp ->
  code resp = 200 ->
  exists q,
    quotations (committed (putQuotation id body w).2) !! id = Some q
    /\ total_price q = PrimFloat.zero
    /\ total_vat q = PrimFloat.zero
    /\ total_subtotal q = PrimFloat.zero
    /\ quotation_products (committed (putQuotation id body w).2)
       = quotation_products (committed w).
Proof.
  intros Htx Hb Hr Hcode. pose proof (putQuotation_spec id body w Htx) as Hspec.
  destruct (putQuotation id body w) as [r w']. simpl in *. subst r.
  destruct Hspec as [[_ Hrev]|[[H|H] _]]; [|lia|lia].
  destruct Hrev as (q0 & q & _ & Hq & Hrevised & _ & _ & _ & _ & _ & Hp).
  exists q. split; [by rewrite Hq, lookup_insert_eq|].
  destruct Hrevised as (_ & _ & _ & _ & _ & _ & _ & _ & _ & _ & _ & Htot & _).
  rewrite Hb in Htot. simpl in Htot. injection Htot as -> -> ->.
  unfold products_replaced in Hp. rewrite Hb in Hp. done.
Qed.

(** The stored item of 100 stays while the header totals become 0. *)
Lemma C10_witness :
  exists q,
    quotations (committed (putQuotation 7 (sample_body (Some []) None)
                             (sample_world [])).2) !! 7 = Some q
    /\ total_price q = PrimFloat.zero
    /\ total_vat q = PrimFloat.zero
    /\ total_subtotal q = PrimFloat.zero
    /\ quotation_products (committed (putQuotation 7 (sample_body (Some []) None)
                                        (sample_world [])).2)
       = [sample_item]
    /\ numeric (price sample_item) = 100%float.
Proof.
  destruct (C10_empty_products 7 (sample_body (Some []) None) (sample_world [])
              {| code := 200;
                 payload := PRevised "Quotation and products updated successfully"
                                     (js "Q-7 Rev2") |}
              eq_refl eq_refl ltac:(vm_compute; reflexivity) eq_refl)
    as (q & Hq & H1 & H2 & H3 & H4).
  exists q. split_and!; [exact Hq|exact H1|exact H2|exact H3|exact H4|reflexivity].
Defined.

(** ** Handlers without a transaction *)

Arguments guarded : simpl never.

Lemma auto_inv_advance J T c0 ms w :
  0 <= ms -> auto_inv J T c0 w -> auto_inv J T c0 (advance ms w).
Proof. intros Hms (H1 & H2 & H3). split_and!; simpl; [lia|done|done]. Qed.

Lemma only_attempts_refl tr0 s : only_attempts tr0 s tr0.
Proof. exists O. simpl. by rewrite app_nil_r. Qed.

Lemma only_attempts_snoc tr0 s tr :
  only_attempts tr0 s tr -> only_attempts tr0 s (tr ++ [EvQuery s]).
Proof.
  intros [k ->]. exists (S k). rewrite <- app_assoc. f_equal.
  change [EvQuery s] with (repeat (EvQuery s) 1). rewrite <- repeat_app.
  f_equal. lia.
Qed.

(** The first attempt starts from [P]; every later one from [I]. *)
Lemma triple_retry_from {A} (P I : World -> Prop) (fn : M A) Q n d :
  (forall ms w, 0 <= ms -> I w -> I (advance ms w)) -> 0 <= d ->
  triple P fn Q I -> triple I fn Q I -> triple P (executeWithRetry fn n d) Q I.
Proof.
  intros Hadv Hd HP HI w Hw. destruct n as [|n]; simpl.
  - specialize (HP w Hw). by destruct (fn w) as [[a|e] w'].
  - specialize (HP w Hw). destruct (fn w) as [[a|e] w']; [done|].
    apply (triple_retry I fn Q n (d * 2) Hadv ltac:(lia) HI). by apply Hadv.
Qed.

Lemma triple_withTimeout_from {A} (P I : World -> Prop) (p : Promise A) t Q :
  (forall ms w, 0 <= ms -> I w -> I (advance ms w)) -> 0 <= t ->
  (forall w, P w ->
     match p w with
     | (Resolved a false, w') => Q a w'
     | (Resolved a true, w') => I w'
     | (Rejected _, w') => I w'
     end) ->
  triple P (withTimeout p t) Q I.
Proof.
  intros Hadv Ht Hp w Hw. unfold withTimeout. specialize (Hp w Hw).
  destruct (p w) as [[a [|]|e] w']; auto.
Qed.

(** A statement on a pooled connection, under the gateway.  [T0] describes
    the trace before the first attempt, [T] after any attempt. *)
Lemma guarded_pool s (J : Db -> Prop) (T0 T : list Event -> Prop) c0 :
  (forall t db, c0 <= t -> J db -> J (run_stmt t s db).2) ->
  (forall tr, T0 tr -> T (tr ++ [EvQuery s])) ->
  (forall tr, T tr -> T (tr ++ [EvQuery s])) ->
  triple (auto_inv J T0 c0) (guarded (pool_query s))
         (answered s J T c0) (auto_inv J T c0).
Proof.
  intros HJ HT0 HT.
  assert (forall (T1 : list Event -> Prop), (forall tr, T1 tr -> T (tr ++ [EvQuery s])) ->
            forall w, auto_inv J T1 c0 w ->
              match pool_query s w with
              | (Resolved a false, w') => answered s J T c0 a w'
              | (Resolved a true, w') => auto_inv J T c0 w'
              | (Rejected _, w') => auto_inv J T c0 w'
              end) as Hstep.
  { intros T1 HT1 w (Hclk & Hdb & Htr). rewrite pool_query_unfold. cbv zeta.
    destruct (hd Fast (script w)) eqn:Eo;
      destruct (run_stmt (clock w) s (committed w)) as [r db] eqn:Er; simpl.
    - split_and!; [done|by apply HT1|]. exists (committed w), (clock w). by rewrite Er.
    - split_and!; [done| |by apply HT1]. specialize (HJ (clock w) _ Hclk Hdb).
      by rewrite Er in HJ.
    - split_and!; [done|done|by apply HT1]. }
  unfold guarded. apply triple_retry_from; [apply auto_inv_advance|lia| |].
  - apply triple_withTimeout_from; [apply auto_inv_advance|lia|by apply Hstep].
  - apply triple_withTimeout; [apply auto_inv_advance|lia|by apply Hstep].
Qed.

(** The same on the handler's own connection while it is idle. *)
Lemma guarded_client_idle s (J : Db -> Prop) (T0 T : list Event -> Prop) c0 :
  is_data s = true ->
  (forall t db, c0 <= t -> J db -> J (run_stmt t s db).2) ->
  (forall tr, T0 tr -> T (tr ++ [EvQuery s])) ->
  (forall tr, T tr -> T (tr ++ [EvQuery s])) ->
  triple (fun w => tx w = Idle /\ auto_inv J T0 c0 w) (guarded (client_query s))
         (fun r w => tx w = Idle /\ answered s J T c0 r w)
         (fun w => tx w = Idle /\ auto_inv J T c0 w).
Proof.
  intros Hs HJ HT0 HT.
  assert (forall (T1 : list Event -> Prop), (forall tr, T1 tr -> T (tr ++ [EvQuery s])) ->
            forall w, tx w = Idle /\ auto_inv J T1 c0 w ->
              match client_query s w with
              | (Resolved a false, w') => tx w' = Idle /\ answered s J T c0 a w'
              | (Resolved a true, w') => tx w' = Idle /\ auto_inv J T c0 w'
              | (Rejected _, w') => tx w' = Idle /\ auto_inv J T c0 w'
              end) as Hstep.
  { intros T1 HT1 w (Htx & Hclk & Hdb & Htr). rewrite client_query_data by done. cbv zeta.
    rewrite Htx.
    destruct (hd Fast (script w)) eqn:Eo;
      destruct (run_stmt (clock w) s (committed w)) as [r db] eqn:Er; simpl.
    - split; [exact Htx|]. split_and!; [done|by apply HT1|].
      exists (committed w), (clock w). by rewrite Er.
    - split; [exact Htx|]. split_and!; [done| |by apply HT1].
      specialize (HJ (clock w) _ Hclk Hdb). by rewrite Er in HJ.
    - split; [exact Htx|]. split_and!; [done|done|by apply HT1]. }
  assert (forall ms w, 0 <= ms -> tx w = Idle /\ auto_inv J T c0 w ->
                       tx (advance ms w) = Idle /\ auto_inv J T c0 (advance ms w)) as Hadv.
  { intros ms w Hms [Htx Hw]. split; [done|by apply auto_inv_advance]. }
  unfold guarded. apply triple_retry_from; [exact Hadv|lia| |].
  - apply triple_withTimeout_from; [exact Hadv|lia|by apply Hstep].
  - apply triple_withTimeout; [exact Hadv|lia|by apply Hstep].
Qed.

(** *** When the gateway gives up *)

Lemma retry_throws {A} (fn : M A) (Good : World -> Prop) n :
  (forall ms w, Good w -> Good (advance ms w)) ->
  (forall w, Good w ->
     match fn w with
     | (Ret _, _) => True
     | (Throw _, w') =>
         Good w' /\ script w' = tl (script w)
         /\ answered_in_time (hd Fast (script w)) = false
     end) ->
  forall d w, Good w ->
    match executeWithRetry fn n d w with
    | (Ret _, _) => True
    | (Throw _, _) => all_unanswered (S n) (script w) = true
    end.
Proof.
  intros Hadv Hfn. induction n as [|n IH]; intros d w Hw; simpl.
  - specialize (Hfn w Hw). destruct (fn w) as [[a|e] w']; [done|].
    destruct Hfn as (_ & _ & ->). done.
  - specialize (Hfn w Hw). destruct (fn w) as [[a|e] w']; [done|].
    destruct Hfn as (Hg & Hsc & Hun).
    specialize (IH (d * 2) (advance d w') (Hadv _ _ Hg)).
    destruct (executeWithRetry fn n (d * 2) (advance d w')) as [[a|e'] w'']; [done|].
    simpl in IH. rewrite Hsc in IH. rewrite Hun. simpl. exact IH.
Qed.

Lemma guarded_pool_gives_up s w :
  match guarded (pool_query s) w with
  | (Ret _, _) => True
  | (Throw _, _) => gives_up (script w) = true
  end.
Proof.
  apply (retry_throws (withTimeout (pool_query s) 10000) (fun _ => True) 3); [done| |done].
  intros w1 _. unfold withTimeout. rewrite pool_query_unfold. cbv zeta.
  destruct (hd Fast (script w1));
    destruct (run_stmt (clock w1) s (committed w1)) as [r db]; simpl; done.
Qed.

Lemma guarded_client_gives_up s w :
  is_data s = true -> tx w = Idle ->
  match guarded (client_query s) w with
  | (Ret _, _) => True
  | (Throw _, _) => gives_up (script w) = true
  end.
Proof.
  intros Hs Htx.
  apply (retry_throws (withTimeout (client_query s) 10000) (fun w => tx w = Idle) 3);
    [done| |done].
  intros w1 Htx1. unfold withTimeout. rewrite client_query_data by done. cbv zeta.
  rewrite Htx1.
  destruct (hd Fast (script w1));
    destruct (run_stmt (clock w1) s (committed w1)) as [r db]; simpl; done.
Qed.

Lemma guarded_pool_fast s w :
  hd Fast (script w) = Fast ->
  guarded (pool_query s) w
  = (Ret (run_stmt (clock w) s (committed w)).1,
     set_committed (run_stmt (clock w) s (committed w)).2 (issue s w).2).
Proof.
  intros Ho. unfold guarded. simpl. unfold withTimeout. rewrite pool_query_unfold.
  cbv zeta. rewrite Ho. destruct (run_stmt (clock w) s (committed w)). simpl.
  reflexivity.
Qed.

Lemma guarded_client_idle_fast s w :
  is_data s = true -> tx w = Idle -> hd Fast (script w) = Fast ->
  guarded (client_query s) w
  = (Ret (run_stmt (clock w) s (committed w)).1,
     set_committed (run_stmt (clock w) s (committed w)).2 (issue s w).2).
Proof.
  intros Hs Htx Ho. unfold guarded. simpl. unfold withTimeout.
  rewrite client_query_data by done. cbv zeta. rewrite Ho, Htx.
  destruct (run_stmt (clock w) s (committed w)). simpl. by rewrite Htx.
Qed.

(** ** GET /quotations/:id *)

Lemma run_select_joined t db id :
  run_stmt t (SelectQuotationJoined id) db = (result_of (option_list (joined_header db id)), db).
Proof. done. Qed.

Lemma run_select_products t db id :
  run_stmt t (SelectProducts id) db = (result_of (products_of db id), db).
Proof. done. Qed.

Lemma run_select_sales_rep t db oid :
  run_stmt t (SelectSalesRep oid) db = (result_of (option_list (sales_rep db oid)), db).
Proof. done. Qed.

(** A read under the gateway returns what the statement returns on the
    committed database and changes nothing. *)
Lemma guarded_read s db0 (T : list Event -> Prop) c0 :
  (forall t db, run_stmt t s db = ((run_stmt 0 s db).1, db)) ->
  (forall tr, T tr -> T (tr ++ [EvQuery s])) ->
  triple (auto_inv (eq db0) T c0) (guarded (pool_query s))
         (fun r w => r = (run_stmt 0 s db0).1 /\ auto_inv (eq db0) T c0 w)
         (auto_inv (eq db0) T c0).
Proof.
  intros Hro HT. eapply triple_weaken.
  - apply (guarded_pool s (eq db0) T T c0); [|done|done].
    intros t db _ <-. by rewrite Hro.
  - done.
  - intros r w (Hclk & Htr & db & t & Ht & <- & Hc & Hr). rewrite Hro in Hc, Hr.
    simpl in *. split; [done|]. split_and!; done.
  - done.
Qed.

Lemma getQuotation_missing id w :
  joined_header (committed w) id = None ->
  triple (fun w' => w' = w) (getQuotation id)
         (fun resp w' =>
            (code resp = 404 \/ code resp = 500)
            /\ committed w' = committed w
            /\ only_attempts (trace w) (SelectQuotationJoined id) (trace w'))
         (fun _ => False).
Proof.
  intros Hnone. unfold getQuotation.
  eapply triple_try_catch
    with (E1 := auto_inv (eq (committed w))
                  (only_attempts (trace w) (SelectQuotationJoined id)) (clock w)).
  - eapply triple_bind.
    + eapply triple_weaken.
      * apply (guarded_read (SelectQuotationJoined id) (committed w)
                 (only_attempts (trace w) (SelectQuotationJoined id)) (clock w)).
        -- done.
        -- apply only_attempts_snoc.
      * intros w' ->. split_and!; [lia|done|apply only_attempts_refl].
      * intros r w' Hw'. exact Hw'.
      * done.
    + intros r. apply (triple_assume (rows r = [])).
      { intros w' [-> _]. rewrite run_select_joined, Hnone. done. }
      intros ->. apply triple_ret. intros w' (_ & _ & <- & Htr).
      split_and!; [by left|done|done].
  - intros e. apply triple_ret. intros w' (_ & <- & Htr).
    split_and!; [by right|done|done].
Qed.

Lemma getQuotation_found id w row0 :
  joined_header (committed w) id = Some row0 ->
  triple (fun w' => w' = w) (getQuotation id)
         (fun resp w' =>
            (code resp = 500
             \/ resp = {| code := 200;
                          payload := PAggregate row0 (products_of (committed w) id)
                                       (sales_rep (committed w) (row_sales_rep_id row0)) |})
            /\ committed w' = committed w)
         (fun _ => False).
Proof.
  intros Hsome. unfold getQuotation.
  eapply triple_try_catch
    with (E1 := auto_inv (eq (committed w)) (fun _ => True) (clock w)).
  - eapply triple_bind.
    + eapply triple_weaken.
      * apply (guarded_read (SelectQuotationJoined id) (committed w) (fun _ => True) (clock w));
          done.
      * intros w' ->. split_and!; [lia|done|done].
      * intros r w' Hw'. exact Hw'.
      * done.
    + intros r. apply (triple_assume (rows r = [row0])).
      { intros w' [-> _]. rewrite run_select_joined, Hsome. done. }
      intros ->.
      eapply triple_bind.
      { eapply triple_weaken.
        - apply (guarded_read (SelectProducts id) (committed w) (fun _ => True) (clock w));
            done.
        - by intros w' [_ Hw'].
        - intros r2 w' Hw'. exact Hw'.
        - done. }
      intros r2. apply (triple_assume (r2 = result_of (products_of (committed w) id))).
      { by intros w' [-> _]. }
      intros ->.
      eapply triple_bind.
      { eapply triple_weaken.
        - apply (guarded_read (SelectSalesRep (row_sales_rep_id row0)) (committed w)
                   (fun _ => True) (clock w)); done.
        - by intros w' [_ Hw'].
        - intros r3 w' Hw'. exact Hw'.
        - done. }
      intros r3. apply triple_ret. intros w' [-> (_ & <- & _)].
      split; [|done]. right. rewrite run_select_sales_rep. simpl.
      by destruct (sales_rep (committed w) (row_sales_rep_id row0)).
  - intros e. apply triple_ret. intros w' (_ & <- & _). split; [by left|done].
Qed.

(** *** Which attempt is answered *)

Lemma answered_within_gives_up n outcomes :
  answered_within n outcomes = None <-> all_unanswered n outcomes = true.
Proof.
  revert outcomes. induction n as [|n IH]; intros outcomes;
    cbn [answered_within all_unanswered]; [done|].
  destruct (answered_in_time (hd Fast outcomes)); simpl; [done|apply IH].
Qed.

(** The gateway returns as soon as an attempt is answered in time, with
    the script that is left then, and throws when none is. *)
Lemma retry_pool_script s n : forall d w,
  match executeWithRetry (withTimeout (pool_query s) 10000) n d w with
  | (Ret _, w') => answered_within (S n) (script w) = Some (script w')
  | (Throw _, _) => answered_within (S n) (script w) = None
  end.
Proof.
  induction n as [|n IH]; intros d w.
  - cbn [executeWithRetry answered_within]. unfold withTimeout.
    rewrite pool_query_unfold. cbv zeta.
    destruct (hd Fast (script w));
      destruct (run_stmt (clock w) s (committed w)) as [r db]; simpl; done.
  - cbn [executeWithRetry answered_within]. unfold withTimeout at 1.
    rewrite pool_query_unfold. cbv zeta.
    destruct (hd Fast (script w));
      destruct (run_stmt (clock w) s (committed w)) as [r db]; cbn -[executeWithRetry];
      [done| |].
    + match goal with |- context [executeWithRetry _ n ?d' ?w'] =>
        specialize (IH d' w') end.
      destruct (executeWithRetry _ n _ _) as [[a|e] w'']; exact IH.
    + match goal with |- context [executeWithRetry _ n ?d' ?w'] =>
        specialize (IH d' w') end.
      destruct (executeWithRetry _ n _ _) as [[a|e] w'']; exact IH.
Qed.

Lemma guarded_pool_script s w :
  match guarded (pool_query s) w with
  | (Ret _, w') => answered_within 4 (script w) = Some (script w')
  | (Throw _, _) => answered_within 4 (script w) = None
  end.
Proof. apply (retry_pool_script s 3 1000 w). Qed.

Arguments answered_within : simpl never.

(** A read under the gateway, from a known database. *)
Lemma guarded_read_run s w :
  (forall t db, run_stmt t s db = ((run_stmt 0 s db).1, db)) ->
  match guarded (pool_query s) w with
  | (Ret r, w') =>
      r = (run_stmt 0 s (committed w)).1 /\ committed w' = committed w
      /\ answered_within 4 (script w) = Some (script w')
  | (Throw _, w') =>
      committed w' = committed w /\ answered_within 4 (script w) = None
  end.
Proof.
  intros Hro. pose proof (guarded_pool_script s w) as Hs.
  pose proof (guarded_read s (committed w) (fun _ => True) (clock w) Hro
                ltac:(done) w ltac:(split_and!; [lia|done|done])) as Hr.
  destruct (guarded (pool_query s) w) as [[r|e] w'].
  - destruct Hr as (-> & _ & Hc & _). done.
  - destruct Hr as (_ & Hc & _). done.
Qed.

(** The quotation read when the joined header row exists: answered 200
    exactly when none of its three reads is given up, with the row, the
    line items and the sales representative as the tables hold them. *)
Lemma getQuotation_present id w q cid c :
  quotations (committed w) !! id = Some q ->
  client_id q = Some cid ->
  clients (committed w) !! cid = Some c ->
  exists resp,
    (getQuotation id w).1 = Ret resp
    /\ if statements_answered 3 (script w)
       then resp = {| code := 200;
                      payload :=
                        PAggregate
                          (RowJoined id q c
                             match supervisor_id q with
                             | Some sid => supervisors (committed w) !! sid
                             | None => None
                             end)
                          (map RowProduct
                             (List.filter (fun r => quotation_id r =? id)
                                          (quotation_products (committed w))))
                          match sales_rep_id q with
                          | Some rid =>
                              match salesreps (committed w) !! rid with
                              | Some s => Some (RowSalesRep s)
                              | None => None
                              end
                          | None => None
                          end |}
       else code resp = 500.
Proof.
  intros Hq Hcid Hc. unfold getQuotation, try_catch, bind.
  cbn [statements_answered].
  pose proof (guarded_read_run (SelectQuotationJoined id) w ltac:(done)) as H1.
  destruct (guarded (pool_query (SelectQuotationJoined id)) w) as [[r1|e1] w1];
    [|destruct H1 as [_ ->]; by eexists].
  destruct H1 as (-> & Hc1 & ->). cbn [statements_answered].
  rewrite run_select_joined. unfold joined_header. rewrite Hq, Hcid. simpl. rewrite Hc.
  simpl.
  pose proof (guarded_read_run (SelectProducts id) w1 ltac:(done)) as H2.
  destruct (guarded (pool_query (SelectProducts id)) w1) as [[r2|e2] w2];
    [|destruct H2 as [_ ->]; by eexists].
  destruct H2 as (-> & Hc2 & ->). cbn [statements_answered].
  pose proof (guarded_read_run (SelectSalesRep (sales_rep_id q)) w2 ltac:(done)) as H3.
  destruct (guarded (pool_query (SelectSalesRep (sales_rep_id q))) w2) as [[r3|e3] w3];
    [|destruct H3 as [_ ->]; by eexists].
  destruct H3 as (-> & Hc3 & ->). cbn [statements_answered].
  eexists. split; [reflexivity|]. rewrite Hc2, Hc1.
  rewrite run_select_products, run_select_sales_rep. unfold products_of, sales_rep.
  simpl. f_equal. f_equal.
  destruct (sales_rep_id q) as [rid|]; simpl; [|done].
  by destruct (salesreps (committed w) !! rid).
Qed.

(** ... and when it does not: answered 404 exactly when the header read is
    not given up. *)
Lemma getQuotation_not_found id w :
  joined_header (committed w) id = None ->
  exists resp,
    (getQuotation id w).1 = Ret resp
    /\ (code resp = 404 \/ code resp = 500)
    /\ (code resp = 404 <-> gives_up (script w) = false).
Proof.
  intros Eh. unfold getQuotation, try_catch, bind.
  pose proof (guarded_read_run (SelectQuotationJoined id) w ltac:(done)) as H1.
  destruct (guarded (pool_query (SelectQuotationJoined id)) w) as [[r1|e1] w1].
  - destruct H1 as (-> & _ & Hs). rewrite run_select_joined, Eh. simpl.
    eexists. split; [reflexivity|]. simpl. split; [by left|]. split; [|done].
    intros _. unfold gives_up. apply not_true_iff_false.
    rewrite <- answered_within_gives_up. by rewrite Hs.
  - destruct H1 as [_ Hs]. eexists. split; [reflexivity|]. simpl. split; [by right|].
    apply answered_within_gives_up in Hs. unfold gives_up. rewrite Hs. split; [lia|done].
Qed.

Lemma joined_header_none db id :
  quotations db !! id = None
  \/ (exists q, quotations db !! id = Some q
                /\ (client_id q = None
                    \/ exists cid, client_id q = Some cid /\ clients db !! cid = None)) ->
  joined_header db id = None.
Proof.
  unfold joined_header. intros [->|(q & -> & [->|(cid & -> & Hc)])]; [done|done|].
  simpl. by rewrite Hc.
Qed.

(** C6.  Reading a quotation changes nothing.  If the joined header read
    has no row for the id - there is no quotation with that id, or the
    quotation has no client - the answer is not-found, or the internal
    error exactly when the gateway gives up on that read, and the only
    statements issued are attempts of the header read: neither the
    line-item read nor the sales-representative read is performed.  If the
    header row exists, the answer is 200, or the internal error exactly
    when the gateway gives up on one of the three reads; a 200 answer
    carries the header row, the line items of the quotation in stored
    order, and as salesRep the referenced sales representative when it
    exists and null when the reference is null or dangling. *)
Theorem C6_aggregate_read (id : Z) (w : World) :
  committed (getQuotation id w).2 = committed w
  /\ exists resp,
       (getQuotation id w).1 = Ret resp
       /\ (quotations (committed w) !! id = None
           \/ (exists q, quotations (committed w) !! id = Some q
                 /\ (client_id q = None
                     \/ exists cid, client_id q = Some cid
                                    /\ clients (committed w) !! cid = None)) ->
           (code resp = 404 \/ code resp = 500)
           /\ (code resp = 404 <-> gives_up (script w) = false)
           /\ only_attempts (trace w) (SelectQuotationJoined id)
                            (trace (getQuotation id w).2))
       /\ (forall q cid c,
             quotations (committed w) !! id = Some q ->
             client_id q = Some cid ->
             clients (committed w) !! cid = Some c ->
             (code resp = 200 \/ code resp = 500)
             /\ (code resp = 200 <-> statements_answered 3 (script w) = true)
             /\ (code resp = 200 ->
                 payload resp
                 = PAggregate
                     (RowJoined id q c
                        match supervisor_id q with
                        | Some sid => supervisors (committed w) !! sid
                        | None => None
                        end)
                     (map RowProduct
                        (List.filter (fun r => quotation_id r =? id)
                                     (quotation_products (committed w))))
                     match sales_rep_id q with
                     | Some rid =>
                         match salesreps (committed w) !! rid with
                         | Some s => Some (RowSalesRep s)
                         | None => None
                         end
                     | None => None
                     end)).
Proof.
  assert (committed (getQuotation id w).2 = committed w
          /\ exists resp, (getQuotation id w).1 = Ret resp) as [Hsame [resp Hresp]].
  { destruct (joined_header (committed w) id) as [row0|] eqn:Eh.
    - pose proof (getQuotation_found id w row0 Eh w eq_refl) as Hspec.
      destruct (getQuotation id w) as [[resp|e] w']; simpl in *; [|done].
      destruct Hspec as [_ Hc]. eauto.
    - pose proof (getQuotation_missing id w Eh w eq_refl) as Hspec.
      destruct (getQuotation id w) as [[resp|e] w']; simpl in *; [|done].
      destruct Hspec as (_ & Hc & _). eauto. }
  split; [exact Hsame|]. exists resp. split; [exact Hresp|]. split.
  - intros Hnone%joined_header_none.
    destruct (getQuotation_not_found id w Hnone) as (resp' & Hr & Hcode & Hiff).
    rewrite Hresp in Hr. injection Hr as <-. split_and!; [done|done|].
    pose proof (getQuotation_missing id w Hnone w eq_refl) as Hspec.
    destruct (getQuotation id w) as [[r|e] w']; simpl in *; [|done].
    by destruct Hspec as (_ & _ & Htr).
  - intros q cid c Hq Hcid Hc.
    destruct (getQuotation_present id w q cid c Hq Hcid Hc) as (resp' & Hr & Hcase).
    rewrite Hresp in Hr. injection Hr as <-.
    destruct (statements_answered 3 (script w)).
    + subst resp. simpl. split_and!; [by left|done|done].
    + split_and!; [by right|split; [lia|done]|lia].
Qed.

(** The sample quotation 7 is read back with its item and its sales
    representative; there is no quotation 8. *)
Lemma C6_witness :
  (exists resp,
     (getQuotation 7 (sample_world [])).1 = Ret resp
     /\ code resp = 200
     /\ payload resp
        = PAggregate (RowJoined 7 sample_quotation sample_client None)
                     [RowProduct sample_item] (Some (RowSalesRep sample_rep)))
  /\ (exists resp,
        (getQuotation 8 (sample_world [])).1 = Ret resp /\ code resp = 404).
Proof.
  split.
  - destruct (C6_aggregate_read 7 (sample_world [])) as (_ & resp & Hr & _ & Hfound).
    destruct (Hfound sample_quotation 1 sample_client
                ltac:(vm_compute; reflexivity) eq_refl ltac:(vm_compute; reflexivity))
      as (_ & Hiff & Hpay).
    exists resp. split; [exact Hr|].
    assert (code resp = 200) as Hcode by (apply Hiff; vm_compute; reflexivity).
    split; [exact Hcode|]. rewrite (Hpay Hcode). vm_compute. reflexivity.
  - destruct (C6_aggregate_read 8 (sample_world [])) as (_ & resp & Hr & Hnone & _).
    destruct (Hnone ltac:(left; vm_compute; reflexivity)) as (_ & Hiff & _).
    exists resp. split; [exact Hr|]. apply Hiff. vm_compute. reflexivity.
Defined.

(** ** PUT /quotations/:id/export *)

Lemma run_mark_exported t db id :
  run_stmt t (MarkExported id) db =
  match quotations db !! id with
  | Some q => (result_of [RowExported id true],
               set_quotations (<[id := exported_row t q]> (quotations db)) db)
  | None => (result_of [], db)
  end.
Proof. done. Qed.

Lemma exportQuotation_present id w q :
  tx w = Idle -> quotations (committed w) !! id = Some q ->
  triple (fun w' => w' = w) (exportQuotation id)
         (fun resp w' =>
            code resp = 500
            \/ (resp = {| code := 200;
                          payload := PExported "Quotation marked as exported"
                                               (Some (RowExported id true)) |}
                /\ marked_exported id q (clock w) (committed w) (committed w')))
         (fun _ => False).
Proof.
  intros Htx Hq. unfold exportQuotation.
  set (J := fun db => db = committed w \/ marked_exported id q (clock w) (committed w) db).
  assert (forall t db, clock w <= t -> J db ->
            run_stmt t (MarkExported id) db
            = (result_of [RowExported id true],
               set_quotations (<[id := exported_row t q]> (quotations (committed w)))
                              (committed w))) as Hrun.
  { intros t db Ht [->|(t' & Ht' & ->)]; rewrite run_mark_exported.
    - by rewrite Hq.
    - simpl. rewrite lookup_insert_eq. unfold set_quotations. simpl.
      by rewrite insert_insert_eq. }
  eapply triple_try_catch
    with (E1 := fun w' => tx w' = Idle /\ auto_inv J (fun _ => True) (clock w) w').
  - eapply triple_bind.
    + eapply triple_weaken.
      * apply (guarded_client_idle (MarkExported id) J (fun _ => True) (fun _ => True)
                 (clock w)); [done| |done|done].
        intros t db Ht HJ. rewrite (Hrun t db Ht HJ). right. by exists t.
      * intros w' ->. split; [done|]. split_and!; [lia|by left|done].
      * intros r w' Hw'. exact Hw'.
      * done.
    + intros r. apply (triple_assume (r = result_of [RowExported id true])).
      { intros w' (_ & _ & _ & db & t & Ht & HJ & _ & ->). by rewrite (Hrun t db Ht HJ). }
      intros ->. simpl. apply triple_ret.
      intros w' (_ & _ & _ & db & t & Ht & HJ & Hc & _).
      rewrite (Hrun t db Ht HJ) in Hc. simpl in Hc. right. split; [done|].
      exists t. done.
  - intros e. apply triple_ret. intros w' _. by left.
Qed.

Lemma exportQuotation_absent id w :
  tx w = Idle -> quotations (committed w) !! id = None ->
  triple (fun w' => w' = w) (exportQuotation id)
         (fun resp w' => (code resp = 404 \/ code resp = 500) /\ committed w' = committed w)
         (fun _ => False).
Proof.
  intros Htx Hq. unfold exportQuotation.
  assert (forall t, run_stmt t (MarkExported id) (committed w) = (result_of [], committed w))
    as Hrun.
  { intros t. by rewrite run_mark_exported, Hq. }
  eapply triple_try_catch
    with (E1 := fun w' => tx w' = Idle
                          /\ auto_inv (eq (committed w)) (fun _ => True) (clock w) w').
  - eapply triple_bind.
    + eapply triple_weaken.
      * apply (guarded_client_idle (MarkExported id) (eq (committed w))
                 (fun _ => True) (fun _ => True) (clock w)); [done| |done|done].
        intros t db Ht <-. by rewrite Hrun.
      * intros w' ->. split; [done|]. split_and!; [lia|done|done].
      * intros r w' Hw'. exact Hw'.
      * done.
    + intros r. apply (triple_assume (r = result_of [])).
      { intros w' (_ & _ & _ & db & t & Ht & <- & _ & ->). by rewrite Hrun. }
      intros ->. simpl. apply triple_ret.
      intros w' (_ & _ & _ & db & t & Ht & <- & Hc & _).
      rewrite Hrun in Hc. simpl in Hc. split; [by left|done].
  - intros e. apply triple_ret. intros w' (_ & _ & <- & _). split; [by right|done].
Qed.

Lemma exportQuotation_answered id w :
  tx w = Idle -> gives_up (script w) = false ->
  exists resp, (exportQuotation id w).1 = Ret resp /\ code resp <> 500.
Proof.
  intros Htx Hg. unfold exportQuotation, try_catch, bind.
  pose proof (guarded_client_gives_up (MarkExported id) w eq_refl Htx) as Hgu.
  destruct (guarded (client_query (MarkExported id)) w) as [[r|e] w1]; [|congruence].
  destruct (rowCount r =? 0)%nat; simpl; eexists; (split; [done|]); simpl; lia.
Qed.

(** C7.  Marking a quotation exported, on an idle connection.  If the row
    exists the answer is success - or the internal error when the gateway
    gives up - and on success the stored row is the old one with exported
    set to true and updated_at refreshed to a time not before the request;
    for a row already exported this leaves the exported flag as it was.
    If no row exists the answer is not-found and nothing changes. *)
Theorem C7_export_marker (id : Z) (w : World) :
  tx w = Idle ->
  exists resp,
    (exportQuotation id w).1 = Ret resp
    /\ match quotations (committed w) !! id with
       | Some q =>
           (code resp = 200 \/ code resp = 500)
           /\ (gives_up (script w) = false -> code resp = 200)
           /\ (code resp = 200 ->
               payload resp = PExported "Quotation marked as exported"
                                        (Some (RowExported id true))
               /\ exists t,
                    clock w <= t
                    /\ committed (exportQuotation id w).2
                       = set_quotations (<[id := exported_row t q]> (quotations (committed w)))
                                        (committed w)
                    /\ exported (exported_row t q) = true
                    /\ updated_at (exported_row t q) = t
                    /\ (exported q = true -> exported (exported_row t q) = exported q))
       | None =>
           (code resp = 404 \/ code resp = 500)
           /\ (gives_up (script w) = false -> code resp = 404)
           /\ committed (exportQuotation id w).2 = committed w
       end.
Proof.
  intros Htx. pose proof (exportQuotation_answered id w Htx) as Hans.
  destruct (quotations (committed w) !! id) as [q|] eqn:Eq.
  - pose proof (exportQuotation_present id w q Htx Eq w eq_refl) as Hspec.
    destruct (exportQuotation id w) as [[resp|e] w']; simpl in *; [|done].
    exists resp. split; [done|]. split_and!.
    + destruct Hspec as [?|[-> _]]; [by right|by left].
    + intros Hg. destruct (Hans Hg) as (resp' & [= <-] & Hne).
      destruct Hspec as [?|[-> _]]; [done|done].
    + intros Hc. destruct Hspec as [?|[-> (t & Ht & Hdb)]]; [lia|].
      split; [done|]. exists t. split_and!; done.
  - pose proof (exportQuotation_absent id w Htx Eq w eq_refl) as Hspec.
    destruct (exportQuotation id w) as [[resp|e] w']; simpl in *; [|done].
    exists resp. split; [done|]. destruct Hspec as [Hcode Hc]. split_and!; [done| |done].
    intros Hg. destruct (Hans Hg) as (resp' & [= <-] & Hne). lia.
Qed.

(** Exporting the sample quotation twice: both answers are 200, and the
    second leaves the exported flag true. *)
Lemma C7_witness :
  exists resp,
    (exportQuotation 7 (exportQuotation 7 (sample_world [])).2).1 = Ret resp
    /\ code resp = 200
    /\ exported <$> quotations (committed (exportQuotation 7 (sample_world [])).2) !! 7
       = Some true
    /\ exported <$> quotations
         (committed (exportQuotation 7 (exportQuotation 7 (sample_world [])).2).2) !! 7
       = Some true.
Proof.
  destruct (C7_export_marker 7 (exportQuotation 7 (sample_world [])).2 eq_refl)
    as (resp & Hr & Hrest).
  exists resp. split; [exact Hr|].
  vm_compute in Hr. injection Hr as <-. split_and!; by vm_compute.
Defined.

(** ** DELETE /quotations/:id *)

Lemma run_delete_products t db id :
  run_stmt t (DeleteProducts id) db
  = (affected (length (List.filter (of_quotation id) (quotation_products db))),
     set_products (List.filter (other_quotation id) (quotation_products db)) db).
Proof. done. Qed.

Lemma run_delete_quotation t db id :
  run_stmt t (DeleteQuotation id) db
  = match quotations db !! id with
    | Some _ => (affected 1, set_quotations (delete id (quotations db)) db)
    | None => (affected 0, db)
    end.
Proof. done. Qed.

Lemma not_of_quotation_filter id l r :
  In r (List.filter (other_quotation id) l) -> quotation_id r <> id.
Proof.
  intros [_ Hr]%filter_In. unfold other_quotation, of_quotation in Hr.
  apply negb_true_iff, Z.eqb_neq in Hr. done.
Qed.

Section Delete.
Variables (id : Z) (w : World).

(** While the line-item delete is being attempted. *)
Let J1 (db : Db) : Prop :=
  quotations db = quotations (committed w)
  /\ same_side_tables (committed w) db
  /\ (quotation_products db = quotation_products (committed w)
      \/ quotation_products db
         = List.filter (other_quotation id) (quotation_products (committed w))).

(** While the header delete is being attempted. *)
Let J2 (db : Db) : Prop :=
  quotation_products db = List.filter (other_quotation id) (quotation_products (committed w))
  /\ same_side_tables (committed w) db
  /\ (quotations db = quotations (committed w)
      \/ quotations db = delete id (quotations (committed w))).

Let T1 (tr : list Event) : Prop :=
  exists k : nat, tr = trace w ++ repeat (EvQuery (DeleteProducts id)) (S k).

Lemma delete_products_J2 t db : J1 db -> J2 (run_stmt t (DeleteProducts id) db).2.
Proof.
  intros (Hq & Hs & Hp). rewrite run_delete_products. simpl. split_and!; [|done|by left].
  destruct Hp as [->| ->]; [done|apply filter_filter_same].
Qed.

Lemma delete_quotation_done t db :
  J2 db ->
  deleted_from id (committed w) (run_stmt t (DeleteQuotation id) db).2
  /\ (rowCount (run_stmt t (DeleteQuotation id) db).1 <> O ->
      is_Some (quotations (committed w) !! id)).
Proof.
  intros (Hp & Hs & Hq). rewrite run_delete_quotation.
  destruct (quotations db !! id) as [q|] eqn:Eq; simpl.
  - destruct Hq as [Hq|Hq]; rewrite Hq in Eq.
    + split; [|by rewrite Eq]. split_and!; [by rewrite Hq|done|done].
    + by rewrite lookup_delete_eq in Eq.
  - split; [|done]. split_and!; [|done|done].
    destruct Hq as [Hq|Hq]; [|done]. rewrite Hq in *. by rewrite delete_id.
Qed.

Lemma T1_delete_trace tr : T1 tr -> delete_trace (trace w) id tr.
Proof. intros [k ->]. exists k, O. simpl. by rewrite app_nil_r. Qed.

Lemma delete_trace_snoc tr :
  delete_trace (trace w) id tr -> delete_trace (trace w) id (tr ++ [EvQuery (DeleteQuotation id)]).
Proof.
  intros (k & m & ->). exists k, (S m). rewrite <- !app_assoc. do 2 f_equal.
  change [EvQuery (DeleteQuotation id)] with (repeat (EvQuery (DeleteQuotation id)) 1).
  rewrite <- repeat_app. f_equal. lia.
Qed.

Lemma deleteQuotation_spec :
  triple (fun w' => w' = w) (deleteQuotation id)
         (fun resp w' =>
            delete_trace (trace w) id (trace w')
            /\ (code resp = 500
                \/ ((code resp = 200 \/ code resp = 404)
                    /\ deleted_from id (committed w) (committed w')
                    /\ (code resp = 200 -> is_Some (quotations (committed w) !! id)))))
         (fun _ => False).
Proof.
  unfold deleteQuotation.
  eapply triple_try_catch with (E1 := fun w' => delete_trace (trace w) id (trace w')).
  - eapply triple_bind.
    + eapply triple_weaken.
      * apply (guarded_pool (DeleteProducts id) J1 (eq (trace w)) T1 (clock w)).
        -- intros t db _ (Hq & Hs & Hp). rewrite run_delete_products. simpl.
           split_and!; [done|done|]. right.
           destruct Hp as [->| ->]; [done|apply filter_filter_same].
        -- intros tr <-. by exists O.
        -- intros tr [k ->]. exists (S k). rewrite <- app_assoc. f_equal.
           change [EvQuery (DeleteProducts id)]
             with (repeat (EvQuery (DeleteProducts id)) 1).
           rewrite <- repeat_app. f_equal. lia.
      * intros w' ->. split_and!; [lia| |done]. split_and!; [done|done|by left].
      * intros r w' Hw'. exact Hw'.
      * intros w' (_ & _ & Htr). by apply T1_delete_trace.
    + intros r1. eapply triple_bind.
      * eapply triple_weaken.
        -- apply (guarded_pool (DeleteQuotation id) J2 T1 (delete_trace (trace w) id)
                    (clock w)).
           ++ intros t db _ HJ. destruct (delete_quotation_done t db HJ) as [(Hq & Hp & Hs) _].
              split_and!; [done|done|by right].
           ++ intros tr Htr. by apply delete_trace_snoc, T1_delete_trace.
           ++ apply delete_trace_snoc.
        -- intros w' (Hclk & Htr & db & t & Ht & HJ & Hc & _).
           split_and!; [done| |done]. rewrite Hc. by apply delete_products_J2.
        -- intros r w' Hw'. exact Hw'.
        -- by intros w' (_ & _ & Htr).
      * intros r2. destruct (rowCount r2 =? 0)%nat eqn:Erc.
        -- apply triple_ret. intros w' (_ & Htr & db & t & _ & HJ & Hc & _).
           split; [done|]. right. split_and!; [by right| |done].
           rewrite Hc. by apply delete_quotation_done.
        -- apply triple_ret. intros w' (_ & Htr & db & t & _ & HJ & Hc & ->).
           split; [done|]. right. destruct (delete_quotation_done t db HJ) as [Hd Hex].
           split_and!; [by left|by rewrite Hc|]. intros _. apply Hex.
           by apply Nat.eqb_neq.
  - intros e. apply triple_ret. intros w' Htr. split; [done|by left].
Qed.

(** The line-item delete leaves the header rows alone, however its
    attempts go. *)
Lemma guarded_delete_products_run w1 :
  match guarded (pool_query (DeleteProducts id)) w1 with
  | (Ret _, w') =>
      quotations (committed w') = quotations (committed w1)
      /\ answered_within 4 (script w1) = Some (script w')
  | (Throw _, _) => answered_within 4 (script w1) = None
  end.
Proof.
  pose proof (guarded_pool_script (DeleteProducts id) w1) as Hs.
  pose proof (guarded_pool (DeleteProducts id)
                (fun db => quotations db = quotations (committed w1))
                (fun _ => True) (fun _ => True) (clock w1)
                ltac:(by intros t db _ Hdb) ltac:(done) ltac:(done) w1
                ltac:(split_and!; [lia|done|done])) as Hq.
  destruct (guarded (pool_query (DeleteProducts id)) w1) as [[r|e] w']; [|done].
  split; [|done]. destruct Hq as (_ & _ & db & t & _ & Hdb & -> & _). done.
Qed.

(** The header delete under the gateway: the attempt that is answered
    finds the row only if it was there and no earlier attempt, completed
    too late, has removed it already. *)
Lemma retry_delete_quotation n : forall d w1,
  match executeWithRetry (withTimeout (pool_query (DeleteQuotation id)) 10000) n d w1 with
  | (Ret r, w') =>
      answered_within (S n) (script w1) = Some (script w')
      /\ rowCount r = match quotations (committed w1) !! id with
                      | Some _ => if late_before_answer (S n) (script w1) then O else 1%nat
                      | None => O
                      end
  | (Throw _, _) => answered_within (S n) (script w1) = None
  end.
Proof.
  induction n as [|n IH]; intros d w1.
  - cbn [executeWithRetry late_before_answer]. unfold withTimeout, answered_within.
    rewrite pool_query_unfold. cbv zeta. rewrite run_delete_quotation.
    destruct (hd Fast (script w1)); destruct (quotations (committed w1) !! id); simpl; done.
  - cbn [executeWithRetry]. unfold withTimeout at 1.
    rewrite pool_query_unfold. cbv zeta. rewrite run_delete_quotation.
    change (answered_within (S (S n)) (script w1))
      with (if answered_in_time (hd Fast (script w1)) then Some (tl (script w1))
            else answered_within (S n) (tl (script w1))).
    change (late_before_answer (S (S n)) (script w1))
      with (match hd Fast (script w1) with
            | Fast => false
            | Slow => true
            | Fails => late_before_answer (S n) (tl (script w1))
            end).
    destruct (hd Fast (script w1)) eqn:Eo.
    + destruct (quotations (committed w1) !! id); simpl; done.
    + destruct (quotations (committed w1) !! id) as [q|] eqn:Eq;
        cbn -[executeWithRetry answered_within late_before_answer].
      * match goal with |- context [executeWithRetry _ n ?d' ?w'] =>
          specialize (IH d' w') end.
        destruct (executeWithRetry _ n _ _) as [[a|e] w'']; [|exact IH].
        destruct IH as [Hs Hrc]. split; [exact Hs|].
        simpl in Hrc. by rewrite lookup_delete_eq in Hrc.
      * match goal with |- context [executeWithRetry _ n ?d' ?w'] =>
          specialize (IH d' w') end.
        destruct (executeWithRetry _ n _ _) as [[a|e] w'']; [|exact IH].
        destruct IH as [Hs Hrc]. split; [exact Hs|].
        simpl in Hrc. by rewrite Eq in Hrc.
    + cbn -[executeWithRetry answered_within late_before_answer].
      match goal with |- context [executeWithRetry _ n ?d' ?w'] =>
        specialize (IH d' w') end.
      destruct (executeWithRetry _ n _ _) as [[a|e] w'']; exact IH.
Qed.

(** The answer of the deleter, for every script. *)
Lemma deleteQuotation_code :
  exists resp,
    (deleteQuotation id w).1 = Ret resp
    /\ code resp = match answered_within 4 (script w) with
                   | None => 500
                   | Some rest =>
                       match answered_within 4 rest with
                       | None => 500
                       | Some _ =>
                           match quotations (committed w) !! id with
                           | Some _ => if late_before_answer 4 rest then 404 else 200
                           | None => 404
                           end
                       end
                   end.
Proof.
  unfold deleteQuotation, try_catch, bind.
  pose proof (guarded_delete_products_run w) as H1.
  destruct (guarded (pool_query (DeleteProducts id)) w) as [[r1|e1] w1];
    [|rewrite H1; by eexists].
  destruct H1 as [Hq ->].
  pose proof (retry_delete_quotation 3 1000 w1) as H2. fold (guarded (pool_query (DeleteQuotation id))) in H2.
  destruct (guarded (pool_query (DeleteQuotation id)) w1) as [[r2|e2] w2];
    [|rewrite H2; by eexists].
  destruct H2 as [-> Hrc]. rewrite Hq in Hrc. rewrite Hrc.
  destruct (quotations (committed w) !! id); [|by eexists].
  destruct (late_before_answer 4 (script w1)); by eexists.
Qed.

End Delete.

(** C8.  The deleter first issues the line-item delete for the id - at
    least once, whether or not a header row exists - and only then the
    header delete.  For every script of outcomes its answer is fixed: the
    internal error exactly when the gateway gives up on one of the two
    statements, and otherwise not-found exactly when the header delete
    that is answered affects no row: the row was absent from the start,
    or an earlier attempt of the same delete, completed too late to be
    seen, has removed it already.  So 200 is answered only if the header
    row existed.  Whenever the answer is not the internal error, the
    header row and every line item of the id are gone, nothing else has
    changed, and a read of the same id afterwards answers not-found (or
    the internal error if the gateway gives up on it). *)
Theorem C8_delete (id : Z) (w : World) :
  exists resp,
    (deleteQuotation id w).1 = Ret resp
    /\ delete_trace (trace w) id (trace (deleteQuotation id w).2)
    /\ (code resp = 200 \/ code resp = 404 \/ code resp = 500)
    /\ (code resp = 200 -> is_Some (quotations (committed w) !! id))
    /\ code resp = match answered_within 4 (script w) with
                   | None => 500
                   | Some rest =>
                       match answered_within 4 rest with
                       | None => 500
                       | Some _ =>
                           match quotations (committed w) !! id with
                           | Some _ => if late_before_answer 4 rest then 404 else 200
                           | None => 404
                           end
                       end
                   end
    /\ (code resp <> 500 ->
        deleted_from id (committed w) (committed (deleteQuotation id w).2)
        /\ (forall r, In r (quotation_products (committed (deleteQuotation id w).2)) ->
                      quotation_id r <> id)
        /\ forall w2, committed w2 = committed (deleteQuotation id w).2 ->
             exists resp2,
               (getQuotation id w2).1 = Ret resp2
               /\ (code resp2 = 404 \/ code resp2 = 500)
               /\ (gives_up (script w2) = false -> code resp2 = 404)).
Proof.
  pose proof (deleteQuotation_spec id w w eq_refl) as Hspec.
  destruct (deleteQuotation_code id w) as (resp' & Hr & Hcode).
  destruct (deleteQuotation id w) as [[resp|e] w']; simpl in *; [|done].
  injection Hr as <-.
  destruct Hspec as [Htr Hcases]. exists resp. split_and!; [done|done| | |done|].
  - destruct Hcases as [?|[[?|?] _]]; auto.
  - intros Hc. destruct Hcases as [?|(_ & _ & Hex)]; [lia|by apply Hex].
  - intros Hne. destruct Hcases as [?|(_ & Hdel & _)]; [done|].
    split; [done|]. destruct Hdel as (Hq & Hp & Hs). split.
    + intros r Hr. rewrite Hp in Hr. by eapply not_of_quotation_filter.
    + intros w2 Hw2.
      destruct (getQuotation_not_found id w2) as (resp2 & Hr2 & Hc2 & Hiff).
      { unfold joined_header. by rewrite Hw2, Hq, lookup_delete_eq. }
      exists resp2. split_and!; [done|done|apply Hiff].
Qed.

(** Quotation 7 exists.  When the first attempt of the line-item delete is
    late, the answer is still 200; when the first attempt of the header
    delete is late, that attempt removes the row and the retry, which is
    answered, finds none: the answer is 404 and the quotation is gone. *)
Lemma C8_witness :
  (exists resp,
     (deleteQuotation 7 (sample_world [Slow; Fast; Fast])).1 = Ret resp /\ code resp = 200)
  /\ (exists resp,
        (deleteQuotation 7 (sample_world [Fast; Slow; Fast])).1 = Ret resp
        /\ code resp = 404
        /\ quotations (committed (deleteQuotation 7 (sample_world [Fast; Slow; Fast])).2) !! 7
           = None).
Proof.
  split.
  - destruct (C8_delete 7 (sample_world [Slow; Fast; Fast]))
      as (resp & Hr & _ & _ & _ & Hcode & _).
    exists resp. split; [exact Hr|]. rewrite Hcode. vm_compute. reflexivity.
  - destruct (C8_delete 7 (sample_world [Fast; Slow; Fast]))
      as (resp & Hr & _ & _ & _ & Hcode & _).
    exists resp. split; [exact Hr|]. split; [rewrite Hcode|]; vm_compute; reflexivity.
Defined.

(** ** POST /drivers *)

(** *** What the two patterns accept *)

Lemma accepts_at_least p n : forall s,
  RegExp.accepts (RegExp.AtLeast n (RegExp.Chr p)) s
  <-> (n <= length s)%nat /\ Forall (fun c => p c = true) s.
Proof.
  induction n as [|n IH]; intros s; simpl.
  - rewrite RegExpFacts.accepts_star_chr. split; [intros H; split; [lia|done]|by intros [_ H]].
  - rewrite RegExpFacts.accepts_seq. split.
    + intros (s1 & s2 & -> & (c & -> & Hc)%RegExpFacts.accepts_chr & [Hn Hall]%IH).
      simpl. split; [lia|by constructor].
    + intros [Hn Hall]. destruct s as [|c s]; [simpl in Hn; lia|].
      inversion Hall; subst. exists [c], s. split; [done|]. split.
      * apply RegExpFacts.accepts_chr. eauto.
      * apply IH. simpl in Hn. split; [lia|done].
Qed.

Lemma not_space_or_at_spec ch :
  not_space_or_at ch = true <-> RegExp.is_space ch = false /\ ch <> "@"%char.
Proof.
  unfold not_space_or_at. rewrite negb_true_iff, orb_false_iff.
  split; intros [H1 H2]; (split; [done|]).
  - intros ->. by rewrite Ascii.eqb_refl in H2.
  - by apply Ascii.eqb_neq.
Qed.

Lemma emailRegex_test s : RegExp.test emailRegex s = true <-> address_shaped s.
Proof.
  assert (forall l, Forall (fun ch => not_space_or_at ch = true) l
                    <-> Forall (fun ch => RegExp.is_space ch = false /\ ch <> "@"%char) l)
    as Hcls.
  { intros l. split; intros H; (eapply Forall_impl; [exact H|]); intros ch; apply not_space_or_at_spec. }
  rewrite RegExpFacts.test_accepts. unfold emailRegex, address_shaped. split.
  - intros (a & r1 & -> & [Ha Haa]%RegExpFacts.accepts_plus_chr & H)%RegExpFacts.accepts_seq.
    apply RegExpFacts.accepts_seq in H
      as (x & r2 & -> & (ch & -> & Hch)%RegExpFacts.accepts_chr & H).
    apply Ascii.eqb_eq in Hch as <-.
    apply RegExpFacts.accepts_seq in H
      as (b & r3 & -> & [Hb Hbb]%RegExpFacts.accepts_plus_chr & H).
    apply RegExpFacts.accepts_seq in H
      as (y & c & -> & (ch & -> & Hch)%RegExpFacts.accepts_chr
          & [Hc Hcc]%RegExpFacts.accepts_plus_chr).
    apply Ascii.eqb_eq in Hch as <-.
    exists a, b, c. split_and!; try done. apply Hcls. by rewrite !Forall_app.
  - intros (a & b & c & -> & Ha & Hb & Hc & Hall). apply Hcls in Hall.
    apply Forall_app in Hall as [Haa Hall]. apply Forall_app in Hall as [Hbb Hcc].
    apply RegExpFacts.accepts_seq. exists a, (js "@" ++ b ++ js "." ++ c).
    split; [done|]. split; [by apply RegExpFacts.accepts_plus_chr|].
    apply RegExpFacts.accepts_seq. exists (js "@"), (b ++ js "." ++ c).
    split; [done|]. split; [apply RegExpFacts.accepts_chr; by exists "@"%char|].
    apply RegExpFacts.accepts_seq. exists b, (js "." ++ c).
    split; [done|]. split; [by apply RegExpFacts.accepts_plus_chr|].
    apply RegExpFacts.accepts_seq. exists (js "."), c.
    split; [done|]. split; [apply RegExpFacts.accepts_chr; by exists "."%char|].
    by apply RegExpFacts.accepts_plus_chr.
Qed.

Lemma phone_char_spec ch :
  phone_char ch = true
  <-> RegExp.is_digit ch = true \/ RegExp.is_space ch = true \/ ch = "-"%char.
Proof.
  unfold phone_char. rewrite !orb_true_iff, Ascii.eqb_eq. tauto.
Qed.

Lemma phoneRegex_test s : RegExp.test phoneRegex s = true <-> phone_shaped s.
Proof.
  assert (forall l, Forall (fun ch => phone_char ch = true) l
                    <-> Forall (fun ch => RegExp.is_digit ch = true
                                          \/ RegExp.is_space ch = true
                                          \/ ch = "-"%char) l) as Hcls.
  { intros l. split; intros H; (eapply Forall_impl; [exact H|]); intros ch; apply phone_char_spec. }
  rewrite RegExpFacts.test_accepts. unfold phoneRegex, RegExp.Opt, phone_shaped.
  rewrite RegExpFacts.accepts_seq. split.
  - intros (s1 & digits & -> & H1 & [Hn Hall]%accepts_at_least).
    exists digits. split; [|split; [done|by apply Hcls]].
    apply RegExpFacts.accepts_alt in H1 as [->%RegExpFacts.accepts_eps|H1]; [by left|].
    apply RegExpFacts.accepts_chr in H1 as (ch & -> & <-%Ascii.eqb_eq). by right.
  - intros (digits & [-> | ->] & Hn & Hall%Hcls).
    + exists [], digits. split; [done|]. split; [|by apply accepts_at_least].
      apply RegExpFacts.accepts_alt. left. by apply RegExpFacts.accepts_eps.
    + exists (js "+"), digits. split; [done|]. split; [|by apply accepts_at_least].
      apply RegExpFacts.accepts_alt. right. apply RegExpFacts.accepts_chr. by exists "+"%char.
Qed.

Lemma missing_absent x : missing x = true <-> absent x.
Proof.
  unfold absent. destruct x as [[|c s]|]; simpl; split; try done; auto.
  intros [?|?]; done.
Qed.

Lemma includes_In l x : includes l x = true <-> In x l.
Proof.
  unfold includes. rewrite existsb_exists. split.
  - intros (y & Hy & Heq). unfold jseqb in Heq. apply bool_decide_eq_true in Heq. by subst.
  - intros Hx. exists x. split; [done|]. unfold jseqb. by apply bool_decide_eq_true.
Qed.

(** The checks of lines 157-181, said without the code's patterns. *)
Lemma invalidRequest_spec req : invalidRequest req = true <-> violates_validation req.
Proof.
  unfold invalidRequest, violates_validation.
  rewrite !orb_true_iff, !negb_true_iff, !missing_absent.
  rewrite <- !not_true_iff_false, includes_In, emailRegex_test, phoneRegex_test.
  unfold validRoles. tauto.
Qed.

(** *** The handler *)

Lemma postDriver_invalid req w :
  invalidRequest req = true ->
  exists msg, postDriver req w = (Ret {| code := 400; payload := PDriverError msg |}, w).
Proof.
  unfold invalidRequest, postDriver, try_catch. intros Hinv.
  destruct (missing (r_name req) || missing (r_email req) || missing (r_phone req)) eqn:E1;
    [by eexists|].
  destruct (negb (includes validRoles (default (js "driver") (r_role req)))) eqn:E2;
    [by eexists|].
  simpl in Hinv.
  destruct (negb (RegExp.test emailRegex (text (r_email req)))
            || negb (RegExp.test phoneRegex (text (r_phone req)))) eqn:E3; [by eexists|].
  done.
Qed.

Lemma run_select_driver t db email :
  run_stmt t (SelectDriverByEmail email) db
  = (result_of (map RowDriver (List.filter (fun d => jseqb (driver_email d) email) (drivers db))),
     db).
Proof. done. Qed.

Lemma duplicate_rows db email :
  (exists d, In d (drivers db) /\ driver_email d = email) ->
  (0 <? length (rows (run_stmt 0 (SelectDriverByEmail email) db).1))%nat = true.
Proof.
  intros (d & Hd & He). rewrite run_select_driver. simpl. rewrite length_map.
  apply Nat.ltb_lt.
  assert (In d (List.filter (fun d => jseqb (driver_email d) email) (drivers db))) as Hin.
  { apply filter_In. split; [done|]. unfold jseqb. by apply bool_decide_eq_true. }
  destruct (List.filter _ _); [done|simpl; lia].
Qed.

Lemma postDriver_valid req :
  invalidRequest req = false ->
  postDriver req =
  try_catch
    (let* checkResult := guarded (client_query (SelectDriverByEmail (text (r_email req)))) in
     if (0 <? length (rows checkResult))%nat
     then respond 400 (PDriverError "Driver with this email already exists")
     else
       let* userId :=
         if missing (r_clerkId req)
         then createClerkUser (text (r_email req)) (text (r_name req))
                              (default (js "driver") (r_role req))
         else ret (text (r_clerkId req)) in
       let* result := guarded (client_query
                        (InsertDriver (text (r_name req)) (text (r_email req))
                           (text (r_phone req)) userId
                           (default (js "driver") (r_role req)))) in
       respond 200 (PDriver "Driver registered successfully" (head (rows result))))
    (fun error => respond 500 (PDriverFailure error)).
Proof.
  unfold invalidRequest, postDriver. intros Hinv.
  apply orb_false_iff in Hinv as [Hinv E4]. apply orb_false_iff in Hinv as [Hinv E3].
  apply orb_false_iff in Hinv as [E1 E2]. by rewrite E1, E2, E3, E4.
Qed.

Lemma postDriver_duplicate req w :
  invalidRequest req = false -> tx w = Idle ->
  (exists d, In d (drivers (committed w)) /\ driver_email d = text (r_email req)) ->
  triple (fun w' => w' = w) (postDriver req)
         (fun resp w' =>
            (code resp = 400 \/ code resp = 500)
            /\ committed w' = committed w
            /\ only_attempts (trace w) (SelectDriverByEmail (text (r_email req))) (trace w'))
         (fun _ => False).
Proof.
  intros Hvalid Htx Hdup. rewrite postDriver_valid by done.
  set (email := text (r_email req)) in *.
  eapply triple_try_catch
    with (E1 := fun w' => tx w' = Idle
                          /\ auto_inv (eq (committed w))
                               (only_attempts (trace w) (SelectDriverByEmail email))
                               (clock w) w').
  - eapply triple_bind.
    + eapply triple_weaken.
      * apply (guarded_client_idle (SelectDriverByEmail email) (eq (committed w))
                 (only_attempts (trace w) (SelectDriverByEmail email))
                 (only_attempts (trace w) (SelectDriverByEmail email)) (clock w)); [done| | |].
        -- by intros t db _ <-.
        -- apply only_attempts_snoc.
        -- apply only_attempts_snoc.
      * intros w' ->. split; [done|]. split_and!; [lia|done|apply only_attempts_refl].
      * intros r w' Hw'. exact Hw'.
      * done.
    + intros r.
      apply (triple_assume ((0 <? length (rows r))%nat = true)).
      { intros w' (_ & _ & _ & db & t & _ & <- & _ & ->).
        rewrite run_select_driver. rewrite <- (duplicate_rows _ _ Hdup).
        by rewrite run_select_driver. }
      intros ->. apply triple_ret.
      intros w' (_ & _ & Htr & db & t & _ & <- & Hc & _).
      rewrite run_select_driver in Hc. split_and!; [by left|done|done].
  - intros e. apply triple_ret. intros w' (_ & _ & <- & Htr).
    split_and!; [by right|done|done].
Qed.

Lemma postDriver_duplicate_answered req w :
  invalidRequest req = false -> tx w = Idle ->
  (exists d, In d (drivers (committed w)) /\ driver_email d = text (r_email req)) ->
  gives_up (script w) = false ->
  exists resp, (postDriver req w).1 = Ret resp /\ code resp = 400.
Proof.
  intros Hvalid Htx Hdup Hg. rewrite postDriver_valid by done.
  unfold try_catch, bind.
  pose proof (guarded_client_gives_up (SelectDriverByEmail (text (r_email req))) w
                eq_refl Htx) as Hgu.
  pose proof (guarded_client_idle (SelectDriverByEmail (text (r_email req)))
                (eq (committed w)) (fun _ => True) (fun _ => True) (clock w)
                eq_refl ltac:(by intros t db _ <-) ltac:(done) ltac:(done) w) as Hrd.
  destruct (guarded (client_query (SelectDriverByEmail (text (r_email req)))) w)
    as [[r|e] w1]; [|congruence].
  destruct Hrd as (_ & _ & _ & db & t & _ & <- & _ & ->).
  { split; [done|]. split_and!; [lia|done|done]. }
  rewrite run_select_driver.
  pose proof (duplicate_rows _ _ Hdup) as Hrows. rewrite run_select_driver in Hrows.
  simpl in Hrows. simpl. rewrite Hrows. simpl. eauto.
Qed.

(** C9 (as amended).  A request that fails validation - name, email or
    phone absent or empty, a role outside driver/admin/dispatcher, an email
    that is not of the form a@b.c, or a phone that is not an optional "+"
    followed by eight or more characters, each a digit, white space or a
    hyphen - is answered 400 with the world exactly as it was: no statement
    is issued and the identity provider is not called.  A request that
    passes these checks and whose email already has a local record is
    answered 400 (or the internal error when the gateway gives up on the
    lookup); the database is unchanged and the lookup is the only thing
    issued, so the identity provider is not contacted and no record is
    inserted. *)
Theorem C9_rejections (req : DriverRequest) (w : World) :
  tx w = Idle ->
  (violates_validation req ->
   exists msg, postDriver req w = (Ret {| code := 400; payload := PDriverError msg |}, w))
  /\ (~ violates_validation req ->
      (exists d, In d (drivers (committed w)) /\ driver_email d = text (r_email req)) ->
      exists resp,
        (postDriver req w).1 = Ret resp
        /\ (code resp = 400 \/ code resp = 500)
        /\ (gives_up (script w) = false -> code resp = 400)
        /\ committed (postDriver req w).2 = committed w
        /\ only_attempts (trace w) (SelectDriverByEmail (text (r_email req)))
                         (trace (postDriver req w).2)).
Proof.
  intros Htx. split.
  { intros Hv. apply postDriver_invalid. by apply invalidRequest_spec. }
  intros Hok Hdup.
  assert (invalidRequest req = false) as Hvalid.
  { apply not_true_iff_false. by rewrite invalidRequest_spec. }
  pose proof (postDriver_duplicate req w Hvalid Htx Hdup w eq_refl) as Hspec.
  pose proof (postDriver_duplicate_answered req w Hvalid Htx Hdup) as Hans.
  destruct (postDriver req w) as [[resp|e] w']; simpl in *; [|done].
  destruct Hspec as (Hcode & Hc & Htr). exists resp. split_and!; try done.
  intros Hg. destruct (Hans Hg) as (resp' & [= <-] & H400). done.
Qed.

(** The request {name: "A", email: "bad", phone: "123"} of the spec is
    turned away with nothing done; a well-formed request for the email of
    the stored driver is turned away after the lookup alone. *)
Lemma C9_witness :
  (exists msg,
     postDriver {| r_name := Some (js "A"); r_email := Some (js "bad");
                   r_phone := Some (js "123"); r_clerkId := None; r_role := None |}
                (sample_world [])
     = (Ret {| code := 400; payload := PDriverError msg |}, sample_world []))
  /\ (exists resp,
        (postDriver {| r_name := Some (js "Omar"); r_email := Some (js "omar@example.com");
                       r_phone := Some (js "0522222222"); r_clerkId := None;
                       r_role := None |}
                    (sample_world [])).1 = Ret resp
        /\ code resp = 400
        /\ committed (postDriver {| r_name := Some (js "Omar");
                                    r_email := Some (js "omar@example.com");
                                    r_phone := Some (js "0522222222"); r_clerkId := None;
                                    r_role := None |}
                                 (sample_world [])).2 = sample_db).
Proof.
  split.
  - apply (proj1 (C9_rejections
                    {| r_name := Some (js "A"); r_email := Some (js "bad");
                       r_phone := Some (js "123"); r_clerkId := None; r_role := None |}
                    (sample_world []) eq_refl)).
    do 5 right. intros (digits & [Heq|Heq] & Hlen & _).
    + simpl in Heq. subst digits. simpl in Hlen. lia.
    + discriminate Heq.
  - destruct (proj2 (C9_rejections
                       {| r_name := Some (js "Omar"); r_email := Some (js "omar@example.com");
                          r_phone := Some (js "0522222222"); r_clerkId := None;
                          r_role := None |}
                       (sample_world []) eq_refl))
      as (resp & Hr & _ & H400 & Hc & _).
    + intros [[H|H]|[[H|H]|[[H|H]|[H|[H|H]]]]]; try discriminate H; apply H.
      * left. reflexivity.
      * exists (js "omar"), (js "example"), (js "com").
        split_and!; [reflexivity|discriminate|discriminate|discriminate|].
        repeat constructor; discriminate.
      * exists (js "0522222222").
        split_and!; [left; reflexivity|simpl; lia|repeat constructor; left; reflexivity].
    + exists sample_driver. split; [by left|reflexivity].
    + exists resp. split; [exact Hr|]. split; [apply H400; reflexivity|exact Hc].
Defined.

(** C9, where the specification as written fails.  The phone pattern asks
    for eight characters, not for eight digits: "1234-567" has seven
    digits and passes, as would eight hyphens.  The request is not turned
    away: the identity provider is called and a record is inserted. *)
Lemma C9_counterexample :
  let req := {| r_name := Some (js "A"); r_email := Some (js "a@b.co");
                r_phone := Some (js "1234-567"); r_clerkId := None; r_role := None |} in
  length (List.filter RegExp.is_digit (js "1234-567")) = 7%nat
  /\ RegExp.test phoneRegex (js "--------") = true
  /\ (postDriver req (sample_world [])).1
     = Ret {| code := 200;
              payload := PDriver "Driver registered successfully"
                           (Some (RowDriver
                                    {| driver_id := 2; driver_name := js "A";
                                       driver_email := js "a@b.co";
                                       driver_phone := js "1234-567";
                                       clerk_id := js "user_0"; driver_role := js "driver";
                                       created_at := 1000 |})) |}
  /\ map event_name (trace (postDriver req (sample_world [])).2)
     = ["SELECT driver"; "POST identity provider"; "INSERT driver"]%string
  /\ length (drivers (committed (postDriver req (sample_world [])).2)) = 2%nat.
Proof. by vm_compute. Qed.

(** ** The model on concrete inputs *)

(** [round_binary64] agrees with the kernel's binary64 on integers around
    and beyond 2^53. *)
Example round_binary64_agrees :
  map (fun z => integer_of_float (SF2Prim (binary_normalize prec emax z 0 false)))
      [9007199254740991; 9007199254740992; 9007199254740993; 9007199254740995;
       1152921504606846977; 999999999999999999999; 123456789012345678901234567890]
  = map JsNumber.round_binary64
      [9007199254740991; 9007199254740992; 9007199254740993; 9007199254740995;
       1152921504606846977; 999999999999999999999; 123456789012345678901234567890].
Proof. by vm_compute. Qed.

(** ... and [add1] with the kernel's addition. *)
Example add1_agrees :
  map (fun z => integer_of_float
                  (PrimFloat.add (SF2Prim (binary_normalize prec emax z 0 false)) 1))
      [3; 9007199254740991; 9007199254740992; 9007199254740994; 1152921504606846976]
  = map (fun z => match JsNumber.add1 (JsNumber.toNumber z) with
                  | JsNumber.Finite r => r
                  | JsNumber.Infinity => -1
                  end)
      [3; 9007199254740991; 9007199254740992; 9007199254740994; 1152921504606846976].
Proof. by vm_compute. Qed.

Example newCustomId_examples :
  map (fun s => string_of_list_ascii (newCustomId (js s)))
      ["X Rev3"; "X"; "X Rev009"; "Rev1Rev2"; "Rev1 2"; "Rev"; "X rev3"; "X Rev3 ";
       "Q-2024/17 Rev9007199254740991"; "X Rev1152921504606846976";
       "X Rev123456789012345678901234567890"]%string
  = ["X Rev4"; "X Rev1"; "X Rev10"; "Rev1Rev3"; "Rev1 2 Rev1"; "Rev Rev1"; "X rev3 Rev1";
     "X Rev3  Rev1"; "Q-2024/17 Rev9007199254740992"; "X Rev1152921504606847000";
     "X Rev1.2345678901234568e+29"]%string.
Proof. by vm_compute. Qed.

Example emailRegex_examples :
  map (fun s => RegExp.test emailRegex (js s))
      ["a@b.c"; "bad"; "a@b"; "a b@c.d"; "a@b.c.d"; "@b.c"; "a@@b.c"; "a@b."]%string
  = [true; false; false; false; true; false; false; false].
Proof. by vm_compute. Qed.

Example phoneRegex_examples :
  map (fun s => RegExp.test phoneRegex (js s))
      ["123"; "12345678"; "+966 50 123 4567"; "1234-567"; "--------"; "+1234567";
       "1234567a"; "++12345678"]%string
  = [false; true; true; true; true; false; false; false].
Proof. by vm_compute. Qed.

Example parseFloat_examples :
  map (fun s => numeric (JStr (js s)))
      ["12.5"; "abc"; " 1e3x"; "-0"; ".5"; "5."; "."; "12abc"; ""; "0x10"]%string
  = [12.5; 0; 1000; 0; 0.5; 5; 0; 12; 0; 0]%float.
Proof. by vm_compute. Qed.

(** One insert that times out once and then succeeds stores its item
    twice: the blind retry of a write that is not idempotent. *)
Example retried_insert_duplicates :
  let w' := (putQuotation 7 (sample_body (Some [lineItem "10" "2"]) None)
               (sample_world [Fast; Fast; Fast; Fast; Slow])).2 in
  map (fun r => string_of_list_ascii (default [] (description r)))
      (quotation_products (committed w'))
  = [""; ""]%string
  /\ map price (quotation_products (committed w')) = [JStr (js "10"); JStr (js "10")]
  /\ clock w' = 12000.
Proof. by vm_compute. Qed.

(** The gateway's waits: 1 s, 2 s and 4 s between the four attempts. *)
Example gateway_backoff :
  clock (guarded (pool_query (SelectProducts 7)) (sample_world [Fails; Fails; Fails; Fails])).2
  = 1000 + (1000 + 2000 + 4000).
Proof. by vm_compute. Qed.

(** A write with status "delivered" that starts at time 1000.  Answered
    at once, it stamps the delivery with that time.  When the UPDATE times
    out once, the retried UPDATE carries the date read before the first
    attempt, while the write ends at 12000.  When the UPDATE times out on
    all four attempts, the next pass reads the clock again, at 49000. *)
Example delivered_now :
  let stamp sc :=
    let w' := (putQuotation 7 (sample_body None (Some (js "delivered")))
                            (sample_world sc)).2 in
    (actual_delivery_date <$> quotations (committed w') !! 7, clock w') in
  stamp [] = (Some (Some 1000), 1000)
  /\ stamp [Fast; Fast; Slow] = (Some (Some 1000), 12000)
  /\ stamp [Fast; Fast; Slow; Slow; Slow; Slow] = (Some (Some 49000), 49000).
Proof. split_and!; by vm_compute. Qed.

(** ** Revision write: further properties *)

(** *** What a statement leaves in the trace and on the connection *)

Lemma client_query_end_idle s w :
  s = Commit \/ s = Rollback -> tx (client_query s w).2 = Idle.
Proof.
  unfold client_query, issue.
  intros [-> | ->]; simpl; destruct (tx w); destruct (hd Fast (script w)); reflexivity.
Qed.

Lemma triple_conj {A} (P1 P2 : World -> Prop) (m : M A)
    (Q1 Q2 : A -> World -> Prop) (E1 E2 : World -> Prop) :
  triple P1 m Q1 E1 -> triple P2 m Q2 E2 ->
  triple (fun w => P1 w /\ P2 w) m (fun a w => Q1 a w /\ Q2 a w) (fun w => E1 w /\ E2 w).
Proof.
  intros H1 H2 w [Hw1 Hw2]. specialize (H1 w Hw1). specialize (H2 w Hw2).
  by destruct (m w) as [[a|e] w'].
Qed.

(** A property of the trace that one more attempt of [s] does not break
    holds after the gateway has run [s], however it went. *)
Lemma guarded_client_trace s (T : list Event -> Prop) :
  (forall tr, T tr -> T (tr ++ [EvQuery s])) ->
  triple (fun w => T (trace w)) (guarded (client_query s))
         (fun _ w => T (trace w)) (fun w => T (trace w)).
Proof.
  intros HT. apply triple_guarded; [by intros ms w _ Hw|].
  intros w Hw. pose proof (client_query_trace s w) as Htr.
  destruct (client_query s w) as [[a [|]|e] w']; simpl in Htr; rewrite Htr; by apply HT.
Qed.

Lemma await_client_trace s (P : World -> Prop) (T : list Event -> Prop) :
  (forall w, P w -> T (trace w ++ [EvQuery s])) ->
  triple P (await (client_query s)) (fun _ w => T (trace w)) (fun w => T (trace w)).
Proof.
  intros HT. apply triple_await. intros w Hw. pose proof (client_query_trace s w) as Htr.
  destruct (client_query s w) as [[a l|e] w']; simpl in Htr; rewrite Htr; by apply HT.
Qed.

(** COMMIT and ROLLBACK leave the connection idle, whether they succeed
    or not, and are then the last thing issued. *)
Lemma await_end s (P : World -> Prop) (T : list Event -> Prop) :
  s = Commit \/ s = Rollback ->
  (forall w, P w -> T (trace w ++ [EvQuery s])) ->
  triple P (await (client_query s))
         (fun _ w => tx w = Idle /\ T (trace w) /\ last (trace w) = Some (EvQuery s))
         (fun w => tx w = Idle /\ T (trace w) /\ last (trace w) = Some (EvQuery s)).
Proof.
  intros Hs HT. apply triple_await. intros w Hw.
  pose proof (client_query_trace s w) as Htr.
  pose proof (client_query_end_idle s w Hs) as Hidle.
  destruct (client_query s w) as [[a l|e] w']; simpl in Htr, Hidle; rewrite Htr;
    (split_and!; [done|by apply HT|by rewrite last_snoc]).
Qed.

Lemma insertProducts_trace id (T : list Event -> Prop) ps :
  (forall tr e, T tr -> T (tr ++ [e])) ->
  triple (fun w => T (trace w)) (insertProducts id ps)
         (fun _ w => T (trace w)) (fun w => T (trace w)).
Proof.
  intros HT. induction ps as [|p ps IH]; simpl.
  - by apply triple_ret.
  - eapply triple_bind; [apply guarded_client_trace; intros tr; apply HT|].
    intros ?. exact IH.
Qed.

(** One pass, seen from outside: BEGIN comes first; the pass returns only
    after COMMIT (answer 200) or ROLLBACK (answer 404), with the connection
    idle. *)
Lemma revisionWrite_brackets id body (T0 T : list Event -> Prop) :
  (forall tr, T0 tr -> T (tr ++ [EvQuery Begin])) ->
  (forall tr e, T tr -> T (tr ++ [e])) ->
  triple (fun w => T0 (trace w)) (revisionWrite id body)
         (fun resp w =>
            tx w = Idle /\ T (trace w)
            /\ last (trace w)
               = Some (EvQuery (if code resp =? 200 then Commit else Rollback)))
         (fun w => T (trace w)).
Proof.
  intros H0 HT. unfold revisionWrite.
  eapply triple_bind.
  { apply (await_client_trace Begin (fun w => T0 (trace w)) T). intros w Hw. by apply H0. }
  intros ?.
  eapply triple_bind; [apply guarded_client_trace; intros tr; apply HT|].
  intros r. destruct (rows r) as [|[cur| | | | |] rest].
  - eapply triple_bind.
    + eapply triple_weaken.
      * apply (await_end Rollback (fun w => T (trace w)) T); [by right|].
        intros w Hw. by apply HT.
      * done.
      * intros ? w Hw. exact Hw.
      * by intros w (_ & Hw & _).
    + intros ?. by apply triple_ret.
  - eapply triple_bind; [apply triple_new_Date|]. intros now.
    eapply triple_bind.
    { eapply triple_weaken; [apply (guarded_client_trace _ T); intros tr; apply HT
                            |by intros w [Hw _]|intros ? w Hw; exact Hw|done]. }
    intros ?.
    eapply triple_bind.
    { instantiate (1 := fun _ w => T (trace w)).
      destruct (b_products body) as [[|p ps]|]; [by apply triple_ret| |by apply triple_ret].
      eapply triple_bind; [apply guarded_client_trace; intros tr; apply HT|].
      intros ?. by apply insertProducts_trace. }
    intros ?.
    eapply triple_bind.
    + eapply triple_weaken.
      * apply (await_end Commit (fun w => T (trace w)) T); [by left|].
        intros w Hw. by apply HT.
      * done.
      * intros ? w Hw. exact Hw.
      * by intros w (_ & Hw & _).
    + intros ?. by apply triple_ret.
  - by apply triple_throw.
  - by apply triple_throw.
  - by apply triple_throw.
  - by apply triple_throw.
  - by apply triple_throw.
Qed.

(** X1.  However its statements go, and whatever state the connection was
    handed over in, the revision writer starts by issuing BEGIN and stops
    right after a COMMIT - exactly when it answers 200 - or a ROLLBACK, so
    the connection it releases is never inside a transaction. *)
Theorem put_brackets_transaction (id : Z) (body : RevisionBody) (w : World) :
  tx (putQuotation id body w).2 = Idle
  /\ (exists tr, trace (putQuotation id body w).2 = trace w ++ EvQuery Begin :: tr)
  /\ last (trace (putQuotation id body w).2)
     = Some (EvQuery match (putQuotation id body w).1 with
                     | Ret resp => if code resp =? 200 then Commit else Rollback
                     | Throw _ => Rollback
                     end).
Proof.
  set (T := fun tr : list Event => exists tr', tr = trace w ++ EvQuery Begin :: tr').
  assert (forall tr e, T tr -> T (tr ++ [e])) as HT.
  { intros tr e [tr' ->]. exists (tr' ++ [e]). by rewrite <- app_assoc. }
  assert (triple (fun w' => trace w' = trace w) (putQuotation id body)
            (fun resp w' =>
               tx w' = Idle /\ T (trace w')
               /\ last (trace w')
                  = Some (EvQuery (if code resp =? 200 then Commit else Rollback)))
            (fun w' => tx w' = Idle /\ T (trace w')
                       /\ last (trace w') = Some (EvQuery Rollback))) as Hspec.
  { unfold putQuotation.
    eapply triple_try_catch with (E1 := fun w' => T (trace w')).
    - apply (triple_retry_from (fun w' => trace w' = trace w) (fun w' => T (trace w')));
        [by intros ms w' _ Hw'|lia| |].
      + apply (revisionWrite_brackets id body (fun tr => tr = trace w) T); [|done].
        intros tr ->. by exists [].
      + apply (revisionWrite_brackets id body T T); [intros tr; apply HT|done].
    - intros e. eapply triple_bind.
      + apply (await_end Rollback (fun w' => T (trace w')) T); [by right|].
        intros w' Hw'. by apply HT.
      + intros ?. by apply triple_ret. }
  specialize (Hspec w eq_refl).
  destruct (putQuotation id body w) as [[resp|e] w']; simpl; exact Hspec.
Qed.

(** *** What is committed, and what is answered *)

(** X2.  A revision write of quotation [id] from an idle connection,
    however its statements go and whatever it answers, leaves every other
    quotation, the line items of every other quotation, and the clients,
    supervisors, sales representatives and drivers exactly as they were.
    It neither creates nor removes the header row of [id], and on that row
    it never changes the export marker, the sales representative or the
    supervisor. *)
Theorem put_touches_one_quotation (id : Z) (body : RevisionBody) (w : World) :
  tx w = Idle ->
  (forall j, j <> id ->
     quotations (committed (putQuotation id body w).2) !! j = quotations (committed w) !! j)
  /\ List.filter (other_quotation id) (quotation_products (committed (putQuotation id body w).2))
     = List.filter (other_quotation id) (quotation_products (committed w))
  /\ same_side_tables (committed w) (committed (putQuotation id body w).2)
  /\ match quotations (committed w) !! id,
           quotations (committed (putQuotation id body w).2) !! id with
     | Some q0, Some q =>
         exported q = exported q0 /\ sales_rep_id q = sales_rep_id q0
         /\ supervisor_id q = supervisor_id q0
     | None, None => True
     | _, _ => False
     end.
Proof.
  intros Htx. pose proof (putQuotation_spec id body w Htx) as Hspec.
  destruct (putQuotation id body w) as [[resp|e] w']; simpl in *.
  - destruct Hspec as [[_ Hrev]|[_ ->]].
    + destruct Hrev as (q0 & q & Hq0 & Hq & Hrevised & _ & Hcl & Hsu & Hsa & Hdr & Hp).
      split_and!.
      * intros j Hj. by rewrite Hq, lookup_insert_ne.
      * unfold products_replaced in Hp.
        destruct (b_products body) as [[|p ps]|]; [by rewrite Hp|by destruct Hp|by rewrite Hp].
      * done.
      * rewrite Hq0, Hq, lookup_insert_eq.
        destruct Hrevised as (_ & _ & _ & _ & _ & _ & _ & _ & _ & _ & _ & _ & H1 & H2 & H3).
        done.
    + split_and!; [done|done|done|]. by destruct (quotations (committed w) !! id).
  - rewrite Hspec. split_and!; [done|done|done|].
    by destruct (quotations (committed w) !! id).
Qed.

(** A write on quotation 7 whose line-item insert times out four times and
    then succeeds: the driver table and the client table are untouched. *)
Lemma put_touches_one_quotation_witness :
  same_side_tables
    (committed (sample_world [Fast; Fast; Fast; Fast; Slow; Slow; Slow; Slow]))
    (committed (putQuotation 7 (sample_body (Some [lineItem "10" "2"]) None)
                  (sample_world [Fast; Fast; Fast; Fast; Slow; Slow; Slow; Slow])).2).
Proof.
  destruct (put_touches_one_quotation 7
              (sample_body (Some [lineItem "10" "2"]) None)
              (sample_world [Fast; Fast; Fast; Fast; Slow; Slow; Slow; Slow])
              eq_refl) as (_ & _ & H & _).
  exact H.
Defined.

(** *** A quotation that does not exist *)

Lemma rollback_fast w :
  script w = [] ->
  await (client_query Rollback) w = (Ret (affected 0), set_tx Idle (issue Rollback w).2).
Proof. intros Hsc. unfold await, client_query, issue. by rewrite Hsc. Qed.

Section Missing.
Variables (id : Z) (body : RevisionBody) (w0 : World).
Hypothesis Hnone : quotations (committed w0) !! id = None.

Local Abbreviation db0 := (committed w0).
Local Abbreviation c0 := (clock w0).
Local Abbreviation Wb := (work_base id body db0 c0).
Local Abbreviation T := (fun tr => exists tr', tr = trace w0 ++ tr' /\ probe_only id tr').
Local Abbreviation Inv := (fun w => pass_inv Wb db0 c0 w /\ T (trace w)).

Lemma probe_snoc tr e :
  e = EvQuery Begin \/ e = EvQuery (SelectCustomId id) \/ e = EvQuery Rollback ->
  T tr -> T (tr ++ [e]).
Proof.
  intros He (tr' & -> & Htr). exists (tr' ++ [e]). split; [by rewrite app_assoc|].
  apply Forall_app. split; [done|]. by constructor.
Qed.

Lemma revisionWrite_missing :
  triple Inv (revisionWrite id body) (fun resp w => resp = not_found /\ T (trace w)) Inv.
Proof using Hnone.
  unfold revisionWrite.
  eapply triple_bind.
  { apply triple_conj; [apply begin_spec|].
    apply (await_client_trace Begin (fun w => T (trace w)) T).
    intros w Hw. apply probe_snoc; [by left|done]. }
  intros ?. eapply triple_bind.
  { eapply triple_weaken.
    - apply triple_conj.
      + apply (guarded_in_tx db0 c0 (SelectCustomId id) Wb);
          [done|apply work_base_lasting|].
        intros t work Ht Hw. by rewrite run_select_custom_id.
      + apply (guarded_client_trace (SelectCustomId id) T).
        intros tr. apply probe_snoc. right. by left.
    - intros w [Hw HT]. split; [by apply in_tx_now_inv|done].
    - intros r w Hw. exact Hw.
    - intros w [Hw HT]. split; [by eapply in_tx_inv_pass|done]. }
  intros r. apply (triple_assume (rows r = [])).
  { intros w [(_ & _ & work & (_ & Hh & _) & _ & Hr) _].
    rewrite run_select_custom_id in Hr. subst r. rewrite Hnone in Hh.
    by rewrite Hh, Hnone. }
  intros ->.
  eapply triple_bind.
  { eapply triple_weaken.
    - apply triple_conj.
      + apply (rollback_spec db0 c0 (acknowledged (SelectCustomId id) Wb db0 c0 r)).
        by intros w (Hc & Hclk & _).
      + apply (await_client_trace Rollback (fun w => T (trace w)) T).
        intros w Hw. apply probe_snoc; [by do 2 right|done].
    - done.
    - intros ? w Hw. exact Hw.
    - intros w [(Hc & Hclk & Htx) HT]. split; [|done].
      split_and!; [done|done|by rewrite Htx]. }
  intros ?. apply triple_ret. by intros w [_ HT].
Qed.

Lemma putQuotation_missing :
  tx w0 = Idle ->
  match putQuotation id body w0 with
  | (Ret resp, w') => (resp = not_found \/ code resp = 500) /\ T (trace w')
  | (Throw _, w') => T (trace w')
  end.
Proof using Hnone.
  intros Htx.
  assert (triple (fun w => w = w0) (putQuotation id body)
            (fun resp w' => (resp = not_found \/ code resp = 500) /\ T (trace w'))
            (fun w' => T (trace w'))) as Hspec.
  { unfold putQuotation. eapply triple_try_catch with (E1 := Inv).
    - eapply triple_weaken.
      + apply (triple_retry Inv); [|lia|apply revisionWrite_missing].
        intros ms w Hms [Hw HT]. split; [|done].
        apply pass_inv_advance; [apply work_base_lasting|done|done].
      + intros w ->. split; [split_and!; [done|lia|by rewrite Htx]|].
        exists []. split; [by rewrite app_nil_r|constructor].
      + intros resp w [-> HT]. split; [by left|done].
      + done.
    - intros e. eapply triple_bind.
      + apply (await_client_trace Rollback Inv T).
        intros w [_ HT]. apply probe_snoc; [by do 2 right|done].
      + intros ?. apply triple_ret. intros w HT. split; [by right|done]. }
  by apply (Hspec w0).
Qed.

Lemma putQuotation_missing_fast :
  tx w0 = Idle -> script w0 = [] -> (putQuotation id body w0).1 = Ret not_found.
Proof using Hnone.
  intros Htx Hsc.
  assert (exists wF, revisionWrite id body w0 = (Ret not_found, wF)) as [wF Hrun].
  { unfold revisionWrite.
    rewrite (bind_Ret _ _ _ _ _ (begin_fast w0 Htx Hsc)).
    set (w1 := set_tx (InTxn (committed w0)) (issue Begin w0).2).
    assert (script w1 = []) as Hsc1 by (by simpl; rewrite Hsc).
    rewrite (bind_Ret _ _ _ _ _ (guarded_in_tx_fast (SelectCustomId id) w1 (committed w0)
                                   eq_refl eq_refl Hsc1)).
    rewrite run_select_custom_id, Hnone.
    change (rows (result_of [], committed w0).1) with (@nil Row). cbv iota beta.
    set (w2 := set_tx _ _).
    assert (script w2 = []) as Hsc2 by (by simpl; rewrite Hsc).
    rewrite (bind_Ret _ _ _ _ _ (rollback_fast w2 Hsc2)). by eexists. }
  unfold putQuotation, try_catch. by rewrite (retry_Ret _ _ _ _ _ _ Hrun).
Qed.

End Missing.

(** X3.  A revision write for an id that has no header row, from an idle
    connection: whatever happens to its statements it commits nothing, it
    issues nothing but BEGIN, the read of the custom_id and ROLLBACK - no
    UPDATE, DELETE or INSERT ever reaches the database - and it never
    answers success; when every statement is answered at once the answer
    is 404 "Quotation not found". *)
Theorem put_missing_quotation (id : Z) (body : RevisionBody) (w : World) :
  tx w = Idle -> quotations (committed w) !! id = None ->
  committed (putQuotation id body w).2 = committed w
  /\ (exists tr, trace (putQuotation id body w).2 = trace w ++ tr /\ probe_only id tr)
  /\ match (putQuotation id body w).1 with
     | Ret resp => resp = not_found \/ code resp = 500
     | Throw _ => True
     end
  /\ (script w = [] -> (putQuotation id body w).1 = Ret not_found).
Proof.
  intros Htx Hnone.
  pose proof (putQuotation_spec id body w Htx) as Hspec.
  pose proof (putQuotation_missing id body w Hnone Htx) as Hmiss.
  pose proof (putQuotation_missing_fast id body w Hnone Htx) as Hfast.
  destruct (putQuotation id body w) as [[resp|e] w']; simpl in *.
  - destruct Hmiss as [Hresp HT]. split_and!; [|done|done|done].
    destruct Hspec as [[H200 _]|[_ Hc]]; [|done].
    destruct Hresp as [->|H500]; [done|lia].
  - split_and!; done.
Qed.

(** The sample database has no quotation 8. *)
Lemma put_missing_quotation_witness :
  (putQuotation 8 (sample_body None None) (sample_world [])).1 = Ret not_found.
Proof.
  exact (proj2 (proj2 (proj2 (put_missing_quotation 8 (sample_body None None)
                                (sample_world []) eq_refl
                                ltac:(vm_compute; reflexivity)))) eq_refl).
Defined.

(** *** The answer and what a later read returns *)

Lemma joined_header_row db id row0 :
  joined_header db id = Some row0 ->
  exists q c, quotations db !! id = Some q
              /\ row0 = RowJoined id q c (supervisor_id q ≫= (fun sid => supervisors db !! sid)).
Proof.
  unfold joined_header. destruct (quotations db !! id) as [q|]; [|done].
  destruct (client_id q ≫= _) as [c|]; [|done]. intros [= <-]. by exists q, c.
Qed.

(** What a read answers with 200 is the stored header row, the stored line
    items and the stored sales representative. *)
Lemma getQuotation_200 id w2 resp2 :
  (getQuotation id w2).1 = Ret resp2 -> code resp2 = 200 ->
  exists q c,
    quotations (committed w2) !! id = Some q
    /\ payload resp2
       = PAggregate (RowJoined id q c (supervisor_id q
                                         ≫= (fun sid => supervisors (committed w2) !! sid)))
                    (products_of (committed w2) id)
                    (sales_rep (committed w2) (sales_rep_id q)).
Proof.
  intros Hr Hcode. destruct (joined_header (committed w2) id) as [row0|] eqn:Eh.
  - pose proof (getQuotation_found id w2 row0 Eh w2 eq_refl) as Hspec.
    destruct (getQuotation id w2) as [[resp|e] w']; simpl in *; [|done].
    injection Hr as ->. destruct Hspec as [[H500| ->] _]; [lia|].
    apply joined_header_row in Eh as (q & c & Hq & ->). by exists q, c.
  - pose proof (getQuotation_missing id w2 Eh w2 eq_refl) as Hspec.
    destruct (getQuotation id w2) as [[resp|e] w']; simpl in *; [|done].
    injection Hr as ->. destruct Hspec as ([H|H] & _); lia.
Qed.

(** X4.  A revision write on an existing quotation, from an idle
    connection, never answers not-found.  When it answers success, the
    custom_id in the answer is the one the committed header row carries,
    whatever retries it took; a read of the quotation afterwards that
    answers 200 returns that row, and - if a non-empty list of line items
    was sent - line items each of which is an incoming one with its
    computed VAT and subtotal, every incoming one being among them at
    least once (an insert that was retried after completing late has
    stored its item more than once); if no item was sent, the line items
    that were stored before. *)
Theorem put_answer_is_stored (id : Z) (body : RevisionBody) (w : World) :
  tx w = Idle -> is_Some (quotations (committed w) !! id) ->
  match (putQuotation id body w).1 with
  | Ret resp =>
      code resp = 500
      \/ exists q,
           quotations (committed (putQuotation id body w).2) !! id = Some q
           /\ resp = revised_as (custom_id q)
           /\ forall w2 resp2,
                committed w2 = committed (putQuotation id body w).2 ->
                (getQuotation id w2).1 = Ret resp2 -> code resp2 = 200 ->
                exists c sup rows rep,
                  payload resp2 = PAggregate (RowJoined id q c sup) (map RowProduct rows) rep
                  /\ match b_products body with
                     | Some (p :: ps) =>
                         forall r, In r rows <-> In r (map (productRow id) (p :: ps))
                     | _ => rows = List.filter (of_quotation id)
                                     (quotation_products (committed w))
                     end
  | Throw _ => True
  end.
Proof.
  intros Htx [q0 Hq0]. pose proof (putQuotation_answer id body w Htx) as Hspec.
  destruct (putQuotation id body w) as [[resp|e] w']; simpl in *; [|done].
  destruct Hspec as [(_ & _ & Hnone)|[(cur & -> & Hs & Hh & Hi)|[H500 _]]];
    [congruence| |by left].
  right. destruct Hh as (q0' & q & _ & Hq & _ & _ & Hcid).
  exists q. split; [by rewrite Hq, lookup_insert_eq|]. split; [by rewrite Hcid|].
  intros w2 resp2 Hw2 Hr Hcode.
  destruct (getQuotation_200 id w2 resp2 Hr Hcode) as (q' & c & Hq' & Hp).
  rewrite Hw2, Hq, lookup_insert_eq in Hq'. injection Hq' as <-.
  exists c, (supervisor_id q ≫= (fun sid => supervisors (committed w2) !! sid)),
    (List.filter (of_quotation id) (quotation_products (committed w'))),
    (sales_rep (committed w2) (sales_rep_id q)).
  split; [by rewrite Hp, Hw2|].
  unfold items_clause in Hi. destruct (b_products body) as [[|p ps]|]; simpl in Hi.
  - by rewrite Hi.
  - destruct Hi as (_ & Hin & Hall). intros r. split; [apply Hin|apply Hall].
  - by rewrite Hi.
Qed.

(** The sample quotation, revised while its line-item insert first times
    out: the answer names the custom_id that is stored. *)
Lemma put_answer_is_stored_witness :
  exists q,
    quotations (committed (putQuotation 7 (sample_body (Some [lineItem "10" "2"]) None)
                             (sample_world [Fast; Fast; Fast; Fast; Slow])).2) !! 7 = Some q
    /\ (putQuotation 7 (sample_body (Some [lineItem "10" "2"]) None)
                     (sample_world [Fast; Fast; Fast; Fast; Slow])).1
       = Ret (revised_as (custom_id q)).
Proof.
  pose proof (put_answer_is_stored 7 (sample_body (Some [lineItem "10" "2"]) None)
                (sample_world [Fast; Fast; Fast; Fast; Slow]) eq_refl
                ltac:(vm_compute; eauto)) as H.
  destruct ((putQuotation 7 (sample_body (Some [lineItem "10" "2"]) None)
                          (sample_world [Fast; Fast; Fast; Fast; Slow])).1)
    as [resp|e] eqn:E; [|vm_compute in E; discriminate].
  destruct H as [H500|(q & Hq & -> & _)].
  - vm_compute in E. injection E as <-. vm_compute in H500. discriminate.
  - exists q. split; [exact Hq|reflexivity].
Defined.

(** *** Stored line items and header totals *)

Lemma set_products_twice l l' db : set_products l (set_products l' db) = set_products l db.
Proof. done. Qed.

Lemma insertProducts_at_once id ps : forall w work,
  tx w = InTxn work -> script w = [] ->
  exists w',
    insertProducts id ps w = (Ret tt, w')
    /\ tx w' = InTxn (set_products (quotation_products work ++ map (productRow id) ps) work)
    /\ script w' = [] /\ committed w' = committed w.
Proof.
  induction ps as [|p ps IH]; intros w work Htx Hsc; simpl.
  - exists w. rewrite app_nil_r. by destruct work.
  - unfold bind. rewrite (guarded_in_tx_fast _ w work) by done.
    destruct (IH (set_tx (InTxn (run_stmt (clock w) (InsertProduct (productRow id p)) work).2)
                         (issue (InsertProduct (productRow id p)) w).2)
                 (run_stmt (clock w) (InsertProduct (productRow id p)) work).2)
      as (w' & Hrun & Htx' & Hsc' & Hc'); [done|by simpl; rewrite Hsc|].
    exists w'. rewrite Hrun. split_and!; try done.
    rewrite Htx'. simpl. by rewrite <- app_assoc.
Qed.

(** The three running sums of the totals loop are the sums, in order, of
    the amounts that the insert loop stores with each line item. *)
Lemma computeTotals_rows id items : forall a b c,
  fold_left addLine (map numericItem items) (a, b, c)
  = (fold_left PrimFloat.add
       (map (fun r => PrimFloat.mul (numeric (price r)) (numeric (quantity r)))
            (map (productRow id) items)) a,
     fold_left PrimFloat.add (map vat (map (productRow id) items)) b,
     fold_left PrimFloat.add (map subtotal (map (productRow id) items)) c).
Proof.
  induction items as [|x items IH]; intros a b c; [done|].
  simpl. rewrite IH. reflexivity.
Qed.

Lemma filter_own_rows id (items : list Product) :
  List.filter (of_quotation id) (map (productRow id) items) = map (productRow id) items.
Proof.
  induction items as [|x items IH]; simpl; [done|].
  by rewrite of_quotation_productRow, IH.
Qed.

Lemma putQuotation_at_once id body w q0 p ps :
  tx w = Idle -> script w = [] ->
  quotations (committed w) !! id = Some q0 ->
  b_products body = Some (p :: ps) ->
  committed (putQuotation id body w).2
  = set_products
      (List.filter (other_quotation id) (quotation_products (committed w))
       ++ map (productRow id) (p :: ps))
      (set_quotations
         (<[id := updated_row (clock w)
                    (updateParams body (clock w) (newCustomId (custom_id q0))) q0]>
            (quotations (committed w)))
         (committed w)).
Proof.
  intros Htx Hsc Hq0 Hb.
  assert (exists resp wF,
            revisionWrite id body w = (Ret resp, wF)
            /\ committed wF
               = set_products
                   (List.filter (other_quotation id) (quotation_products (committed w))
                    ++ map (productRow id) (p :: ps))
                   (set_quotations
                      (<[id := updated_row (clock w)
                                 (updateParams body (clock w) (newCustomId (custom_id q0))) q0]>
                         (quotations (committed w)))
                      (committed w))) as (resp & wF & Hrun & HF).
  { unfold revisionWrite.
    rewrite (bind_Ret _ _ _ _ _ (begin_fast w Htx Hsc)).
    set (w1 := set_tx (InTxn (committed w)) (issue Begin w).2).
    assert (script w1 = []) as Hsc1 by (by simpl; rewrite Hsc).
    rewrite (bind_Ret _ _ _ _ _ (guarded_in_tx_fast (SelectCustomId id) w1 (committed w)
                                   eq_refl eq_refl Hsc1)).
    rewrite run_select_custom_id, Hq0.
    change (rows (result_of [RowCustomId (custom_id q0)], committed w).1)
      with [RowCustomId (custom_id q0)].
    cbv iota beta.
    set (w2 := set_tx _ _).
    assert (script w2 = []) as Hsc2 by (by simpl; rewrite Hsc).
    rewrite (bind_Ret new_Date _ w2 (clock w2) w2 eq_refl).
    set (upd := UpdateQuotation _ id).
    rewrite (bind_Ret _ _ _ _ _ (guarded_in_tx_fast upd w2 (committed w)
                                   eq_refl eq_refl Hsc2)).
    set (work3 := (run_stmt (clock w2) upd (committed w)).2).
    set (w3 := set_tx (InTxn work3) _).
    assert (script w3 = []) as Hsc3 by (by simpl; rewrite Hsc).
    rewrite Hb. cbv iota beta.
    set (work4 := (run_stmt (clock w3) (DeleteProducts id) work3).2).
    set (w4 := set_tx (InTxn work4) (issue (DeleteProducts id) w3).2).
    assert (script w4 = []) as Hsc4 by (by simpl; rewrite Hsc).
    destruct (insertProducts_at_once id (p :: ps) w4 work4 eq_refl Hsc4)
      as (w5 & Hrun & Htx5 & Hsc5 & Hc5).
    assert ((let* _ := guarded (client_query (DeleteProducts id)) in
             insertProducts id (p :: ps)) w3 = (Ret tt, w5)) as Hrep.
    { rewrite (bind_Ret _ _ _ _ _ (guarded_in_tx_fast (DeleteProducts id) w3 work3
                                     eq_refl eq_refl Hsc3)).
      exact Hrun. }
    rewrite (bind_Ret _ _ _ _ _ Hrep).
    rewrite (bind_Ret _ _ _ _ _ (commit_fast w5 _ Htx5 Hsc5)).
    eexists _, _. split; [reflexivity|]. simpl.
    unfold work4, work3, upd. simpl. rewrite Hq0. reflexivity. }
  unfold putQuotation, try_catch. by rewrite (retry_Ret _ _ _ _ _ _ Hrun).
Qed.

(** X5.  When a revision write with a non-empty list of line items has
    every statement answered at once, the line items stored for the
    quotation are the incoming ones, once each and in the order sent, and
    the header totals are the running sums over those stored rows: of
    price x quantity, of the stored VAT and of the stored subtotal. *)
Theorem put_at_once_rows_and_totals (id : Z) (body : RevisionBody) (w : World)
    (q0 : Quotation) (p : Product) (ps : list Product) :
  tx w = Idle -> script w = [] ->
  quotations (committed w) !! id = Some q0 ->
  b_products body = Some (p :: ps) ->
  exists q rows,
    quotations (committed (putQuotation id body w).2) !! id = Some q
    /\ List.filter (of_quotation id) (quotation_products (committed (putQuotation id body w).2))
       = rows
    /\ rows = map (productRow id) (p :: ps)
    /\ total_price q
       = fold_left PrimFloat.add
           (map (fun r => PrimFloat.mul (numeric (price r)) (numeric (quantity r))) rows)
           PrimFloat.zero
    /\ total_vat q = fold_left PrimFloat.add (map vat rows) PrimFloat.zero
    /\ total_subtotal q = fold_left PrimFloat.add (map subtotal rows) PrimFloat.zero.
Proof.
  intros Htx Hsc Hq0 Hb. rewrite (putQuotation_at_once id body w q0 p ps) by done.
  eexists _, _. split; [simpl; apply lookup_insert_eq|]. split; [reflexivity|].
  assert (List.filter (of_quotation id)
            (List.filter (other_quotation id) (quotation_products (committed w))
             ++ map (productRow id) (p :: ps))
          = map (productRow id) (p :: ps)) as Hrows.
  { rewrite List.filter_app, filter_of_other, filter_own_rows. done. }
  split; [exact Hrows|]. cbn [quotation_products set_products set_quotations].
  rewrite Hrows.
  pose proof (computeTotals_rows id (p :: ps) PrimFloat.zero PrimFloat.zero PrimFloat.zero)
    as Htot.
  unfold updated_row, updateParams. rewrite Hb. unfold revisionTotals.
  unfold computeTotals. cbn [a_zero Arith_binary64].
  rewrite Htot. split_and!; reflexivity.
Qed.

(** Two items sent for the sample quotation: 2 x 10 and 5 x 4. *)
Lemma put_at_once_rows_and_totals_witness :
  exists q rows,
    quotations (committed (putQuotation 7
                  (sample_body (Some [lineItem "10" "2"; lineItem "4" "5"]) None)
                  (sample_world [])).2) !! 7 = Some q
    /\ map vat rows = [3%float; 3%float]
    /\ total_vat q = fold_left PrimFloat.add (map vat rows) PrimFloat.zero.
Proof.
  destruct (put_at_once_rows_and_totals 7
              (sample_body (Some [lineItem "10" "2"; lineItem "4" "5"]) None)
              (sample_world []) sample_quotation
              (lineItem "10" "2") [lineItem "4" "5"]
              eq_refl eq_refl ltac:(vm_compute; reflexivity) eq_refl)
    as (q & rows & Hq & _ & Hrows & _ & Hvat & _).
  exists q, rows. split; [exact Hq|]. split; [|exact Hvat].
  rewrite Hrows. vm_compute. reflexivity.
Defined.

(** *** A timed-out statement is not undone *)

Lemma begin_answered w :
  tx w = Idle -> hd Fast (script w) = Fast ->
  await (client_query Begin) w
  = (Ret (affected 0), set_tx (InTxn (committed w)) (issue Begin w).2).
Proof.
  intros Htx Ho. unfold await, client_query, issue. rewrite Ho, Htx. simpl.
  rewrite ?Htx. reflexivity.
Qed.

Lemma commit_answered w work :
  tx w = InTxn work -> hd Fast (script w) = Fast ->
  await (client_query Commit) w
  = (Ret (affected 0), set_tx Idle (set_committed work (issue Commit w).2)).
Proof.
  intros Htx Ho. unfold await, client_query, issue. rewrite Ho, Htx. simpl.
  rewrite ?Htx. reflexivity.
Qed.

Lemma guarded_in_tx_answered s w work :
  is_data s = true -> tx w = InTxn work -> hd Fast (script w) = Fast ->
  guarded (client_query s) w
  = (Ret (run_stmt (clock w) s work).1,
     set_tx (InTxn (run_stmt (clock w) s work).2) (issue s w).2).
Proof.
  intros Hs Htx Ho. unfold guarded. simpl. unfold withTimeout.
  rewrite client_query_data by done. cbv zeta. rewrite Ho, Htx. simpl.
  destruct (run_stmt (clock w) s work). reflexivity.
Qed.

(** The first attempt loses the 10-second race, the retry one second
    later is answered: the statement has run twice. *)
Lemma guarded_in_tx_late_then_answered s w work :
  is_data s = true -> tx w = InTxn work ->
  hd Fast (script w) = Slow -> hd Fast (tl (script w)) = Fast ->
  guarded (client_query s) w
  = (Ret (run_stmt (clock w + 10000 + 1000) s (run_stmt (clock w) s work).2).1,
     set_tx (InTxn (run_stmt (clock w + 10000 + 1000) s (run_stmt (clock w) s work).2).2)
       (issue s (advance 1000 (advance 10000
                   (set_tx (InTxn (run_stmt (clock w) s work).2) (issue s w).2)))).2).
Proof.
  intros Hs Htx Ho1 Ho2. unfold guarded. simpl. unfold withTimeout at 1.
  rewrite client_query_data by done. cbv zeta. rewrite Ho1, Htx. simpl.
  destruct (run_stmt (clock w) s work) as [r1 work1]. simpl.
  unfold withTimeout at 1. rewrite client_query_data by done. cbv zeta. simpl.
  rewrite Ho2.
  destruct (run_stmt (clock w + 10000 + 1000) s work1) as [r2 work2]. reflexivity.
Qed.

(** X6.  Losing the race against the timer does not cancel a statement.
    In a revision write that sends one line item, if every statement is
    answered at once except that the first attempt of the line-item insert
    answers only after its 10 seconds, the retried insert runs too: the
    write answers success, the quotation holds the line item twice, and
    the header totals are those of the one item that was sent. *)
Theorem put_retried_insert_stores_twice (id : Z) (body : RevisionBody) (w : World)
    (q0 : Quotation) (p : Product) :
  tx w = Idle -> script w = [Fast; Fast; Fast; Fast; Slow] ->
  quotations (committed w) !! id = Some q0 ->
  b_products body = Some [p] ->
  (putQuotation id body w).1 = Ret (revised_as (newCustomId (custom_id q0)))
  /\ List.filter (of_quotation id) (quotation_products (committed (putQuotation id body w).2))
     = [productRow id p; productRow id p]
  /\ exists q,
       quotations (committed (putQuotation id body w).2) !! id = Some q
       /\ (total_price q, total_vat q, total_subtotal q) = computeTotals [numericItem p].
Proof.
  intros Htx Hsc Hq0 Hb.
  assert (exists wF,
            revisionWrite id body w
            = (Ret (revised_as (newCustomId (custom_id q0))), wF)
            /\ committed wF
               = set_products
                   (List.filter (other_quotation id) (quotation_products (committed w))
                    ++ [productRow id p; productRow id p])
                   (set_quotations
                      (<[id := updated_row (clock w)
                                 (updateParams body (clock w) (newCustomId (custom_id q0))) q0]>
                         (quotations (committed w)))
                      (committed w))) as (wF & Hrun & HF).
  { unfold revisionWrite.
    rewrite (bind_Ret _ _ _ _ _ (begin_answered w Htx ltac:(by rewrite Hsc))).
    set (w1 := set_tx (InTxn (committed w)) (issue Begin w).2).
    assert (script w1 = [Fast; Fast; Fast; Slow]) as Hsc1 by (by simpl; rewrite Hsc).
    rewrite (bind_Ret _ _ _ _ _ (guarded_in_tx_answered (SelectCustomId id) w1 (committed w)
                                   eq_refl eq_refl ltac:(by rewrite Hsc1))).
    rewrite run_select_custom_id, Hq0.
    change (rows (result_of [RowCustomId (custom_id q0)], committed w).1)
      with [RowCustomId (custom_id q0)].
    cbv iota beta.
    set (w2 := set_tx _ _).
    assert (script w2 = [Fast; Fast; Slow]) as Hsc2 by (by simpl; rewrite Hsc).
    rewrite (bind_Ret new_Date _ w2 (clock w2) w2 eq_refl).
    set (upd := UpdateQuotation _ id).
    rewrite (bind_Ret _ _ _ _ _ (guarded_in_tx_answered upd w2 (committed w)
                                   eq_refl eq_refl ltac:(by rewrite Hsc2))).
    set (work3 := (run_stmt (clock w2) upd (committed w)).2).
    set (w3 := set_tx (InTxn work3) _).
    assert (script w3 = [Fast; Slow]) as Hsc3 by (by simpl; rewrite Hsc).
    rewrite Hb. cbv iota beta.
    set (work4 := (run_stmt (clock w3) (DeleteProducts id) work3).2).
    set (w4 := set_tx (InTxn work4) (issue (DeleteProducts id) w3).2).
    assert (script w4 = [Slow]) as Hsc4 by (by simpl; rewrite Hsc).
    set (ins := InsertProduct (productRow id p)).
    assert ((let* _ := guarded (client_query (DeleteProducts id)) in
             insertProducts id [p]) w3
            = (Ret tt,
               set_tx (InTxn (run_stmt (clock w4 + 10000 + 1000) ins
                                (run_stmt (clock w4) ins work4).2).2)
                 (issue ins (advance 1000 (advance 10000
                    (set_tx (InTxn (run_stmt (clock w4) ins work4).2)
                            (issue ins w4).2)))).2)) as Hrep.
    { rewrite (bind_Ret _ _ _ _ _ (guarded_in_tx_answered (DeleteProducts id) w3 work3
                                     eq_refl eq_refl ltac:(by rewrite Hsc3))).
      fold work4 w4. simpl insertProducts.
      rewrite (bind_Ret _ _ _ _ _ (guarded_in_tx_late_then_answered ins w4 work4
                                     eq_refl eq_refl ltac:(by rewrite Hsc4)
                                     ltac:(by rewrite Hsc4))).
      reflexivity. }
    rewrite (bind_Ret _ _ _ _ _ Hrep).
    set (w5 := set_tx _ _).
    rewrite (bind_Ret _ _ _ _ _ (commit_answered w5 _ eq_refl
                                   ltac:(by simpl; rewrite Hsc))).
    eexists. split; [reflexivity|]. simpl.
    unfold work4, work3, upd. simpl. rewrite Hq0. simpl.
    by rewrite <- app_assoc. }
  assert (putQuotation id body w = (Ret (revised_as (newCustomId (custom_id q0))), wF))
    as ->.
  { unfold putQuotation, try_catch. by rewrite (retry_Ret _ _ _ _ _ _ Hrun). }
  simpl. rewrite HF. split; [done|]. split.
  - simpl. rewrite List.filter_app, filter_of_other. simpl.
    by rewrite of_quotation_productRow.
  - eexists. split; [simpl; apply lookup_insert_eq|].
    unfold updated_row, updateParams. rewrite Hb. unfold revisionTotals.
    destruct (computeTotals (map numericItem [p])) as [[a b] c] eqn:E. simpl.
    by rewrite <- E.
Qed.

(** One line item, 2 x 10, for the sample quotation. *)
Lemma put_retried_insert_stores_twice_witness :
  map vat (List.filter (of_quotation 7)
             (quotation_products
                (committed (putQuotation 7 (sample_body (Some [lineItem "10" "2"]) None)
                              (sample_world [Fast; Fast; Fast; Fast; Slow])).2)))
  = [3%float; 3%float].
Proof.
  destruct (put_retried_insert_stores_twice 7 (sample_body (Some [lineItem "10" "2"]) None)
              (sample_world [Fast; Fast; Fast; Fast; Slow]) sample_quotation
              (lineItem "10" "2") eq_refl eq_refl ltac:(vm_compute; reflexivity) eq_refl)
    as (_ & Hrows & _).
  rewrite Hrows. vm_compute. reflexivity.
Defined.

(** ** Revision counters over several writes *)

Lemma of_uint_acc_fold u : forall acc,
  Z.pos (Pos.of_uint_acc u acc)
  = fold_left (fun a c => a * 10 + JsNumber.digit_value c)
              (js (NilEmpty.string_of_uint u)) (Z.pos acc).
Proof.
  induction u; intros acc; cbn [Pos.of_uint_acc NilEmpty.string_of_uint js
                               list_ascii_of_string fold_left]; [done|..];
    rewrite IHu; f_equal;
    match goal with
    | |- _ = _ + JsNumber.digit_value ?c =>
        let v := eval vm_compute in (JsNumber.digit_value c) in
        change (JsNumber.digit_value c) with v
    end; lia.
Qed.

Lemma of_uint_fold u :
  Z.of_N (Pos.of_uint u)
  = fold_left (fun a c => a * 10 + JsNumber.digit_value c)
              (js (NilEmpty.string_of_uint u)) 0.
Proof.
  induction u; cbn [Pos.of_uint NilEmpty.string_of_uint js list_ascii_of_string
                    fold_left Z.of_N]; [done|exact IHu|..];
    rewrite of_uint_acc_fold; f_equal.
Qed.

(** Reading back the decimal digits of a counter gives the counter. *)
Lemma digits_value_decimal z : 0 <= z -> JsNumber.digits_value (JsNumber.decimal z) = z.
Proof.
  intros Hz. transitivity (Z.of_N (N.of_uint (N.to_uint (Z.to_N z))));
    [|by rewrite DecimalN.Unsigned.of_to, Z2N.id].
  unfold N.of_uint. rewrite of_uint_fold.
  unfold JsNumber.digits_value, JsNumber.decimal, NilZero.string_of_uint.
  destruct (N.to_uint (Z.to_N z)); [by vm_compute|done..].
Qed.

(** X7.  Successive revisions count up.  Deriving n times (n at least 1)
    from a custom_id that ends in Rev<N> gives the same text with the
    counter N + n, written without leading zeros; deriving n times from a
    custom_id without such a suffix gives the text followed by " Rev" and
    n.  Both hold as long as the counter stays within 2^53. *)
Theorem successive_revisions :
  (forall p d (n : nat),
     digit_string d -> (1 <= n)%nat -> JsNumber.digits_value d + Z.of_nat n <= 2 ^ 53 ->
     Nat.iter n newCustomId (p ++ js "Rev" ++ d)
     = p ++ js "Rev" ++ JsNumber.decimal (JsNumber.digits_value d + Z.of_nat n))
  /\ (forall base (n : nat),
        ~ ends_in_Rev base -> (1 <= n)%nat -> Z.of_nat n <= 2 ^ 53 ->
        Nat.iter n newCustomId base = base ++ js " Rev" ++ JsNumber.decimal (Z.of_nat n)).
Proof.
  assert (forall p d (n : nat),
            digit_string d -> (1 <= n)%nat -> JsNumber.digits_value d + Z.of_nat n <= 2 ^ 53 ->
            Nat.iter n newCustomId (p ++ js "Rev" ++ d)
            = p ++ js "Rev" ++ JsNumber.decimal (JsNumber.digits_value d + Z.of_nat n)) as Hrev.
  { intros p d n Hd Hn. pose proof (JsNumberFacts.digits_value_nonneg d (proj2 Hd)) as H0.
    induction n as [|n IH]; [lia|]. intros Hle.
    destruct n as [|n].
    - simpl. apply newCustomId_Rev; [done|lia].
    - rewrite Nat.iter_succ, IH by lia.
      rewrite newCustomId_Rev;
        [|apply JsNumberFacts.decimal_digit_string|rewrite digits_value_decimal; lia].
      rewrite digits_value_decimal by lia. do 3 f_equal. lia. }
  split; [exact Hrev|].
  intros base n Hno Hn Hle. destruct n as [|n]; [lia|].
  rewrite Nat.iter_succ_r, newCustomId_plain by done.
  destruct n as [|n]; [done|].
  assert (digit_string (js "1")) as H1 by (split; [done|by repeat constructor]).
  pose proof (Hrev (base ++ js " ") (js "1") (S n) H1 ltac:(lia)) as H.
  rewrite <- !app_assoc in H. change (js " " ++ js "Rev" ++ js "1") with (js " Rev1") in H.
  rewrite H.
  - change (JsNumber.digits_value (js "1")) with 1.
    replace (1 + Z.of_nat (S n)) with (Z.of_nat (S (S n))) by lia.
    done.
  - change (JsNumber.digits_value (js "1")) with 1. lia.
Qed.

(** Three revisions of "Q-7 Rev08", and three of "Q-7". *)
Lemma successive_revisions_witness :
  Nat.iter 3 newCustomId (js "Q-7 " ++ js "Rev" ++ js "08")
  = js "Q-7 " ++ js "Rev" ++ JsNumber.decimal (JsNumber.digits_value (js "08") + Z.of_nat 3)
  /\ JsNumber.decimal (JsNumber.digits_value (js "08") + Z.of_nat 3) = js "11".
Proof.
  split; [|by vm_compute].
  apply (proj1 successive_revisions (js "Q-7 ") (js "08") 3%nat).
  - split; [done|by repeat constructor].
  - lia.
  - by vm_compute.
Defined.

(** ** The two patterns that guard account provisioning *)

Lemma no_at_no_space l :
  Forall (fun ch => not_space_or_at ch = true) l ->
  List.filter (Ascii.eqb "@") l = [] /\ Forall (fun ch => RegExp.is_space ch = false) l.
Proof.
  induction 1 as [|ch l Hch Hall [IH1 IH2]]; [done|].
  apply not_space_or_at_spec in Hch as [Hs Hat]. cbn [List.filter].
  destruct (Ascii.eqb_spec "@" ch) as [<-|_]; [done|]. split; [done|by constructor].
Qed.

(** X8.  The email pattern of the driver registration accepts exactly the
    texts of the form a@b.c in which a, b and c are non-empty and contain
    neither white space nor "@" (b and c may contain further dots).  So an
    accepted email has exactly one "@" and no white space. *)
Theorem emailRegex_shape (s : JsString) :
  (RegExp.test emailRegex s = true <->
   exists a b c,
     s = a ++ js "@" ++ b ++ js "." ++ c
     /\ a <> [] /\ b <> [] /\ c <> []
     /\ Forall (fun ch => not_space_or_at ch = true) (a ++ b ++ c))
  /\ (RegExp.test emailRegex s = true ->
      length (List.filter (Ascii.eqb "@") s) = 1%nat
      /\ Forall (fun ch => RegExp.is_space ch = false) s).
Proof.
  assert (RegExp.test emailRegex s = true <->
          exists a b c,
            s = a ++ js "@" ++ b ++ js "." ++ c
            /\ a <> [] /\ b <> [] /\ c <> []
            /\ Forall (fun ch => not_space_or_at ch = true) (a ++ b ++ c)) as Hiff.
  { rewrite RegExpFacts.test_accepts. unfold emailRegex. split.
    - intros (a & r1 & -> & [Ha Haa]%RegExpFacts.accepts_plus_chr & H)%RegExpFacts.accepts_seq.
      apply RegExpFacts.accepts_seq in H
        as (x & r2 & -> & (ch & -> & Hch)%RegExpFacts.accepts_chr & H).
      apply Ascii.eqb_eq in Hch as <-.
      apply RegExpFacts.accepts_seq in H
        as (b & r3 & -> & [Hb Hbb]%RegExpFacts.accepts_plus_chr & H).
      apply RegExpFacts.accepts_seq in H
        as (y & c & -> & (ch & -> & Hch)%RegExpFacts.accepts_chr
            & [Hc Hcc]%RegExpFacts.accepts_plus_chr).
      apply Ascii.eqb_eq in Hch as <-.
      exists a, b, c. split_and!; try done. by rewrite !Forall_app.
    - intros (a & b & c & -> & Ha & Hb & Hc & Hall).
      apply Forall_app in Hall as [Haa Hall]. apply Forall_app in Hall as [Hbb Hcc].
      apply RegExpFacts.accepts_seq. exists a, (js "@" ++ b ++ js "." ++ c).
      split; [done|]. split; [by apply RegExpFacts.accepts_plus_chr|].
      apply RegExpFacts.accepts_seq. exists (js "@"), (b ++ js "." ++ c).
      split; [done|]. split; [apply RegExpFacts.accepts_chr; by exists "@"%char|].
      apply RegExpFacts.accepts_seq. exists b, (js "." ++ c).
      split; [done|]. split; [by apply RegExpFacts.accepts_plus_chr|].
      apply RegExpFacts.accepts_seq. exists (js "."), c.
      split; [done|]. split; [apply RegExpFacts.accepts_chr; by exists "."%char|].
      by apply RegExpFacts.accepts_plus_chr. }
  split; [exact Hiff|].
  intros (a & b & c & -> & _ & _ & _ & Hall)%Hiff.
  apply Forall_app in Hall as [Haa Hall]. apply Forall_app in Hall as [Hbb Hcc].
  apply no_at_no_space in Haa as [Ha1 Ha2].
  apply no_at_no_space in Hbb as [Hb1 Hb2].
  apply no_at_no_space in Hcc as [Hc1 Hc2].
  split.
  - rewrite !List.filter_app, Ha1, Hb1, Hc1. done.
  - rewrite !Forall_app. split_and!; try done; by repeat constructor.
Qed.

(** X9.  The phone pattern accepts exactly an optional leading "+"
    followed by eight or more characters, each of them a digit, white
    space or a hyphen. *)
Theorem phoneRegex_shape (s : JsString) :
  RegExp.test phoneRegex s = true <->
  exists body,
    (s = body \/ s = js "+" ++ body)
    /\ (8 <= length body)%nat
    /\ Forall (fun ch => phone_char ch = true) body.
Proof.
  rewrite RegExpFacts.test_accepts. unfold phoneRegex, RegExp.Opt.
  rewrite RegExpFacts.accepts_seq. split.
  - intros (s1 & body & -> & H1 & [Hn Hall]%accepts_at_least).
    exists body. split; [|done].
    apply RegExpFacts.accepts_alt in H1 as [->%RegExpFacts.accepts_eps|H1]; [by left|].
    apply RegExpFacts.accepts_chr in H1 as (ch & -> & <-%Ascii.eqb_eq). by right.
  - intros (body & [-> | ->] & Hn & Hall).
    + exists [], body. split; [done|]. split; [|by apply accepts_at_least].
      apply RegExpFacts.accepts_alt. left. by apply RegExpFacts.accepts_eps.
    + exists (js "+"), body. split; [done|]. split; [|by apply accepts_at_least].
      apply RegExpFacts.accepts_alt. right. apply RegExpFacts.accepts_chr. by exists "+"%char.
Qed.

(** ** The gateway: how long, how often *)

Lemma lasts_ret {A} (a : A) : lasts (ret a) 0.
Proof. intros w. simpl. lia. Qed.

Lemma lasts_throw {A} e : lasts (@throw A e) 0.
Proof. intros w. simpl. lia. Qed.

Lemma lasts_weaken {A} (m : M A) t t' : lasts m t -> t <= t' -> lasts m t'.
Proof. intros Hm Ht w. specialize (Hm w). lia. Qed.

Lemma lasts_bind {A B} (m : M A) (k : A -> M B) t1 t2 :
  lasts m t1 -> (forall a, lasts (k a) t2) -> 0 <= t2 -> lasts (bind m k) (t1 + t2).
Proof.
  intros Hm Hk Ht2 w. unfold bind. specialize (Hm w).
  destruct (m w) as [[a|e] w']; simpl in *; [|lia].
  specialize (Hk a w'). lia.
Qed.

Lemma lasts_try_catch {A} (m : M A) (h : Error -> M A) t1 t2 :
  lasts m t1 -> (forall e, lasts (h e) t2) -> 0 <= t2 -> lasts (try_catch m h) (t1 + t2).
Proof.
  intros Hm Hh Ht2 w. unfold try_catch. specialize (Hm w).
  destruct (m w) as [[a|e] w']; simpl in *; [lia|].
  specialize (Hh e w'). lia.
Qed.

Lemma lasts_ret_within {A} (a : A) t : 0 <= t -> lasts (ret a) t.
Proof. intros Ht. eapply lasts_weaken; [apply lasts_ret|done]. Qed.

Lemma lasts_throw_within {A} e t : 0 <= t -> lasts (@throw A e) t.
Proof. intros Ht. eapply lasts_weaken; [apply lasts_throw|done]. Qed.

Lemma lasts_bind_within {A B} (m : M A) (k : A -> M B) t1 t2 t :
  lasts m t1 -> (forall a, lasts (k a) t2) -> 0 <= t2 -> t1 + t2 <= t ->
  lasts (bind m k) t.
Proof. intros Hm Hk H2 Ht. eapply lasts_weaken; [by apply lasts_bind|done]. Qed.

Lemma lasts_try_catch_within {A} (m : M A) (h : Error -> M A) t1 t2 t :
  lasts m t1 -> (forall e, lasts (h e) t2) -> 0 <= t2 -> t1 + t2 <= t ->
  lasts (try_catch m h) t.
Proof. intros Hm Hh H2 Ht. eapply lasts_weaken; [by apply lasts_try_catch|done]. Qed.

Lemma pow2_succ n : 2 ^ Z.of_nat (S n) = 2 * 2 ^ Z.of_nat n.
Proof. rewrite Nat2Z.inj_succ, Z.pow_succ_r by lia. done. Qed.

(** [executeWithRetry(fn, n, d)]: at most n + 1 attempts and pauses of
    d, 2d, ..., 2^(n-1) d between them. *)
Lemma lasts_retry {A} (fn : M A) t n : forall d,
  0 <= d -> 0 <= t -> lasts fn t ->
  lasts (executeWithRetry fn n d) ((Z.of_nat n + 1) * t + d * (2 ^ Z.of_nat n - 1)).
Proof.
  induction n as [|n IH]; intros d Hd Ht Hfn w.
  - simpl. specialize (Hfn w). destruct (fn w) as [[a|e] w']; simpl in *; lia.
  - cbn [executeWithRetry]. pose proof (Hfn w) as Hw.
    destruct (fn w) as [[a|e] w'] eqn:E; simpl in Hw.
    + simpl. pose proof (Z.pow_pos_nonneg 2 (Z.of_nat (S n)) ltac:(lia) ltac:(lia)). nia.
    + specialize (IH (d * 2) ltac:(lia) Ht Hfn (advance d w')). simpl in IH.
      rewrite pow2_succ.
      pose proof (Z.pow_pos_nonneg 2 (Z.of_nat n) ltac:(lia) ltac:(lia)). nia.
Qed.

Lemma lasts_withTimeout {A} (p : Promise A) t :
  0 <= t -> (forall w, clock (p w).2 = clock w) -> lasts (withTimeout p t) t.
Proof.
  intros Ht Hp w. unfold withTimeout. specialize (Hp w).
  destruct (p w) as [[a [|]|e] w']; simpl in *; lia.
Qed.

Lemma client_query_clock s w : clock (client_query s w).2 = clock w.
Proof.
  destruct (is_data s) eqn:Hs.
  - rewrite client_query_data by done. cbv zeta. unfold issue.
    destruct (tx w) as [|work|]; destruct (hd Fast (script w)); try reflexivity.
    all: match goal with |- context [run_stmt ?t ?s ?d] => destruct (run_stmt t s d) end;
      reflexivity.
  - unfold client_query, issue.
    destruct s; try discriminate; simpl;
      destruct (tx w); destruct (hd Fast (script w)); reflexivity.
Qed.

Lemma pool_query_clock s w : clock (pool_query s w).2 = clock w.
Proof.
  rewrite pool_query_unfold. cbv zeta. unfold issue.
  destruct (hd Fast (script w)); try reflexivity.
  all: destruct (run_stmt (clock w) s (committed w)); reflexivity.
Qed.

Lemma fetch_clerk_clock email name role w : clock (fetch_clerk email name role w).2 = clock w.
Proof. unfold fetch_clerk. by destruct (hd _ (idp w)). Qed.

Lemma lasts_guarded p :
  (forall w, clock (p w).2 = clock w) -> lasts (guarded p) 47000.
Proof.
  intros Hp. unfold guarded.
  apply (lasts_retry (withTimeout p 10000) 10000 3 1000); [lia|lia|].
  by apply lasts_withTimeout.
Qed.

Lemma lasts_createClerkUser email name role : lasts (createClerkUser email name role) 47000.
Proof.
  unfold createClerkUser. apply (lasts_bind_within _ _ 47000 0); [| |lia|lia].
  - apply (lasts_retry (withTimeout (fetch_clerk email name role) 10000) 10000 3 1000);
      [lia|lia|]. apply lasts_withTimeout; [lia|]. apply fetch_clerk_clock.
  - intros [id|]; [apply lasts_ret|apply lasts_throw].
Qed.

(** X10.  Time the gateway adds.  The clock counts 10 seconds for every
    attempt that loses its race against the timer and the pauses between
    attempts; an attempt that is answered in time counts as no time.  On
    this clock a statement under the gateway never sets the time back and
    is given up at the latest 47 seconds after it was first issued: four
    lost races and pauses of 1, 2 and 4 seconds.  Hence the quotation
    read, which issues up to three statements, all of them under the
    gateway, ends within 141 seconds, and the deleter, which issues two,
    within 94. *)
Theorem waiting_time_bounds :
  (forall s, lasts (guarded (pool_query s)) 47000)
  /\ (forall s, lasts (guarded (client_query s)) 47000)
  /\ (forall id, lasts (getQuotation id) 141000)
  /\ (forall id, lasts (deleteQuotation id) 94000).
Proof.
  assert (forall s, lasts (guarded (pool_query s)) 47000) as Hpool.
  { intros s. apply lasts_guarded, pool_query_clock. }
  assert (forall s, lasts (guarded (client_query s)) 47000) as Hclient.
  { intros s. apply lasts_guarded, client_query_clock. }
  split_and!; [done|done|..].
  - intros id. unfold getQuotation.
    apply (lasts_try_catch_within _ _ 141000 0); [|intros e; apply lasts_ret|lia|lia].
    apply (lasts_bind_within _ _ 47000 94000); [apply Hpool| |lia|lia].
    intros r. destruct (rows r) as [|row0 rest]; [apply lasts_ret_within; lia|].
    apply (lasts_bind_within _ _ 47000 47000); [apply Hpool| |lia|lia].
    intros r2.
    apply (lasts_bind_within _ _ 47000 0); [apply Hpool|intros ?; apply lasts_ret|lia|lia].
  - intros id. unfold deleteQuotation.
    apply (lasts_try_catch_within _ _ 94000 0); [|intros e; apply lasts_ret|lia|lia].
    apply (lasts_bind_within _ _ 47000 47000); [apply Hpool| |lia|lia].
    intros ?.
    apply (lasts_bind_within _ _ 47000 0); [apply Hpool| |lia|lia].
    intros r. destruct (rowCount r =? 0)%nat; apply lasts_ret.
Qed.

(** *** How often a statement is issued, and which error comes out *)

Lemma nth_tl {A} (l : list A) n d : nth n (tl l) d = nth (S n) l d.
Proof. destruct l; [by destruct n|done]. Qed.

Lemma repeat_snoc_app {A} (x : A) tr k : (tr ++ [x]) ++ repeat x k = tr ++ repeat x (S k).
Proof. by rewrite <- app_assoc. Qed.

(** One attempt of a statement on a pooled connection. *)
Lemma pool_attempt s w :
  withTimeout (pool_query s) 10000 w
  = match hd Fast (script w) with
    | Fast => (Ret (run_stmt (clock w) s (committed w)).1,
               set_committed (run_stmt (clock w) s (committed w)).2 (issue s w).2)
    | Slow => (Throw QueryTimedOut,
               advance 10000
                 (set_committed (run_stmt (clock w) s (committed w)).2 (issue s w).2))
    | Fails => (Throw DatabaseError, (issue s w).2)
    end.
Proof.
  unfold withTimeout. rewrite pool_query_unfold. cbv zeta.
  destruct (hd Fast (script w)); try reflexivity;
    destruct (run_stmt (clock w) s (committed w)); reflexivity.
Qed.

Lemma retry_pool_attempts s n : forall d w,
  (exists k, (1 <= k <= S n)%nat
             /\ trace (executeWithRetry (withTimeout (pool_query s) 10000) n d w).2
                = trace w ++ repeat (EvQuery s) k)
  /\ match (executeWithRetry (withTimeout (pool_query s) 10000) n d w).1 with
     | Ret _ => all_unanswered (S n) (script w) = false
     | Throw e =>
         all_unanswered (S n) (script w) = true
         /\ e = if is_slow (nth n (script w) Fast) then QueryTimedOut else DatabaseError
     end.
Proof.
  induction n as [|n IH]; intros d w.
  - cbn [executeWithRetry]. rewrite pool_attempt.
    change (all_unanswered 1 (script w))
      with (negb (answered_in_time (hd Fast (script w))) && true).
    replace (nth 0 (script w) Fast) with (hd Fast (script w)) by (by destruct (script w)).
    destruct (hd Fast (script w)) eqn:Eo; simpl;
      (split; [exists 1%nat; split; [lia|done]|done]).
  - cbn [executeWithRetry]. rewrite pool_attempt.
    change (all_unanswered (S (S n)) (script w))
      with (negb (answered_in_time (hd Fast (script w)))
            && all_unanswered (S n) (tl (script w))).
    rewrite <- nth_tl.
    destruct (hd Fast (script w)) eqn:Eo; cbn -[executeWithRetry all_unanswered].
    + split; [exists 1%nat; split; [lia|done]|done].
    + match goal with |- context [executeWithRetry _ n _ ?w1] => specialize (IH (d * 2) w1) end.
      cbn -[executeWithRetry all_unanswered] in IH.
      destruct IH as [(k & Hk & ->) IH]. split; [|exact IH].
      exists (S k). split; [lia|apply repeat_snoc_app].
    + match goal with |- context [executeWithRetry _ n _ ?w1] => specialize (IH (d * 2) w1) end.
      cbn -[executeWithRetry all_unanswered] in IH.
      destruct IH as [(k & Hk & ->) IH]. split; [|exact IH].
      exists (S k). split; [lia|apply repeat_snoc_app].
Qed.

(** X11.  A statement on a pooled connection under the gateway is issued
    at least once and at most four times, and nothing else is issued
    meanwhile.  The gateway throws exactly when none of the first four
    attempts is answered in time, and the error it throws is the one of the
    fourth attempt: the timeout if that attempt was late, the database's
    error if it failed. *)
Theorem gateway_attempts (s : Stmt) (w : World) :
  (exists k, (1 <= k <= 4)%nat
             /\ trace (guarded (pool_query s) w).2 = trace w ++ repeat (EvQuery s) k)
  /\ match (guarded (pool_query s) w).1 with
     | Ret _ => gives_up (script w) = false
     | Throw e =>
         gives_up (script w) = true
         /\ e = if is_slow (nth 3 (script w) Fast) then QueryTimedOut else DatabaseError
     end.
Proof. exact (retry_pool_attempts s 3 1000 w). Qed.

(** ** DELETE /quotations/:id when something goes wrong *)

Lemma auto_inv_weaken (J J' : Db -> Prop) (T T' : list Event -> Prop) c0 w :
  (forall db, J db -> J' db) -> (forall tr, T tr -> T' tr) ->
  auto_inv J T c0 w -> auto_inv J' T' c0 w.
Proof. intros HJ HT (H1 & H2 & H3). split_and!; auto. Qed.

Section DeleteAny.
Variables (id : Z) (w : World).

Local Abbreviation db0 := (committed w).

(** Before the line-item delete has been acknowledged. *)
Local Abbreviation K1 :=
  (fun db => same_side_tables db0 db
             /\ quotations db = quotations db0
             /\ (quotation_products db = quotation_products db0
                 \/ quotation_products db
                    = List.filter (other_quotation id) (quotation_products db0))).

(** After it. *)
Local Abbreviation K2 :=
  (fun db => same_side_tables db0 db
             /\ quotation_products db
                = List.filter (other_quotation id) (quotation_products db0)
             /\ (quotations db = quotations db0
                 \/ quotations db = delete id (quotations db0))).

Lemma delete_products_step t db : K1 db -> K2 (run_stmt t (DeleteProducts id) db).2.
Proof.
  intros (Hs & Hq & Hp). rewrite run_delete_products. simpl. split_and!; [done| |by left].
  destruct Hp as [->| ->]; [done|apply filter_filter_same].
Qed.

Lemma delete_quotation_step t db : K2 db -> K2 (run_stmt t (DeleteQuotation id) db).2.
Proof.
  intros (Hs & Hp & Hq). rewrite run_delete_quotation.
  destruct (quotations db !! id) as [q|] eqn:Eq; simpl; [|done].
  split_and!; [done|done|]. right. destruct Hq as [Hq|Hq]; [by rewrite Hq|].
  rewrite Hq in Eq. by rewrite lookup_delete_eq in Eq.
Qed.

Lemma deleteQuotation_any :
  K1 (committed (deleteQuotation id w).2) \/ K2 (committed (deleteQuotation id w).2).
Proof.
  assert (triple (fun w' => w' = w) (deleteQuotation id)
            (fun _ w' => K1 (committed w') \/ K2 (committed w'))
            (fun _ => False)) as Hspec.
  { unfold deleteQuotation.
    eapply triple_try_catch
      with (E1 := auto_inv (fun db => K1 db \/ K2 db) (fun _ => True) (clock w)).
    - eapply triple_bind.
      + eapply triple_weaken.
        * apply (guarded_pool (DeleteProducts id) K1 (fun _ => True) (fun _ => True) (clock w));
            [|done|done].
          intros t db _ HK. destruct (delete_products_step t db HK) as (Hs & Hp & _).
          destruct HK as (_ & Hq & _). split; [done|]. split; [done|by right].
        * intros w' ->. split; [lia|]. split; [|done].
          split; [done|]. split; [done|by left].
        * intros r w' Hw'. exact Hw'.
        * intros w' Hw'. eapply auto_inv_weaken; [| |exact Hw']; [by left|done].
      + intros r1. eapply triple_bind.
        * eapply triple_weaken.
          -- apply (guarded_pool (DeleteQuotation id) K2 (fun _ => True) (fun _ => True)
                      (clock w)); [|done|done].
             intros t db _ HK. by apply delete_quotation_step.
          -- intros w' (Hclk & _ & db & t & _ & HK & Hc & _).
             split; [done|]. split; [|done]. rewrite Hc. by apply delete_products_step.
          -- intros r w' Hw'. exact Hw'.
          -- intros w' Hw'. eapply auto_inv_weaken; [| |exact Hw']; [by right|done].
        * intros r2.
          assert (forall resp : Response,
                    triple (answered (DeleteQuotation id) K2 (fun _ => True) (clock w) r2)
                      (ret resp)
                      (fun _ w' => K1 (committed w') \/ K2 (committed w'))
                      (auto_inv (fun db => K1 db \/ K2 db) (fun _ => True) (clock w)))
            as Hret.
          { intros resp. apply triple_ret. intros w' (_ & _ & db & t & _ & HK & Hc & _).
            right. rewrite Hc. by apply delete_quotation_step. }
          destruct (rowCount r2 =? 0)%nat; apply Hret.
    - intros e. apply triple_ret. by intros w' (_ & HK & _). }
  specialize (Hspec w eq_refl).
  by destruct (deleteQuotation id w) as [[resp|e] w'].
Qed.

End DeleteAny.

(** X12.  The deleter works without a transaction, so it can stop half
    way; but whatever happens to its two statements, and whatever it
    answers, it touches nothing except the header row and the line items
    of the id it was given; the line items of that id are either all still
    there or all gone; and if it removed a header row, no line item of
    that quotation is left behind. *)
Theorem delete_leaves_no_orphans (id : Z) (w : World) :
  same_side_tables (committed w) (committed (deleteQuotation id w).2)
  /\ (forall j, j <> id ->
        quotations (committed (deleteQuotation id w).2) !! j = quotations (committed w) !! j)
  /\ List.filter (other_quotation id) (quotation_products (committed (deleteQuotation id w).2))
     = List.filter (other_quotation id) (quotation_products (committed w))
  /\ (List.filter (of_quotation id) (quotation_products (committed (deleteQuotation id w).2))
      = List.filter (of_quotation id) (quotation_products (committed w))
      \/ List.filter (of_quotation id) (quotation_products (committed (deleteQuotation id w).2))
         = [])
  /\ (is_Some (quotations (committed w) !! id) ->
      quotations (committed (deleteQuotation id w).2) !! id = None ->
      List.filter (of_quotation id) (quotation_products (committed (deleteQuotation id w).2))
      = []).
Proof.
  destruct (deleteQuotation_any id w) as [(Hs & Hq & Hp)|(Hs & Hp & Hq)].
  - split_and!; [done|by rewrite Hq| | |].
    + destruct Hp as [->| ->]; [done|apply filter_filter_same].
    + destruct Hp as [->| ->]; [by left|right; apply filter_of_other].
    + intros [q Hq0] Hnone. rewrite Hq, Hq0 in Hnone. done.
  - split_and!; [done| | | |].
    + intros j Hj. destruct Hq as [->| ->]; [done|by rewrite lookup_delete_ne].
    + rewrite Hp. apply filter_filter_same.
    + right. rewrite Hp. apply filter_of_other.
    + intros _ _. rewrite Hp. apply filter_of_other.
Qed.

(** Deleting the sample quotation with the first attempt of the header
    delete late: the header row is gone and so is its line item. *)
Lemma delete_leaves_no_orphans_witness :
  List.filter (of_quotation 7)
    (quotation_products (committed (deleteQuotation 7 (sample_world [Fast; Slow])).2)) = [].
Proof.
  apply (proj2 (proj2 (proj2 (proj2 (delete_leaves_no_orphans 7
           (sample_world [Fast; Slow])))))).
  - vm_compute. eauto.
  - by vm_compute.
Defined.

(** ** The identity provider (createClerkUser, lines 66-102) *)

Lemma provider_reply_tl l k : provider_reply (tl l) k = provider_reply l (S k).
Proof. unfold provider_reply. destruct l; [by destruct k|done]. Qed.

Lemma provider_reply_hd l : provider_reply l 0 = hd (Created (js "user_0")) l.
Proof. by destruct l. Qed.

(** One call, raced against the 10-second timer. *)
Lemma fetch_attempt email name role w :
  withTimeout (fetch_clerk email name role) 10000 w
  = let w' := {| committed := committed w; tx := tx w; script := script w;
                 idp := tl (idp w); clock := clock w;
                 trace := trace w ++ [EvIdentityProvider email name role] |} in
    match provider_reply (idp w) 0 with
    | Created id => (Ret (Some id), w')
    | Refused => (Ret None, w')
    | Unreachable => (Throw NetworkError, w')
    | Stalled => (Throw QueryTimedOut, advance 10000 w')
    end.
Proof.
  unfold withTimeout, fetch_clerk. rewrite provider_reply_hd.
  by destruct (hd (Created (js "user_0")) (idp w)).
Qed.

Lemma retry_fetch email name role n : forall d w,
  committed (executeWithRetry (withTimeout (fetch_clerk email name role) 10000) n d w).2
  = committed w
  /\ tx (executeWithRetry (withTimeout (fetch_clerk email name role) 10000) n d w).2 = tx w
  /\ (exists k, (1 <= k <= S n)%nat
        /\ trace (executeWithRetry (withTimeout (fetch_clerk email name role) 10000) n d w).2
           = trace w ++ repeat (EvIdentityProvider email name role) k
        /\ (forall j, (S j < k)%nat -> transient (provider_reply (idp w) j))
        /\ match (executeWithRetry (withTimeout (fetch_clerk email name role) 10000)
                    n d w).1 with
           | Ret (Some uid) => provider_reply (idp w) (k - 1) = Created uid
           | Ret None => provider_reply (idp w) (k - 1) = Refused
           | Throw _ => k = S n /\ transient (provider_reply (idp w) n)
           end).
Proof.
  induction n as [|n IH]; intros d w.
  - cbn [executeWithRetry]. rewrite fetch_attempt. cbv zeta.
    destruct (provider_reply (idp w) 0) eqn:E; simpl;
      (split; [done|]); (split; [done|]); exists 1%nat;
      (split; [lia|]); (split; [done|]); (split; [intros j Hj; lia|]);
      try done; (split; [done|]); [by left|by right].
  - cbn [executeWithRetry]. rewrite fetch_attempt. cbv zeta.
    destruct (provider_reply (idp w) 0) eqn:E; cbn -[executeWithRetry].
    + split; [done|]. split; [done|]. exists 1%nat.
      split; [lia|]. split; [done|]. split; [intros j Hj; lia|done].
    + split; [done|]. split; [done|]. exists 1%nat.
      split; [lia|]. split; [done|]. split; [intros j Hj; lia|done].
    + match goal with |- context [executeWithRetry _ n _ ?w1] => specialize (IH (d * 2) w1) end.
      cbn -[executeWithRetry] in IH.
      destruct IH as (Hc & Htx & k & Hk & Htr & Hearly & Hres).
      split; [done|]. split; [done|]. exists (S k). split; [lia|].
      split; [rewrite Htr; apply repeat_snoc_app|].
      assert (forall j, provider_reply (idp w) (S j) = provider_reply (tl (idp w)) j) as Hsh.
      { intros j. by rewrite provider_reply_tl. }
      split.
      * intros [|j] Hj; [rewrite E; by left|]. rewrite Hsh. apply Hearly. lia.
      * replace (S k - 1)%nat with (S (k - 1)) by lia. rewrite !Hsh.
        destruct (executeWithRetry _ n _ _).1 as [[uid|]|e]; try done.
        destruct Hres as [-> Hres]. done.
    + match goal with |- context [executeWithRetry _ n _ ?w1] => specialize (IH (d * 2) w1) end.
      cbn -[executeWithRetry] in IH.
      destruct IH as (Hc & Htx & k & Hk & Htr & Hearly & Hres).
      split; [done|]. split; [done|]. exists (S k). split; [lia|].
      split; [rewrite Htr; apply repeat_snoc_app|].
      assert (forall j, provider_reply (idp w) (S j) = provider_reply (tl (idp w)) j) as Hsh.
      { intros j. by rewrite provider_reply_tl. }
      split.
      * intros [|j] Hj; [rewrite E; by right|]. rewrite Hsh. apply Hearly. lia.
      * replace (S k - 1)%nat with (S (k - 1)) by lia. rewrite !Hsh.
        destruct (executeWithRetry _ n _ _).1 as [[uid|]|e]; try done.
        destruct Hres as [-> Hres]. done.
Qed.

(** X13.  Creating the identity of a new user never touches the database
    or the connection.  The provider is called at least once and at most
    four times, and only as long as the call fails on the network or
    stalls: the first other reply ends it.  A created user's id is
    returned; a refusal is thrown as an error and is not tried again. *)
Theorem createClerkUser_calls (email name role : JsString) (w : World) :
  committed (createClerkUser email name role w).2 = committed w
  /\ tx (createClerkUser email name role w).2 = tx w
  /\ exists k,
       (1 <= k <= 4)%nat
       /\ trace (createClerkUser email name role w).2
          = trace w ++ repeat (EvIdentityProvider email name role) k
       /\ (forall j, (S j < k)%nat -> transient (provider_reply (idp w) j))
       /\ match (createClerkUser email name role w).1 with
          | Ret uid => provider_reply (idp w) (k - 1) = Created uid
          | Throw e =>
              (e = ClerkApiError /\ provider_reply (idp w) (k - 1) = Refused)
              \/ (e <> ClerkApiError /\ k = 4%nat /\ transient (provider_reply (idp w) 3))
          end.
Proof.
  assert (forall n d w0,
            match (executeWithRetry (withTimeout (fetch_clerk email name role) 10000)
                     n d w0).1 with
            | Throw ClerkApiError => False
            | _ => True
            end) as Hno.
  { induction n as [|n IH]; intros d w0; cbn [executeWithRetry];
      rewrite fetch_attempt; cbv zeta;
      destruct (provider_reply (idp w0) 0); cbn -[executeWithRetry]; try done; apply IH. }
  specialize (Hno 3%nat 1000 w).
  unfold createClerkUser, bind.
  destruct (retry_fetch email name role 3 1000 w) as (Hc & Htx & k & Hk & Htr & Hearly & Hres).
  destruct (executeWithRetry _ 3 1000 w) as [[[uid|]|e] w'];
    cbn [fst snd ret throw] in *.
  - split; [done|]. split; [done|]. exists k. done.
  - split; [done|]. split; [done|]. exists k.
    split; [lia|]. split; [done|]. split; [done|]. by left.
  - split; [done|]. split; [done|]. exists k.
    split; [lia|]. split; [done|]. split; [done|]. right.
    destruct Hres as [-> Ht]. split; [|done]. by intros ->.
Qed.

(** ** POST /drivers: a valid request for a new email *)

Lemma client_query_idp s w : idp (client_query s w).2 = idp w.
Proof.
  destruct (is_data s) eqn:Hs.
  - rewrite client_query_data by done. cbv zeta. unfold issue.
    destruct (tx w) as [|work|]; destruct (hd Fast (script w)); try reflexivity.
    all: match goal with |- context [run_stmt ?t ?s ?d] => destruct (run_stmt t s d) end;
      reflexivity.
  - unfold client_query, issue.
    destruct s; try discriminate; simpl;
      destruct (tx w); destruct (hd Fast (script w)); reflexivity.
Qed.

Lemma guarded_client_idp s (l : list IdpReply) :
  triple (fun w => idp w = l) (guarded (client_query s))
         (fun _ w => idp w = l) (fun w => idp w = l).
Proof.
  apply triple_guarded; [by intros ms w _ Hw|].
  intros w Hw. pose proof (client_query_idp s w) as Hi.
  destruct (client_query s w) as [[a [|]|e] w']; simpl in Hi; congruence.
Qed.

Lemma createClerkUser_source email name role w :
  committed (createClerkUser email name role w).2 = committed w
  /\ tx (createClerkUser email name role w).2 = tx w
  /\ clock w <= clock (createClerkUser email name role w).2
  /\ match (createClerkUser email name role w).1 with
     | Ret uid =>
         exists k, (k < 4)%nat /\ provider_reply (idp w) k = Created uid
                   /\ forall j, (j < k)%nat -> transient (provider_reply (idp w) j)
     | Throw _ => True
     end.
Proof.
  pose proof (lasts_createClerkUser email name role w) as Hclk.
  unfold createClerkUser, bind in *.
  destruct (retry_fetch email name role 3 1000 w) as (Hc & Htx & k & Hk & Htr & Hearly & Hres).
  destruct (executeWithRetry _ 3 1000 w) as [[[uid|]|e] w'];
    cbn [fst snd ret throw] in *; (split_and!; [done|done|lia|]); [|done|done].
  exists (k - 1)%nat. split; [lia|]. split; [done|].
  intros j Hj. apply Hearly. lia.
Qed.

Lemma set_drivers_self db : set_drivers (drivers db ++ []) db = db.
Proof. rewrite app_nil_r. by destruct db. Qed.

Section Register.
Variables (req : DriverRequest) (w : World).
Hypothesis Hvalid : invalidRequest req = false.
Hypothesis Htx : tx w = Idle.
Hypothesis Hnew : forall d, In d (drivers (committed w)) -> driver_email d <> text (r_email req).

Local Abbreviation email := (text (r_email req)).
Local Abbreviation name := (text (r_name req)).
Local Abbreviation phone := (text (r_phone req)).
Local Abbreviation role := (default (js "driver") (r_role req)).
Local Abbreviation db0 := (committed w).
Local Abbreviation c0 := (clock w).

(** Where the identity of the new record comes from. *)
Local Abbreviation Src :=
  (fun uid =>
     if missing (r_clerkId req)
     then exists k, (k < 4)%nat /\ provider_reply (idp w) k = Created uid
                    /\ forall j, (j < k)%nat -> transient (provider_reply (idp w) j)
     else uid = text (r_clerkId req)).

Local Abbreviation J :=
  (fun uid db => exists ds, db = set_drivers (drivers db0 ++ ds) db0
                            /\ Forall (registered_as req uid) ds).

Local Abbreviation R :=
  (fun db => exists ds, db = set_drivers (drivers db0 ++ ds) db0
                        /\ (ds = [] \/ exists uid, Src uid /\ Forall (registered_as req uid) ds)).

Local Abbreviation registered :=
  (fun d => {| code := 200;
               payload := PDriver "Driver registered successfully" (Some (RowDriver d)) |}).

Lemma no_such_driver t :
  rows (run_stmt t (SelectDriverByEmail email) db0).1 = [].
Proof using Hnew.
  rewrite run_select_driver. simpl.
  assert (List.filter (fun d => jseqb (driver_email d) email) (drivers db0) = []) as ->; [|done].
  induction (drivers db0) as [|d l IH]; [done|]. simpl.
  assert (jseqb (driver_email d) email = false) as ->.
  { unfold jseqb. apply bool_decide_eq_false. apply Hnew. by left. }
  apply IH. intros d' Hd'. apply Hnew. by right.
Qed.

Lemma insert_driver_step uid t db :
  J uid db ->
  exists d ds,
    Forall (registered_as req uid) (ds ++ [d])
    /\ run_stmt t (InsertDriver name email phone uid role) db
       = (result_of [RowDriver d], set_drivers (drivers db0 ++ ds ++ [d]) db0).
Proof.
  intros (ds & -> & Hds). eexists _, ds. split; [|simpl; by rewrite <- app_assoc].
  apply Forall_app. split; [done|]. by repeat constructor.
Qed.

Lemma J_R uid db : Src uid -> J uid db -> R db.
Proof. intros Hs (ds & -> & Hds). exists ds. split; [done|]. right. by exists uid. Qed.

Lemma postDriver_registers :
  match postDriver req w with
  | (Ret resp, w') =>
      R (committed w')
      /\ (code resp = 500
          \/ exists uid d ds,
               Src uid /\ Forall (registered_as req uid) (ds ++ [d])
               /\ committed w' = set_drivers (drivers db0 ++ ds ++ [d]) db0
               /\ resp = registered d)
  | (Throw _, _) => False
  end.
Proof using Hvalid Htx Hnew.
  assert (triple (fun w' => w' = w) (postDriver req)
            (fun resp w' =>
               R (committed w')
               /\ (code resp = 500
                   \/ exists uid d ds,
                        Src uid /\ Forall (registered_as req uid) (ds ++ [d])
                        /\ committed w' = set_drivers (drivers db0 ++ ds ++ [d]) db0
                        /\ resp = registered d))
            (fun _ => False)) as Hspec.
  { rewrite postDriver_valid by done.
    eapply triple_try_catch with (E1 := fun w' => R (committed w')).
    - eapply triple_bind.
      + eapply triple_weaken.
        * apply triple_conj.
          -- apply (guarded_client_idle (SelectDriverByEmail email) (eq db0)
                      (fun _ => True) (fun _ => True) c0); [done| |done|done].
             by intros t db _ <-.
          -- apply (guarded_client_idp (SelectDriverByEmail email) (idp w)).
        * intros w' ->. split; [|done]. split; [done|]. split_and!; [lia|done|done].
        * intros r w' Hw'. exact Hw'.
        * intros w' [(_ & _ & <- & _) _]. exists []. split; [by rewrite set_drivers_self|by left].
      + intros r.
        apply (triple_assume (rows r = [] /\ True)).
        { intros w' [(_ & _ & _ & db & t & _ & <- & _ & ->) _]. split; [apply no_such_driver|done]. }
        intros [-> _]. cbn [length Nat.ltb Nat.leb].
        eapply triple_bind.
        * instantiate (1 := fun uid w' => tx w' = Idle /\ committed w' = db0
                                         /\ c0 <= clock w' /\ Src uid).
          destruct (missing (r_clerkId req)) eqn:Em.
          -- intros w1 [(Htx1 & Hclk1 & _ & db & t & _ & <- & Hc1 & _) Hidp1].
             rewrite run_select_driver in Hc1. simpl in Hc1.
             pose proof (createClerkUser_source email name role w1) as (Hc & Ht & Hclk & Hres).
             destruct (createClerkUser email name role w1) as [[uid|e] w2]; simpl in *.
             ++ rewrite Hidp1 in Hres. split_and!; [congruence|congruence|lia|done].
             ++ exists []. split; [rewrite set_drivers_self; congruence|by left].
          -- apply triple_ret.
             intros w1 [(Htx1 & Hclk1 & _ & db & t & _ & <- & Hc1 & _) Hidp1].
             rewrite run_select_driver in Hc1. simpl in Hc1. done.
        * intros uid. apply (triple_assume (Src uid)); [by intros w' (_ & _ & _ & H)|].
          intros Hsrc.
          eapply triple_bind.
          -- eapply triple_weaken.
             ++ apply (guarded_client_idle (InsertDriver name email phone uid role) (J uid)
                         (fun _ => True) (fun _ => True) c0); [done| |done|done].
                intros t db _ HJ. destruct (insert_driver_step uid t db HJ) as (d & ds & Hds & ->).
                exists (ds ++ [d]). done.
             ++ intros w' (Htx1 & Hc1 & Hclk1 & _). split; [done|].
                split_and!; [done| |done]. exists []. rewrite Hc1.
                split; [by rewrite set_drivers_self|done].
             ++ intros r2 w' Hw'. exact Hw'.
             ++ intros w' (_ & _ & HJ & _). by eapply J_R.
          -- intros result. apply triple_ret.
             intros w' (_ & _ & _ & db & t & _ & HJ & Hc & ->).
             destruct (insert_driver_step uid t db HJ) as (d & ds & Hds & Hrun).
             rewrite Hrun in *. simpl in *. split.
             ++ eapply (J_R uid); [done|]. exists (ds ++ [d]). done.
             ++ right. exists uid, d, ds. done.
    - intros e. apply triple_ret. intros w' HR. split; [done|by left]. }
  by apply (Hspec w).
Qed.

End Register.

Lemma set_drivers_inj db l1 l2 :
  set_drivers (drivers db ++ l1) db = set_drivers (drivers db ++ l2) db -> l1 = l2.
Proof. intros H. apply (f_equal drivers) in H. simpl in H. by apply app_inv_head in H. Qed.

(** With the identity given in the request, only statements are issued. *)
Lemma postDriver_no_provider req w :
  invalidRequest req = false -> missing (r_clerkId req) = false ->
  idp (postDriver req w).2 = idp w
  /\ exists tr, trace (postDriver req w).2 = trace w ++ tr /\ Forall is_statement tr.
Proof.
  intros Hvalid Em.
  set (T := fun tr : list Event => exists tr', tr = trace w ++ tr' /\ Forall is_statement tr').
  assert (forall s tr, T tr -> T (tr ++ [EvQuery s])) as HT.
  { intros s tr (tr' & -> & Htr). exists (tr' ++ [EvQuery s]). split; [by rewrite app_assoc|].
    apply Forall_app. split; [done|]. repeat constructor. by exists s. }
  assert (triple (fun w' => idp w' = idp w /\ T (trace w')) (postDriver req)
            (fun _ w' => idp w' = idp w /\ T (trace w'))
            (fun w' => idp w' = idp w /\ T (trace w'))) as Hspec.
  { rewrite postDriver_valid by done. rewrite Em.
    assert (forall s, triple (fun w' => idp w' = idp w /\ T (trace w'))
                        (guarded (client_query s))
                        (fun _ w' => idp w' = idp w /\ T (trace w'))
                        (fun w' => idp w' = idp w /\ T (trace w'))) as Hq.
    { intros s. apply triple_conj; [apply guarded_client_idp|].
      apply (guarded_client_trace s T). apply HT. }
    eapply triple_try_catch with (E1 := fun w' => idp w' = idp w /\ T (trace w'));
      [|intros e; by apply triple_ret].
    eapply triple_bind; [apply Hq|]. intros r.
    destruct (0 <? length (rows r))%nat; [by apply triple_ret|].
    eapply triple_bind.
    { apply (triple_ret _ _ (fun _ w' => idp w' = idp w /\ T (trace w'))). by intros w1 Hw1. }
    intros uid.
    eapply triple_bind; [apply Hq|]. intros r2. by apply triple_ret. }
  specialize (Hspec w ltac:(split; [done|exists []; split; [by rewrite app_nil_r|constructor]])).
  by destruct (postDriver req w) as [[resp|e] w'].
Qed.

Lemma postDriver_at_once req w :
  invalidRequest req = false -> tx w = Idle ->
  (forall d, In d (drivers (committed w)) -> driver_email d <> text (r_email req)) ->
  missing (r_clerkId req) = false -> script w = [] ->
  exists d, postDriver req w
            = (Ret {| code := 200;
                      payload := PDriver "Driver registered successfully"
                                         (Some (RowDriver d)) |},
               set_committed (set_drivers (drivers (committed w) ++ [d]) (committed w))
                 (issue (InsertDriver (text (r_name req)) (text (r_email req))
                           (text (r_phone req)) (text (r_clerkId req))
                           (default (js "driver") (r_role req)))
                    (set_committed (committed w)
                       (issue (SelectDriverByEmail (text (r_email req))) w).2)).2).
Proof.
  intros Hvalid Htx Hnew Em Hsc. rewrite postDriver_valid by done.
  unfold try_catch, bind.
  rewrite guarded_client_idle_fast by (try done; by rewrite Hsc).
  rewrite (no_such_driver req w Hnew). cbn [length Nat.ltb Nat.leb]. rewrite Em.
  cbn [ret]. rewrite run_select_driver. cbn [snd].
  rewrite guarded_client_idle_fast by (try done; by simpl; rewrite Hsc).
  eexists. reflexivity.
Qed.

(** X14.  A valid registration for an email that has no record yet, sent
    with the identity of an existing user, on an idle connection.  The
    answer is success or the internal error; the identity provider is
    never called; every record the request leaves in the drivers table -
    there may be more than one if an insert was answered late and retried
    - is new, comes after the records that were there, and carries the
    request's name, email, phone, role and the identity sent; nothing else
    in the database changes.  On success the answer carries the record
    stored last, and when both statements are answered at once exactly one
    record is stored. *)
Theorem register_with_known_identity (req : DriverRequest) (w : World) :
  tx w = Idle -> invalidRequest req = false ->
  (forall d, In d (drivers (committed w)) -> driver_email d <> text (r_email req)) ->
  missing (r_clerkId req) = false ->
  exists resp ds,
    (postDriver req w).1 = Ret resp
    /\ (code resp = 200 \/ code resp = 500)
    /\ committed (postDriver req w).2
       = set_drivers (drivers (committed w) ++ ds) (committed w)
    /\ Forall (registered_as req (text (r_clerkId req))) ds
    /\ (code resp = 200 ->
        exists d, last ds = Some d
                  /\ payload resp
                     = PDriver "Driver registered successfully" (Some (RowDriver d)))
    /\ idp (postDriver req w).2 = idp w
    /\ (exists tr, trace (postDriver req w).2 = trace w ++ tr /\ Forall is_statement tr)
    /\ (script w = [] -> code resp = 200 /\ length ds = 1%nat).
Proof.
  intros Htx Hvalid Hnew Em.
  pose proof (postDriver_registers req w Hvalid Htx Hnew) as Hspec.
  pose proof (postDriver_no_provider req w Hvalid Em) as [Hidp Htr].
  pose proof (postDriver_at_once req w Hvalid Htx Hnew Em) as Hfast.
  rewrite Em in Hspec.
  destruct (postDriver req w) as [[resp|e] w'] eqn:E; [|done]. simpl in *.
  destruct Hspec as [(ds & Hc & Hds) Hresp].
  exists resp, ds. split; [done|].
  assert (Forall (registered_as req (text (r_clerkId req))) ds) as Hall.
  { destruct Hds as [->|(uid & -> & Hds)]; [constructor|done]. }
  split_and!; try done.
  - destruct Hresp as [?|(uid & d & ds' & _ & _ & _ & ->)]; [by right|by left].
  - intros H200. destruct Hresp as [?|(uid & d & ds' & _ & _ & Hc' & ->)]; [lia|].
    rewrite Hc in Hc'. apply set_drivers_inj in Hc' as ->.
    exists d. by rewrite last_snoc.
  - intros Hsc. destruct (Hfast Hsc) as (d & [= Hr Hw]). subst resp w'. simpl in Hc.
    split; [done|]. by apply (set_drivers_inj _ [d]) in Hc as <-.
Qed.

(** A new driver for the sample database, with an identity. *)
Lemma register_with_known_identity_witness :
  exists resp ds,
    (postDriver {| r_name := Some (js "Lina"); r_email := Some (js "lina@example.com");
                   r_phone := Some (js "+966 50 000 0000");
                   r_clerkId := Some (js "user_42"); r_role := None |}
                (sample_world [])).1 = Ret resp
    /\ code resp = 200 /\ length ds = 1%nat
    /\ Forall (registered_as
                 {| r_name := Some (js "Lina"); r_email := Some (js "lina@example.com");
                    r_phone := Some (js "+966 50 000 0000");
                    r_clerkId := Some (js "user_42"); r_role := None |}
                 (js "user_42")) ds.
Proof.
  destruct (register_with_known_identity
              {| r_name := Some (js "Lina"); r_email := Some (js "lina@example.com");
                 r_phone := Some (js "+966 50 000 0000");
                 r_clerkId := Some (js "user_42"); r_role := None |}
              (sample_world []) eq_refl ltac:(by vm_compute)
              ltac:(intros d [<-|[]]; by vm_compute) eq_refl)
    as (resp & ds & Hr & _ & _ & Hall & _ & _ & _ & Hfast).
  exists resp, ds. destruct (Hfast eq_refl) as [H200 Hlen]. split_and!; done.
Defined.

(** X15.  A valid registration for an email that has no record yet, sent
    without an identity, on an idle connection.  A record is stored only
    with an identity that the provider created for this request: if any
    record is stored, the provider replied with a created user to one of
    its first four calls, after only network failures and stalls, and
    every stored record carries that user's id and the request's name,
    email, phone and role.  Success implies that a record was stored.  If
    the provider's first reply is a refusal, the answer is the internal
    error and no record is stored. *)
Theorem register_needs_identity (req : DriverRequest) (w : World) :
  tx w = Idle -> invalidRequest req = false ->
  (forall d, In d (drivers (committed w)) -> driver_email d <> text (r_email req)) ->
  missing (r_clerkId req) = true ->
  exists resp ds,
    (postDriver req w).1 = Ret resp
    /\ (code resp = 200 \/ code resp = 500)
    /\ committed (postDriver req w).2
       = set_drivers (drivers (committed w) ++ ds) (committed w)
    /\ (code resp = 200 -> ds <> [])
    /\ (ds <> [] ->
        exists uid k,
          (k < 4)%nat /\ provider_reply (idp w) k = Created uid
          /\ (forall j, (j < k)%nat -> transient (provider_reply (idp w) j))
          /\ Forall (registered_as req uid) ds)
    /\ (provider_reply (idp w) 0 = Refused -> code resp = 500 /\ ds = []).
Proof.
  intros Htx Hvalid Hnew Em.
  pose proof (postDriver_registers req w Hvalid Htx Hnew) as Hspec.
  rewrite Em in Hspec.
  destruct (postDriver req w) as [[resp|e] w'] eqn:E; [|done]. simpl in *.
  destruct Hspec as [(ds & Hc & Hds) Hresp].
  exists resp, ds. split; [done|].
  assert (ds <> [] ->
          exists uid k,
            (k < 4)%nat /\ provider_reply (idp w) k = Created uid
            /\ (forall j, (j < k)%nat -> transient (provider_reply (idp w) j))
            /\ Forall (registered_as req uid) ds) as Hsrc.
  { intros Hne. destruct Hds as [->|(uid & (k & Hk & Hrep & Hearly) & Hall)]; [done|].
    by exists uid, k. }
  assert (code resp = 200 -> ds <> []) as H200.
  { intros H200. destruct Hresp as [?|(uid & d & ds' & _ & _ & Hc' & _)]; [lia|].
    rewrite Hc in Hc'. apply set_drivers_inj in Hc' as ->. by destruct ds'. }
  assert (provider_reply (idp w) 0 = Refused -> ds = []) as Href.
  { intros Hr. destruct ds as [|d ds]; [done|].
    destruct (Hsrc ltac:(done)) as (uid & k & Hk & Hrep & Hearly & _).
    destruct k as [|k]; [congruence|].
    destruct (Hearly 0%nat ltac:(lia)) as [H|H]; congruence. }
  split_and!; try done.
  - destruct Hresp as [?|(uid & d & ds' & _ & _ & _ & ->)]; [by right|by left].
  - intros Hr. split; [|by apply Href].
    destruct Hresp as [?|(uid & d & ds' & _ & _ & _ & ->)]; [done|].
    specialize (H200 eq_refl). by specialize (Href Hr).
Qed.

(** The provider refuses: nothing is stored. *)
Lemma register_needs_identity_witness :
  exists resp,
    (postDriver {| r_name := Some (js "Lina"); r_email := Some (js "lina@example.com");
                   r_phone := Some (js "+966 50 000 0000");
                   r_clerkId := None; r_role := None |}
                {| committed := sample_db; tx := Idle; script := []; idp := [Refused];
                   clock := 1000; trace := [] |}).1 = Ret resp
    /\ code resp = 500.
Proof.
  destruct (register_needs_identity
              {| r_name := Some (js "Lina"); r_email := Some (js "lina@example.com");
                 r_phone := Some (js "+966 50 000 0000");
                 r_clerkId := None; r_role := None |}
              {| committed := sample_db; tx := Idle; script := []; idp := [Refused];
                 clock := 1000; trace := [] |}
              eq_refl ltac:(by vm_compute)
              ltac:(intros d [<-|[]]; by vm_compute) eq_refl)
    as (resp & ds & Hr & _ & _ & _ & _ & Href).
  exists resp. split; [exact Hr|]. exact (proj1 (Href eq_refl)).
Defined.

(** ** Temporary passwords *)

Lemma join_all_some (cs : list ascii) : join (map Some cs) = cs.
Proof. induction cs as [|c cs IH]; [done|]. simpl. by rewrite IH. Qed.

Lemma pick_in_range alphabet i :
  (i < length alphabet)%nat -> exists c, pick alphabet i = Some c /\ In c alphabet.
Proof.
  intros Hi. unfold pick. destruct (nth_error alphabet i) as [c|] eqn:E.
  - exists c. split; [done|]. by eapply nth_error_In.
  - apply nth_error_None in E. lia.
Qed.

(** X16.  A temporary password.  Provided every random index falls inside
    the alphabet it is drawn for (a product of a number below 1 with the
    length, rounded down) and the random sort only reorders the array,
    the password has exactly eight characters, all taken from the four
    alphabets, among them at least one lower-case letter, one upper-case
    letter, one digit and one of the special characters. *)
Theorem generateStrongPassword_shape (index : nat -> nat)
    (shuffle : list (option ascii) -> list (option ascii)) :
  (forall k, (index k < draw_bound k)%nat) ->
  (forall l, Permutation.Permutation (shuffle l) l) ->
  length (generateStrongPassword index shuffle) = 8%nat
  /\ Forall (fun c => In c (lowercase ++ uppercase ++ numbers ++ special))
            (generateStrongPassword index shuffle)
  /\ (exists c, In c (generateStrongPassword index shuffle) /\ In c lowercase)
  /\ (exists c, In c (generateStrongPassword index shuffle) /\ In c uppercase)
  /\ (exists c, In c (generateStrongPassword index shuffle) /\ In c numbers)
  /\ (exists c, In c (generateStrongPassword index shuffle) /\ In c special).
Proof.
  intros Hidx Hperm. unfold generateStrongPassword.
  destruct (pick_in_range lowercase (index 0%nat) (Hidx 0%nat)) as (c0 & E0 & H0).
  destruct (pick_in_range uppercase (index 1%nat) (Hidx 1%nat)) as (c1 & E1 & H1).
  destruct (pick_in_range numbers (index 2%nat) (Hidx 2%nat)) as (c2 & E2 & H2).
  destruct (pick_in_range special (index 3%nat) (Hidx 3%nat)) as (c3 & E3 & H3).
  destruct (pick_in_range (lowercase ++ uppercase ++ numbers ++ special)
              (index 4%nat) (Hidx 4%nat)) as (c4 & E4 & H4).
  destruct (pick_in_range (lowercase ++ uppercase ++ numbers ++ special)
              (index 5%nat) (Hidx 5%nat)) as (c5 & E5 & H5).
  destruct (pick_in_range (lowercase ++ uppercase ++ numbers ++ special)
              (index 6%nat) (Hidx 6%nat)) as (c6 & E6 & H6).
  destruct (pick_in_range (lowercase ++ uppercase ++ numbers ++ special)
              (index 7%nat) (Hidx 7%nat)) as (c7 & E7 & H7).
  cbn [length Nat.sub seq map Nat.add app]. rewrite E0, E1, E2, E3, E4, E5, E6, E7.
  set (arr := [Some c0; Some c1; Some c2; Some c3; Some c4; Some c5; Some c6; Some c7]).
  specialize (Hperm arr).
  assert (exists cs, shuffle arr = map Some cs
                     /\ Permutation.Permutation cs [c0; c1; c2; c3; c4; c5; c6; c7])
    as (cs & Hcs & Hp).
  { destruct (@Permutation.Permutation_map_inv _ _ Some (shuffle arr)
                [c0; c1; c2; c3; c4; c5; c6; c7] Hperm) as (cs & Hcs & Hp).
    exists cs. split; [done|]. by apply Permutation.Permutation_sym. }
  rewrite Hcs, join_all_some.
  assert (forall c, In c [c0; c1; c2; c3; c4; c5; c6; c7] -> In c cs) as Hin.
  { intros c Hc. eapply Permutation.Permutation_in; [|exact Hc].
    by apply Permutation.Permutation_sym. }
  split; [by rewrite (Permutation.Permutation_length Hp)|].
  split.
  - apply List.Forall_forall. intros c Hc.
    apply (Permutation.Permutation_in _ Hp) in Hc.
    simpl in Hc. destruct Hc as [<-|[<-|[<-|[<-|[<-|[<-|[<-|[<-|[]]]]]]]]]; try done.
    + apply in_or_app. by left.
    + apply in_or_app. right. apply in_or_app. by left.
    + apply in_or_app. right. apply in_or_app. right. apply in_or_app. by left.
    + apply in_or_app. right. apply in_or_app. right. apply in_or_app. by right.
  - split_and!.
    + exists c0. split; [apply Hin; simpl; tauto|done].
    + exists c1. split; [apply Hin; simpl; tauto|done].
    + exists c2. split; [apply Hin; simpl; tauto|done].
    + exists c3. split; [apply Hin; simpl; tauto|done].
Qed.

(** Every index 0 and the array reversed: "aaaa!0Aa". *)
Lemma generateStrongPassword_shape_witness :
  length (generateStrongPassword (fun _ => 0%nat) (@rev (option ascii))) = 8%nat
  /\ generateStrongPassword (fun _ => 0%nat) (@rev (option ascii)) = js "aaaa!0Aa".
Proof.
  split; [|by vm_compute].
  apply (generateStrongPassword_shape (fun _ => 0%nat) (@rev (option ascii))).
  - intros k. do 4 (destruct k as [|k]; [vm_compute; lia|]). vm_compute. lia.
  - intros l. apply Permutation.Permutation_sym, Permutation.Permutation_rev.
Defined.

(** ** Paging of the driver list *)

Lemma SFcompare_antisym x y c :
  SFcompare x y = Some c -> SFcompare y x = Some (CompOpp c).
Proof.
  destruct x as [sx|sx| |sx mx ex], y as [sy|sy| |sy my ey]; simpl;
    try discriminate; intros [= <-]; try (by destruct sx); try (by destruct sy);
    try (by destruct sx, sy).
  f_equal. destruct sx, sy; try done.
  - rewrite (Z.compare_antisym ex ey).
    destruct (ex ?= ey) eqn:E; simpl; try done.
    change (PosDef.Pos.compare_cont Eq) with Pos.compare.
    by rewrite (Pos.compare_antisym mx my).
  - rewrite (Z.compare_antisym ex ey).
    destruct (ex ?= ey) eqn:E; simpl; try done.
    change (PosDef.Pos.compare_cont Eq) with Pos.compare.
    by rewrite (Pos.compare_antisym mx my).
Qed.

Lemma SFcompare_some x y :
  x <> S754_nan -> y <> S754_nan -> exists c, SFcompare x y = Some c.
Proof. destruct x, y; simpl; try done; eauto. Qed.

(** Among numbers, "not above" is "below or equal". *)
Lemma not_ltb_leb (x y : float) :
  is_nan x = false -> is_nan y = false ->
  (y <? x)%float = false -> (x <=? y)%float = true.
Proof.
  intros Hx%is_nan_Prim2SF Hy%is_nan_Prim2SF.
  rewrite FloatAxioms.ltb_spec, FloatAxioms.leb_spec. unfold SFltb, SFleb.
  destruct (SFcompare_some _ _ Hy Hx) as [c Hc].
  rewrite Hc, (SFcompare_antisym _ _ _ Hc). by destruct c.
Qed.

Lemma Math_min_capped (x cap : float) :
  is_nan cap = false -> is_pos_zero cap = false -> (cap <? infinity)%float = true ->
  (is_nan x = true /\ Math_min [x; cap] = nan) \/
  (is_nan x = false /\ (Math_min [x; cap] <=? cap)%float = true /\
   (Math_min [x; cap] = x \/ Math_min [x; cap] = cap)).
Proof.
  intros Hn Hz Hi. unfold Math_min. cbn [min_from].
  destruct (is_nan x) eqn:Ex; [by left|]. right. split; [done|].
  replace (is_neg_zero x && is_pos_zero infinity) with false
    by (by rewrite andb_comm).
  assert (Hcc : (cap <=? cap)%float = true).
  { apply not_ltb_leb; try done.
    rewrite FloatAxioms.ltb_spec. unfold SFltb.
    destruct (SFcompare_some _ _ (is_nan_Prim2SF _ Hn) (is_nan_Prim2SF _ Hn)) as [c Hc].
    pose proof (SFcompare_antisym _ _ _ Hc) as Hc'. rewrite Hc in Hc'.
    rewrite Hc. by destruct c. }
  destruct (x <? infinity)%float eqn:E1.
  - rewrite Hn. destruct (is_neg_zero cap && is_pos_zero x) eqn:E2.
    + split; [done|by right].
    + destruct (cap <? x)%float eqn:E3; [split; [done|by right]|].
      split; [by apply not_ltb_leb|by left].
  - rewrite Hn. replace (is_neg_zero cap && is_pos_zero infinity) with false
      by (by rewrite andb_comm).
    rewrite Hi. split; [done|by right].
Qed.

Lemma Math_max_floored (x low : float) :
  is_nan low = false -> is_neg_zero low = false -> (neg_infinity <? low)%float = true ->
  (is_nan x = true /\ Math_max [x; low] = nan) \/
  (is_nan x = false /\ (low <=? Math_max [x; low])%float = true /\
   (Math_max [x; low] = x \/ Math_max [x; low] = low)).
Proof.
  intros Hn Hz Hi. unfold Math_max. cbn [max_from].
  destruct (is_nan x) eqn:Ex; [by left|]. right. split; [done|].
  replace (is_pos_zero x && is_neg_zero neg_infinity) with false
    by (by rewrite andb_comm).
  assert (Hcc : (low <=? low)%float = true).
  { apply not_ltb_leb; try done.
    rewrite FloatAxioms.ltb_spec. unfold SFltb.
    destruct (SFcompare_some _ _ (is_nan_Prim2SF _ Hn) (is_nan_Prim2SF _ Hn)) as [c Hc].
    pose proof (SFcompare_antisym _ _ _ Hc) as Hc'. rewrite Hc in Hc'.
    rewrite Hc. by destruct c. }
  destruct (neg_infinity <? x)%float eqn:E1.
  - rewrite Hn. destruct (is_pos_zero low && is_neg_zero x) eqn:E2.
    + split; [done|by right].
    + destruct (x <? low)%float eqn:E3; [split; [done|by right]|].
      split; [by apply not_ltb_leb|by left].
  - rewrite Hn. replace (is_pos_zero low && is_neg_zero neg_infinity) with false
      by (by rewrite andb_comm).
    rewrite Hi. split; [done|by right].
Qed.

Lemma leb_not_ltb (x y : float) :
  (x <=? y)%float = true -> (y <? x)%float = false.
Proof.
  rewrite FloatAxioms.ltb_spec, FloatAxioms.leb_spec. unfold SFltb, SFleb.
  destruct (SFcompare (Prim2SF x) (Prim2SF y)) as [c|] eqn:Hc; [|done].
  rewrite (SFcompare_antisym _ _ _ Hc). by destruct c.
Qed.

(** A number at or below the cap passes [Math.min] unchanged. *)
Lemma Math_min_below (x : float) :
  (x <=? 50)%float = true -> Math_min [x; 50%float] = x.
Proof.
  intros Hle. pose proof (leb_not_ltb _ _ Hle) as Hlt.
  assert (Ex : is_nan x = false).
  { apply Prim2SF_is_nan. intros E. rewrite FloatAxioms.leb_spec in Hle.
    by rewrite E in Hle. }
  assert (Ei : (x <? infinity)%float = true).
  { rewrite FloatAxioms.ltb_spec. rewrite FloatAxioms.leb_spec in Hle.
    change (Prim2SF infinity) with (S754_infinity false).
    destruct (Prim2SF x) as [s|s| |s m e] eqn:Ep.
    - reflexivity.
    - destruct s; [reflexivity|]. exfalso. clear -Hle.
      vm_compute in Hle. discriminate Hle.
    - exfalso. clear -Hle. vm_compute in Hle. discriminate Hle.
    - reflexivity. }
  unfold Math_min. cbn [min_from]. rewrite Ex.
  replace (is_neg_zero x && is_pos_zero infinity) with false by (by rewrite andb_comm).
  rewrite Ei. change (is_nan 50) with false. change (is_neg_zero 50) with false.
  cbn [andb]. by rewrite Hlt.
Qed.

(** [parseInt] of a text made of decimal digits is its value. *)
Lemma parseInt10_digits c ds :
  forallb RegExp.is_digit (c :: ds) = true ->
  parseInt10 (c :: ds) = ParseFloat.of_decimal false (JsNumber.digits_value (c :: ds)) 0.
Proof.
  intros H. pose proof (span_digits_all _ H) as Hs.
  cbn [forallb] in H. apply andb_prop in H as [Hc _].
  unfold parseInt10. cbn [ParseFloat.trim_start].
  rewrite (digit_not_space _ Hc).
  destruct (digit_not_sign _ Hc) as [-> ->]. by rewrite Hs.
Qed.

(** A text that starts with neither white space, a sign nor a digit is
    not a number. *)
Lemma parseInt10_no_number c s :
  RegExp.is_space c = false -> RegExp.is_digit c = false ->
  Ascii.eqb c "-" = false -> Ascii.eqb c "+" = false ->
  parseInt10 (c :: s) = nan.
Proof.
  intros Hsp Hd Hm Hp. unfold parseInt10. cbn [ParseFloat.trim_start].
  rewrite Hsp, Hm, Hp. cbn [ParseFloat.span_digits]. by rewrite Hd.
Qed.

Lemma or_default_cons x d : d <> [] -> exists c s, or_default x d = c :: s.
Proof.
  intros Hd. destruct x as [[|c s]|]; simpl; eauto; destruct d; eauto; done.
Qed.

(** The page count for every limit from 0 to 50 and every number of rows
    up to the limit, by evaluation. *)
Definition pages_expected (v : Z) (n : nat) : float :=
  if v =? 0 then nan else if (n =? 0)%nat then 0%float else 1%float.

Definition pages_ok (v n : nat) : bool :=
  PrimFloat.Leibniz.eqb
    (Math_ceil (float_of_Z (Z.of_nat n)
                / Math_min [ParseFloat.of_decimal false (Z.of_nat v) 0; 50%float])%float)
    (pages_expected (Z.of_nat v) n).

Lemma pages_table :
  forallb (fun v => forallb (pages_ok v) (seq 0 (S v))) (seq 0 51) = true.
Proof. vm_compute. reflexivity. Qed.

Lemma pages_upto_50 (v : Z) (n : nat) :
  v <= 50 -> Z.of_nat n <= v ->
  Math_ceil (float_of_Z (Z.of_nat n)
             / Math_min [ParseFloat.of_decimal false v 0; 50%float])%float
  = pages_expected v n.
Proof.
  intros Hv Hn. pose proof pages_table as T.
  rewrite forallb_forall in T. specialize (T (Z.to_nat v)).
  rewrite forallb_forall in T.
  assert (Hin : In (Z.to_nat v) (seq 0 51)) by (apply in_seq; lia).
  specialize (T Hin n). 
  assert (Hin2 : In n (seq 0 (S (Z.to_nat v)))) by (apply in_seq; lia).
  specialize (T Hin2). unfold pages_ok in T.
  apply FloatAxioms.Leibniz.eqb_spec in T. by rewrite Z2Nat.id in T by lia.
Qed.

(** Sample windows: a negative limit, a zero limit, a limit above the cap,
    a limit that is no number, and a page below 1. *)
Example drivers_window_samples :
  driversLimit (Some (js "-5")) = (-5)%float /\
  driversLimit (Some (js "0")) = 0%float /\
  driversLimit (Some (js "1000")) = 50%float /\
  driversLimit (Some (js "ten")) = nan /\
  driversPage (Some (js "0")) = 1%float /\
  driversOffset (Some (js "20")) (Some (js "3")) = 40%float.
Proof. by vm_compute. Qed.

(** X17 (GET /drivers, lines 241-245).  Whatever the [limit] and [page]
    query parameters hold, the limit handed to the query is NaN or at most
    50 and the page is NaN or at least 1.  The limit has no floor: a parsed
    number at or below 50 (zero and the negative ones included) is used as
    it is.  A parameter that is present but starts with neither white
    space, a sign nor a digit makes the limit NaN; the default 10 is used
    only for an absent or empty parameter, as is the default page 1, and
    with both defaults the offset is 0. *)
Theorem drivers_window_bounds :
  (forall limit,
     is_nan (driversLimit limit) = true \/ (driversLimit limit <=? 50)%float = true) /\
  (forall page,
     is_nan (driversPage page) = true \/ (1 <=? driversPage page)%float = true) /\
  (forall limit,
     (parseInt10 (or_default limit (js "10")) <=? 50)%float = true ->
     driversLimit limit = parseInt10 (or_default limit (js "10"))) /\
  (forall c s,
     RegExp.is_space c = false -> RegExp.is_digit c = false ->
     Ascii.eqb c "-" = false -> Ascii.eqb c "+" = false ->
     driversLimit (Some (c :: s)) = nan) /\
  (forall limit page,
     (limit = None \/ limit = Some []) -> (page = None \/ page = Some []) ->
     driversLimit limit = 10%float /\ driversPage page = 1%float /\
     driversOffset limit page = 0%float).
Proof.
  split_and!.
  - intros limit. unfold driversLimit.
    destruct (Math_min_capped (parseInt10 (or_default limit (js "10"))) 50)
      as [[_ ->]|(_ & H & _)]; try done; [by left|by right].
  - intros page. unfold driversPage.
    destruct (Math_max_floored (parseInt10 (or_default page (js "1"))) 1)
      as [[_ ->]|(_ & H & _)]; try done; [by left|by right].
  - intros limit H. by apply Math_min_below.
  - intros c s Hsp Hd Hm Hp. unfold driversLimit. cbn [or_default].
    by rewrite parseInt10_no_number.
  - intros limit page [-> | ->] [-> | ->]; by vm_compute.
Qed.

(** X18 (GET /drivers, lines 241, 267-275).  For a [limit] parameter made
    of decimal digits with a value of at most 50 (or absent, which reads
    as 10), and a result of at most that many rows, which is what LIMIT
    returns, the answer's [totalCount] is the number of rows of this page
    and [totalPages] is 0 for an empty page and 1 otherwise, however many
    drivers the table holds; with a limit of 0 the page is empty and
    [totalPages] is NaN. *)
Theorem drivers_totalPages_of_one_page
    (limit page : option JsString) (rows : list Driver) (v : Z) :
  forallb RegExp.is_digit (or_default limit (js "10")) = true ->
  JsNumber.digits_value (or_default limit (js "10")) = v ->
  v <= 50 ->
  Z.of_nat (length rows) <= v ->
  totalCount (driversPaging limit page rows) = float_of_Z (Z.of_nat (length rows)) /\
  totalPages (driversPaging limit page rows) =
    (if v =? 0 then nan
     else if (length rows =? 0)%nat then 0%float else 1%float).
Proof.
  intros Hd Hv H50 Hn. split; [done|].
  unfold driversPaging, driversLimit. cbn [totalPages].
  destruct (or_default_cons limit (js "10")) as (c & s & E); [done|].
  rewrite E in *. rewrite (parseInt10_digits _ _ Hd), Hv.
  by rewrite pages_upto_50.
Qed.

Lemma drivers_totalPages_of_one_page_witness :
  totalCount (driversPaging (Some (js "20")) (Some (js "3"))
                [sample_driver; sample_driver; sample_driver]) = 3%float /\
  totalPages (driversPaging (Some (js "20")) (Some (js "3"))
                [sample_driver; sample_driver; sample_driver]) = 1%float.
Proof.
  exact (drivers_totalPages_of_one_page (Some (js "20")) (Some (js "3"))
           [sample_driver; sample_driver; sample_driver] 20
           eq_refl eq_refl ltac:(lia) ltac:(simpl; lia)).
Defined.

